(** * A2P registration sync: canonical campaign selection, first-approval
      billing gate and cron authorization

    The repository ships its A2P logic as patch scripts: each script under
    [scripts/] rewrites one TypeScript handler by inserting or replacing a
    block of code.  The blocks themselves are the program verified here.
    Every definition below embeds one of those blocks and names the script
    and lines it comes from. *)

From Stdlib Require Import ZArith String Ascii.
From stdpp Require Import base option list gmap strings fin_maps pretty.

Local Open Scope string_scope.
Local Open Scope Z_scope.

(** ** JavaScript values as the handlers use them

    The handlers' locals are typed [string | undefined] (or [null]); the
    blocks rely on truthiness, [||], [String(..)], [toLowerCase],
    [startsWith], [slice] and strict (in)equality. *)
Module Js.

Inductive value : Type :=
| undefined
| null
| str (s : string).

#[global] Instance value_eq_dec : EqDecision value.
Proof. solve_decision. Defined.

(** Truthiness: only a non-empty string is truthy. *)
Definition truthy (v : value) : bool :=
  match v with
  | str s => negb (String.eqb s "")
  | _ => false
  end.

(** [a || b] *)
Definition or (a b : value) : value := if truthy a then a else b.

(** [a || "lit"], whose result is always a string. *)
Definition or_else (a : value) (lit : string) : string :=
  match a with
  | str s => if String.eqb s "" then lit else s
  | _ => lit
  end.

(** [String(v)] *)
Definition String_ (v : value) : string :=
  match v with
  | undefined => "undefined"
  | null => "null"
  | str s => s
  end.

(** [a === b] and [a !== b] *)
Definition strict_eq (a b : value) : bool := bool_decide (a = b).
Definition strict_ne (a b : value) : bool := negb (strict_eq a b).

Definition lower_ascii (c : ascii) : ascii :=
  let n := nat_of_ascii c in
  if (Nat.leb 65 n && Nat.leb n 90)%bool then ascii_of_nat (n + 32) else c.

(** [s.toLowerCase()] on the ASCII range the status strings live in. *)
Fixpoint toLowerCase (s : string) : string :=
  match s with
  | EmptyString => EmptyString
  | String c r => String (lower_ascii c) (toLowerCase r)
  end.

(** [s.startsWith(p)] *)
Definition startsWith (s p : string) : bool := String.prefix p s.

(** [s.slice(n)] for [n] within or beyond the string. *)
Definition slice (n : nat) (s : string) : string :=
  String.substring n (String.length s - n) s.

(** [o?.f] on an optional object. *)
Definition opt {A : Type} (o : option A) (f : A → value) : value :=
  match o with
  | Some a => f a
  | None => undefined
  end.

End Js.

(** ** Persisted documents

    A Mongo document is a finite map from field names to stored values;
    updates are partial [$set]/[$unset] merges. *)
Inductive docval : Type :=
| DStr (s : string)
| DNull
| DBool (b : bool)
| DDate (t : Z).

#[global] Instance docval_eq_dec : EqDecision docval.
Proof. solve_decision. Defined.

(** Truthiness of [doc.field]. *)
Definition field_truthy (f : option docval) : bool :=
  match f with
  | Some (DStr s) => negb (String.eqb s "")
  | Some (DBool b) => b
  | Some (DDate _) => true
  | Some DNull | None => false
  end.

(** A [$set] entry holding a handler local: an [undefined] value is dropped
    from the update, [null] and strings are stored. *)
Definition set_value (k : string) (v : Js.value) (d : gmap string docval)
  : gmap string docval :=
  match v with
  | Js.str s => <[k := DStr s]> d
  | Js.null => <[k := DNull]> d
  | Js.undefined => d
  end.

(** The fetched campaign resource, read as [fetched.status || fetched.state]. *)
Module Fetched.
Record t : Type := mk { status : Js.value; state : Js.value }.
End Fetched.

(** The result of [scanTwilioForCanonicalCampaignTenant]. *)
Module Canonical.
Record t : Type := mk {
  campaignSid : Js.value;
  messagingServiceSid : Js.value;
  brandSid : Js.value;
  campaignStatus : Js.value
}.
End Canonical.

(** The [user] document handed to the billing call and read by the
    status callback's guard. *)
Module User.
Record t : Type := mk {
  email : string;
  registrationStatus : Js.value;
  messagingReady : option bool
}.
End User.

(** The mutable [let] bindings of the sync handler that the canonical block
    reads and assigns. *)
Module Vars.
Record t : Type := mk {
  campStatus : Js.value;
  messagingServiceSid : Js.value;
  campaignSid : Js.value;
  brandSid : Js.value
}.

Definition with_campStatus (x : Js.value) (v : t) : t :=
  mk x (messagingServiceSid v) (campaignSid v) (brandSid v).
Definition with_messagingServiceSid (x : Js.value) (v : t) : t :=
  mk (campStatus v) x (campaignSid v) (brandSid v).
Definition with_campaignSid (x : Js.value) (v : t) : t :=
  mk (campStatus v) (messagingServiceSid v) x (brandSid v).
Definition with_brandSid (x : Js.value) (v : t) : t :=
  mk (campStatus v) (messagingServiceSid v) (campaignSid v) x.
End Vars.

(** ** The world a handler invocation runs in *)
Record World : Type := mkWorld {
  vars : Vars.t;                    (* the handler's locals *)
  store : gmap string docval;       (* the persisted A2PProfile document *)
  warnings : list string;           (* console.warn output *)
  charges : list string;            (* calls of chargeA2PApprovalIfNeeded *)
  now : Z                           (* what [new Date()] returns *)
}.

Definition set_vars (v : Vars.t) (w : World) : World :=
  mkWorld v (store w) (warnings w) (charges w) (now w).
Definition set_store (d : gmap string docval) (w : World) : World :=
  mkWorld (vars w) d (warnings w) (charges w) (now w).
Definition add_warning (s : string) (w : World) : World :=
  mkWorld (vars w) (store w) (s :: warnings w) (charges w) (now w).
Definition add_charge (u : string) (w : World) : World :=
  mkWorld (vars w) (store w) (warnings w) (u :: charges w) (now w).

(** ** Exceptions and state: the monad of an [async] handler body

    A computation either returns or throws; assignments and writes made
    before a throw stay made. *)
Inductive result (A : Type) : Type :=
| Ok (a : A)
| Throw (e : string).
Arguments Ok {A} a.
Arguments Throw {A} e.

Definition M (A : Type) : Type := World → result A * World.

#[global] Instance M_ret : MRet M := λ A a w, (Ok a, w).
#[global] Instance M_bind : MBind M := λ A B f m w,
  match m w with
  | (Ok a, w') => f a w'
  | (Throw e, w') => (Throw e, w')
  end.

Definition throw {A : Type} (e : string) : M A := λ w, (Throw e, w).

(** [try { body } catch (e) { handler(e) }] *)
Definition try_catch {A : Type} (body : M A) (handler : string → M A) : M A :=
  λ w, match body w with
       | (Ok a, w') => (Ok a, w')
       | (Throw e, w') => handler e w'
       end.

Definition get : M World := λ w, (Ok w, w).
Definition modify (f : World → World) : M unit := λ w, (Ok (), f w).

(** An awaited external call: it settles to a value or rejects. *)
Definition await {A : Type} (r : result A) : M A := λ w, (r, w).

(** ** Collaborators of the handlers

    Helpers and services the blocks call but the scripts do not contain: the
    status scorer and the approved-status set of [sync.ts], the two registry
    reads, the outcome of a profile write and the outcome of the billing
    call.  Each is left arbitrary. *)
Class Collaborators : Type := {
  scoreCampaignStatus : string → Z;
  CAMPAIGN_APPROVED : gset string;
  tryFetchCampaignTenant : Js.value → Js.value → result (option Fetched.t);
  scanTwilioForCanonicalCampaignTenant : Js.value → result (option Canonical.t);
  updateOne_rejects : gmap string docval → option string;
  charge_rejects : User.t → option string
}.

(** [await A2PProfile.updateOne({ _id: doc._id }, update)]: the update is
    applied to the persisted document, or the call rejects (the answer may
    depend on the document it finds) and nothing is written. *)
Definition A2PProfile_updateOne `{Collaborators}
  (update : gmap string docval → gmap string docval) : M unit :=
  w ← get;
  match updateOne_rejects (store w) with
  | Some e => throw e
  | None => modify (λ w, set_store (update (store w)) w)
  end.

(** ** The canonical-campaign block of [sync.ts]
    (patch_a2p_sync_twilio_truth_always_scan_v2.py, lines 23-84) *)

(** [currentStatus || campStatus || ""] (lines 40, 43, 44). *)
Definition baseline (currentStatus campStatus : Js.value) : string :=
  Js.or_else (Js.or currentStatus campStatus) "".

(** Lines 42-45. *)
Definition currentApproved `{Collaborators}
  (currentStatus campStatus : Js.value) : bool :=
  let lower := Js.toLowerCase (baseline currentStatus campStatus) in
  negb (String.eqb lower "") && bool_decide (lower ∈ CAMPAIGN_APPROVED).

Definition scoreCurrent `{Collaborators}
  (currentStatus campStatus : Js.value) : Z :=
  scoreCampaignStatus (baseline currentStatus campStatus).

Definition scoreCanonical `{Collaborators} (canonical : option Canonical.t) : Z :=
  scoreCampaignStatus (Js.or_else (Js.opt canonical Canonical.campaignStatus) "").

(** Lines 47-53, read for truthiness. *)
Definition shouldSwitch `{Collaborators}
  (v : Vars.t) (currentStatus : Js.value) (canonical : option Canonical.t) : bool :=
  (negb (Js.truthy (Vars.campaignSid v))
   || negb (Js.truthy (Vars.messagingServiceSid v)))
  || (Js.truthy (Js.opt canonical Canonical.campaignSid)
      && Js.truthy (Js.opt canonical Canonical.messagingServiceSid)
      && (scoreCurrent currentStatus (Vars.campStatus v) <? scoreCanonical canonical))
  || (Js.truthy (Js.opt canonical Canonical.campaignSid)
      && Js.truthy (Js.opt canonical Canonical.messagingServiceSid)
      && Js.strict_ne (Js.opt canonical Canonical.campaignSid) (Vars.campaignSid v)
      && negb (currentApproved currentStatus (Vars.campStatus v))).

(** The [$set]/[$unset] update of lines 63-75, built from the locals as they
    stand after the assignments of lines 56-60. *)
Definition canonical_update (v : Vars.t) (t : Z)
  (d : gmap string docval) : gmap string docval :=
  let d1 := set_value "messagingServiceSid" (Vars.messagingServiceSid v) d in
  let d2 := set_value "campaignSid" (Vars.campaignSid v) d1 in
  let d3 := set_value "usa2pSid" (Vars.campaignSid v) d2 in
  let d4 := if Js.truthy (Vars.brandSid v)
            then set_value "brandSid" (Vars.brandSid v) d3 else d3 in
  delete "lastError" (<["lastSyncedAt" := DDate t]> d4).

(** Lines 56-79: the body of [if (shouldSwitch && ...)]. *)
Definition adopt `{Collaborators} (c : Canonical.t) : M unit :=
  modify (λ w, set_vars
    (Vars.with_messagingServiceSid (Canonical.messagingServiceSid c) (vars w)) w);;
  modify (λ w, set_vars
    (Vars.with_campaignSid (Canonical.campaignSid c) (vars w)) w);;
  (if Js.truthy (Canonical.brandSid c)
      && Js.startsWith (Js.String_ (Canonical.brandSid c)) "BN"
   then modify (λ w, set_vars
          (Vars.with_brandSid (Js.str (Js.String_ (Canonical.brandSid c))) (vars w)) w)
   else mret ());;
  w ← get;
  A2PProfile_updateOne (canonical_update (vars w) (now w));;
  (if Js.truthy (Canonical.campaignStatus c)
   then modify (λ w, set_vars
          (Vars.with_campStatus (Canonical.campaignStatus c) (vars w)) w)
   else mret ()).

(** Lines 27-80: the body of the [try]. *)
Definition twilio_truth_body `{Collaborators} : M unit :=
  w0 ← get;
  fetched ← await (tryFetchCampaignTenant
                     (Vars.messagingServiceSid (vars w0))
                     (Vars.campaignSid (vars w0)));
  currentStatus ←
    match fetched with
    | Some f =>
        let currentStatus := Js.or (Fetched.status f) (Fetched.state f) in
        modify (λ w, set_vars
          (Vars.with_campStatus
             (Js.or currentStatus (Vars.campStatus (vars w))) (vars w)) w);;
        mret currentStatus
    | None => mret Js.undefined
    end;
  w1 ← get;
  canonical ← await (scanTwilioForCanonicalCampaignTenant
                       (Js.or (Vars.brandSid (vars w1)) Js.null));
  if shouldSwitch (vars w1) currentStatus canonical
     && Js.truthy (Js.opt canonical Canonical.messagingServiceSid)
     && Js.truthy (Js.opt canonical Canonical.campaignSid)
  then match canonical with
       | Some c => adopt c
       | None => mret ()
       end
  else mret ().

(** Lines 26-83: [try { ... } catch { /* non-fatal */ }]. *)
Definition twilio_truth_block `{Collaborators} : M unit :=
  try_catch twilio_truth_body (λ _, mret ()).

(** ** The billing call and its two guarded call sites *)

(** Modelled from the spec: the body of [chargeA2PApprovalIfNeeded]
    (lib/billing/trackUsage) is not part of the scripts.  Section 3 gives
    billing state to the payment gateway alone, so the call is recorded,
    leaves the profile and the handler's locals alone, and returns or
    rejects as the gateway decides. *)
Definition chargeA2PApprovalIfNeeded `{Collaborators} (user : User.t) : M unit :=
  modify (add_charge (User.email user));;
  match charge_rejects user with
  | Some e => throw e
  | None => mret ()
  end.

(** [console.warn("[A2P] approval fee charge failed (non-fatal):", e?.message || e)] *)
Definition warn_charge_failed (e : string) : M unit :=
  modify (add_warning ("[A2P] approval fee charge failed (non-fatal): " ++ e)).

(** [const messagingReady = brandIsApproved && campaignIsApproved;]
    (patch_a2p_charge_hook_status_callback.py, line 25). *)
Definition messagingReady (brandIsApproved campaignIsApproved : bool) : bool :=
  brandIsApproved && campaignIsApproved.

(** patch_guard_a2p_charge_status_callback.py, lines 21-22. *)
Definition wasReady (user : User.t) : bool :=
  Js.strict_eq (User.registrationStatus user) (Js.str "ready")
  || bool_decide (User.messagingReady user = Some true).

(** patch_guard_a2p_charge_status_callback.py, lines 24-30. *)
Definition status_callback_charge `{Collaborators}
  (user : User.t) (messagingReady : bool) : M unit :=
  try_catch
    (if messagingReady && negb (wasReady user)
     then chargeA2PApprovalIfNeeded user
     else mret ())
    warn_charge_failed.

(** patch_insert_a2p_charge_inside_approvalNotified_gate.py, lines 6-17:
    the charge is the first statement of [if (!doc.approvalNotifiedAt) {];
    [rest] is the body the gate already had.  [doc] is the document as the
    handler loaded it, not the persisted one. *)
Definition gate_open (doc : gmap string docval) : bool :=
  negb (field_truthy (doc !! "approvalNotifiedAt")).

Definition approvalNotified_gate `{Collaborators}
  (doc : gmap string docval) (user : User.t) (rest : M unit) : M unit :=
  if gate_open doc
  then try_catch (chargeA2PApprovalIfNeeded user) warn_charge_failed;; rest
  else mret ().

(** The block the status callback had before the guard was added
    (patch_a2p_charge_hook_status_callback.py, lines 27-33). *)
Definition status_callback_charge_unguarded `{Collaborators}
  (user : User.t) (messagingReady : bool) : M unit :=
  try_catch
    (if messagingReady then chargeA2PApprovalIfNeeded user else mret ())
    warn_charge_failed.

(** ** Approval of a status *)

(** Modelled from the spec: [isApproved] (section 4.3) is not part of the
    scripts.  A status is approved when it is present and, lower-cased,
    belongs to the approved class; this is the test lines 42-45 of the
    canonical block make for the campaign. *)
Definition isApproved (approved : gset string) (status : Js.value) : bool :=
  let lower := Js.toLowerCase (Js.or_else status "") in
  negb (String.eqb lower "") && bool_decide (lower ∈ approved).

(** Modelled from the spec: the status callback derives [brandIsApproved] and
    [campaignIsApproved] from the two statuses of the payload (section 4.3);
    the conjunction is line 25 of patch_a2p_charge_hook_status_callback.py. *)
Definition status_callback_ready (brandApproved campaignApproved : gset string)
  (brandStatus campaignStatus : Js.value) : bool :=
  messagingReady (isApproved brandApproved brandStatus)
                 (isApproved campaignApproved campaignStatus).

(** ** The sync handler around the patched blocks *)

(** The [$set] the approved branch of [sync.ts] applies
    (patch_a2p_charge_hook_a2p_sync.py, lines 18 and 43: the update holds
    [messagingReady: true, applicationStatus: "approved"]). *)
Definition approved_update (d : gmap string docval) : gmap string docval :=
  <["applicationStatus" := DStr "approved"]> (<["messagingReady" := DBool true]> d).

(** Modelled from the spec: section 4.3, [ready = isApproved(brandStatus) ∧
    isApproved(campaignStatus)], on the brand status the pass has computed
    and the campaign status the canonical block leaves in [campStatus]. *)
Definition detect_ready `{Collaborators} (brandApproved : gset string)
  (brandStatus : Js.value) (w : World) : bool :=
  messagingReady (isApproved brandApproved brandStatus)
                 (isApproved CAMPAIGN_APPROVED (Vars.campStatus (vars w))).

(** Modelled from the spec: step 3 of section 4.5 persists the reconciled
    fields, and section 3 has [messagingReady] recomputed on every pass as
    the conjunction.  On a ready pass the write is the [$set] of
    [approved_update]. *)
Definition reconciled_update (ready : bool) (d : gmap string docval)
  : gmap string docval :=
  if ready then approved_update d else <["messagingReady" := DBool false]> d.

(** Modelled from the spec: the write that closes the gate is not part of
    the scripts.  Section 4.5 step 5 sets [approvalNotifiedAt] on the first
    ready pass, and section 5 asks for a write that sets the field only
    where it finds it unset. *)
Definition mark_approval_notified `{Collaborators} : M unit :=
  w ← get;
  A2PProfile_updateOne
    (λ d, if gate_open d then <["approvalNotifiedAt" := DDate (now w)]> d else d).

(** Modelled from the spec: the frame of the sync handler is not part of the
    scripts.  Following section 4.5, one pass over a loaded profile [doc]
    resolves the canonical identifiers (step 1, the canonical block),
    computes [ready] from the two statuses (steps 2 and 4), persists the
    reconciled fields (step 3) and, on a ready pass, runs the
    [approvalNotifiedAt] gate (step 5): the gate is the one of
    patch_insert_a2p_charge_inside_approvalNotified_gate.py, whose body
    begins with the billing call and goes on with the write that closes the
    gate.  A rejected profile write is reported to the caller (section 7). *)
Definition sync_profile `{Collaborators}
  (brandApproved : gset string) (brandStatus : Js.value)
  (doc : gmap string docval) (user : User.t) : M unit :=
  twilio_truth_block;;
  w ← get;
  let ready := detect_ready brandApproved brandStatus w in
  A2PProfile_updateOne (reconciled_update ready);;
  if ready
  then approvalNotified_gate doc user mark_approval_notified
  else mret ().







(** ** Two invocations on one profile

    Each invocation runs as its own unit of work; between two awaited calls
    of one invocation the other may take any number of steps.  An
    invocation loads the document, persists the approved fields, tests the
    gate on the document it loaded, and runs the rest of the gate's body. *)
Module Race.

Inductive pc : Type :=
| AtLoad
| AtStatusWrite
| AtGate
| AtGateBody
| Finished
| Failed.

#[global] Instance pc_eq_dec : EqDecision pc.
Proof. solve_decision. Defined.

Record Invocation : Type := mkInvocation {
  point : pc;
  doc : gmap string docval;      (* the document as this invocation loaded it *)
  user : User.t
}.

Definition goto (p : pc) (i : Invocation) : Invocation :=
  mkInvocation p (doc i) (user i).

(** One step of one invocation.  [mark] is what the rest of the gate's body
    writes to the profile. *)
Definition step `{Collaborators}
  (mark : gmap string docval → gmap string docval)
  (i : Invocation) (w : World) : Invocation * World :=
  match point i with
  | AtLoad => (mkInvocation AtStatusWrite (store w) (user i), w)
  | AtStatusWrite =>
      match A2PProfile_updateOne approved_update w with
      | (Ok _, w') => (goto AtGate i, w')
      | (Throw _, w') => (goto Failed i, w')
      end
  | AtGate =>
      (goto (if gate_open (doc i) then AtGateBody else Finished) i,
       (approvalNotified_gate (doc i) (user i) (mret ()) w).2)
  | AtGateBody => (goto Finished i, (A2PProfile_updateOne mark w).2)
  | Finished | Failed => (i, w)
  end.

Record Config : Type := mkConfig {
  first : Invocation;
  second : Invocation;
  shared : World
}.

(** A schedule names, step by step, which invocation moves. *)
Fixpoint run `{Collaborators}
  (mark : gmap string docval → gmap string docval)
  (schedule : list bool) (c : Config) : Config :=
  match schedule with
  | [] => c
  | true :: rest =>
      let '(i, w) := step mark (first c) (shared c) in
      run mark rest (mkConfig i (second c) w)
  | false :: rest =>
      let '(i, w) := step mark (second c) (shared c) in
      run mark rest (mkConfig (first c) i w)
  end.

(** The billing calls an invocation has made so far: one once it is past an
    open gate, none otherwise. *)
Definition calls_made (i : Invocation) : nat :=
  match point i with
  | AtGateBody | Finished => if gate_open (doc i) then 1%nat else 0%nat
  | _ => 0%nat
  end.

(** Both invocations start before loading, with no billing call made. *)
Definition start (u : User.t) (w : World) : Config :=
  mkConfig (mkInvocation AtLoad ∅ u) (mkInvocation AtLoad ∅ u) w.

(** A write that sets the gate only where it finds it unset. *)
Definition set_if_unset (t : Z) (d : gmap string docval) : gmap string docval :=
  if gate_open d then <["approvalNotifiedAt" := DDate t]> d else d.

End Race.

(** ** Authorization of the polling endpoints
    (patch_accept_vercel_bearer_cron_secret.py) *)
Module Request.
Record t : Type := mk {
  query_token : Js.value;             (* req.query.token *)
  headers : gmap string string        (* req.headers *)
}.
End Request.

(** [req.headers[name]] *)
Definition header (req : Request.t) (name : string) : Js.value :=
  match Request.headers req !! name with
  | Some s => Js.str s
  | None => Js.undefined
  end.

(** Line 18. *)
Definition headerKey (req : Request.t) : string :=
  Js.or_else (header req "x-cron-key") "".

(** Lines 19 and 52. *)
Definition authHeader (req : Request.t) : string :=
  Js.or_else (header req "authorization") "".

(** Lines 20 and 53. *)
Definition bearer (req : Request.t) : string :=
  if Js.startsWith (authHeader req) "Bearer "
  then Js.slice 7 (authHeader req) else "".

(** [sync-status.ts], line 31: the condition under which the request is
    turned away.  [token] is the handler's constant of that name, declared
    outside the patched lines. *)
Definition sync_status_rejects (CRON_KEY token : string) (req : Request.t) : bool :=
  negb (String.eqb CRON_KEY "")
  && negb (String.eqb token CRON_KEY)
  && negb (String.eqb (headerKey req) CRON_KEY)
  && negb (String.eqb (bearer req) CRON_KEY).

(** [check-a2p-status.ts], line 54: the one value the handler goes on to
    compare with the secret. *)
Definition check_a2p_token (req : Request.t) : Js.value :=
  Js.or (Js.or (Js.or (Request.query_token req) (header req "x-cron-token"))
               (header req "x-cron-key"))
        (Js.str (bearer req)).

(** Modelled from the spec: the comparison that follows line 54 is not part
    of the scripts; section 6 authorizes when the presented value equals the
    configured secret. *)
Definition check_a2p_authorized (CRON_SECRET : string) (req : Request.t) : bool :=
  Js.strict_eq (check_a2p_token req) (Js.str CRON_SECRET).

(** The four channels of section 6, each read on its own. *)
Definition presented (req : Request.t) : list Js.value :=
  [ Request.query_token req;
    header req "x-cron-token";
    header req "x-cron-key";
    Js.str (bearer req) ].

(** ** Concrete collaborators *)

(** Modelled from the spec: [scoreCampaignStatus] and [CAMPAIGN_APPROVED] are
    declared in [sync.ts] outside the patched block.  Section 4.1 ranks
    approved-class statuses highest, pending-class statuses in the middle
    and everything else lowest; section 3 names "approved" and "pending". *)
Definition approved_class : gset string := {["approved"]}.
Definition pending_class : gset string := {["pending"]}.

Definition score_by_class (status : string) : Z :=
  let lower := Js.toLowerCase status in
  if bool_decide (lower ∈ approved_class) then 2
  else if bool_decide (lower ∈ pending_class) then 1
  else 0.

(** Collaborators that give fixed answers. *)
Definition answering
  (fetch : result (option Fetched.t)) (scan : result (option Canonical.t))
  (write : option string) (charge : option string) : Collaborators :=
  {| scoreCampaignStatus := score_by_class;
     CAMPAIGN_APPROVED := approved_class;
     tryFetchCampaignTenant := λ _ _, fetch;
     scanTwilioForCanonicalCampaignTenant := λ _, scan;
     updateOne_rejects := λ _, write;
     charge_rejects := λ _, charge |}.

Definition campaign_B (status : string) : Canonical.t :=
  Canonical.mk (Js.str "CMB") (Js.str "MGB") Js.undefined (Js.str status).

Definition some_user : User.t :=
  User.mk "owner@example.com" (Js.str "pending") None.

Definition ready_user : User.t :=
  User.mk "owner@example.com" (Js.str "ready") (Some true).

Definition fresh_world (v : Vars.t) (d : gmap string docval) : World :=
  mkWorld v d [] [] 1700000000.

(** The part of the locals the canonical block may refresh without
    switching: [campStatus = currentStatus || campStatus] (lines 30-33). *)
Definition refresh (fetched : option Fetched.t) (w : World) : World :=
  match fetched with
  | Some f =>
      set_vars (Vars.with_campStatus
                  (Js.or (Js.or (Fetched.status f) (Fetched.state f))
                         (Vars.campStatus (vars w))) (vars w)) w
  | None => w
  end.

(** [currentStatus] as line 31 computes it, [undefined] if nothing was
    fetched. *)
Definition fetched_status (fetched : option Fetched.t) : Js.value :=
  Js.opt fetched (λ f, Js.or (Fetched.status f) (Fetched.state f)).

(** The locals after the assignments of lines 56-60. *)
Definition adopted (c : Canonical.t) (v : Vars.t) : Vars.t :=
  Vars.mk (Vars.campStatus v)
          (Canonical.messagingServiceSid c)
          (Canonical.campaignSid c)
          (if Js.truthy (Canonical.brandSid c)
              && Js.startsWith (Js.String_ (Canonical.brandSid c)) "BN"
           then Js.str (Js.String_ (Canonical.brandSid c))
           else Vars.brandSid v).

(** The three-clause rule of section 4.2 on a candidate [c], against the
    stored identifiers and the current status. *)
Definition switch_rule `{Collaborators}
  (v : Vars.t) (current : string) (c : Canonical.t) : Prop :=
  (Js.truthy (Vars.campaignSid v) = false
   ∨ Js.truthy (Vars.messagingServiceSid v) = false)
  ∨ scoreCampaignStatus current
      < scoreCampaignStatus (Js.or_else (Canonical.campaignStatus c) "")
  ∨ (Canonical.campaignSid c ≠ Vars.campaignSid v
     ∧ isApproved CAMPAIGN_APPROVED (Js.str current) = false).

(** What the block decides on: line 55's condition. *)
Definition decides `{Collaborators} (w : World) (fetched : option Fetched.t)
  (canonical : option Canonical.t) : bool :=
  shouldSwitch (vars (refresh fetched w)) (fetched_status fetched) canonical
  && Js.truthy (Js.opt canonical Canonical.messagingServiceSid)
  && Js.truthy (Js.opt canonical Canonical.campaignSid).

(** The world the switch leaves, whether or not the write goes through. *)
Definition switched `{Collaborators} (c : Canonical.t) (w1 : World) : World :=
  let v := adopted c (vars w1) in
  match updateOne_rejects (store w1) with
  | Some _ => set_vars v w1
  | None =>
      mkWorld (if Js.truthy (Canonical.campaignStatus c)
               then Vars.with_campStatus (Canonical.campaignStatus c) v else v)
              (canonical_update v (now w1) (store w1))
              (warnings w1) (charges w1) (now w1)
  end.

(** The world right after the guarded billing call: the call is on the
    trace, and a rejection has left a warning. *)
Definition billed `{Collaborators} (user : User.t) (w : World) : World :=
  match charge_rejects user with
  | Some e =>
      add_warning ("[A2P] approval fee charge failed (non-fatal): " ++ e)
                  (add_charge (User.email user) w)
  | None => add_charge (User.email user) w
  end.

(** The same collaborators with a billing call that never rejects. *)
Definition billing_ok (C : Collaborators) : Collaborators :=
  {| scoreCampaignStatus := @scoreCampaignStatus C;
     CAMPAIGN_APPROVED := @CAMPAIGN_APPROVED C;
     tryFetchCampaignTenant := @tryFetchCampaignTenant C;
     scanTwilioForCanonicalCampaignTenant := @scanTwilioForCanonicalCampaignTenant C;
     updateOne_rejects := @updateOne_rejects C;
     charge_rejects := λ _, None |}.

(** Two worlds that differ at most in their console output. *)
Definition same_but_warnings (w1 w2 : World) : Prop :=
  vars w1 = vars w2 ∧ store w1 = store w2
  ∧ charges w1 = charges w2 ∧ now w1 = now w2.


(** Sample inputs. *)
Definition stored_A (status : string) : Vars.t :=
  Vars.mk (Js.str status) (Js.str "MGA") (Js.str "CMA") (Js.str "BNA").

Definition stored_A_without_service (status : string) : Vars.t :=
  Vars.mk (Js.str status) Js.undefined (Js.str "CMA") (Js.str "BNA").

Definition registry_offers (c : Canonical.t) : Collaborators :=
  answering (Ok None) (Ok (Some c)) None None.

Definition registry_down : Collaborators :=
  answering (Ok (Some (Fetched.mk (Js.str "pending") Js.undefined)))
            (Throw "ETIMEDOUT") None None.

Definition billing_down : Collaborators :=
  answering (Ok None) (Ok (Some (campaign_B "approved"))) None
            (Some "card_declined").





(** Both invocations move in lockstep: each loads before either writes. *)
Definition lockstep : list bool :=
  [true; false; true; false; true; false; true; false].

(** A profile whose brand is still pending. *)
Definition brand_pending_store : gmap string docval :=
  {[ "brandStatus" := DStr "pending" ]}.

(** A request carrying a stale query token and the secret as bearer token,
    and the same request without the bearer token. *)
Definition stale_query_good_bearer : Request.t :=
  Request.mk (Js.str "stale") {[ "authorization" := "Bearer s3cret" ]}.

Definition stale_query_only : Request.t :=
  Request.mk (Js.str "stale") ∅.

Definition bearer_only : Request.t :=
  Request.mk Js.undefined {[ "authorization" := "Bearer s3cret" ]}.

(** ** Earlier versions of the patched lines

    Several scripts replace a line by a longer one; the line they look for is
    the handler's code before the patch. *)

(** [sync-status.ts] before the bearer patch
    (patch_accept_vercel_bearer_cron_secret.py, line 26). *)
Definition sync_status_rejects_before (CRON_KEY token : string)
  (req : Request.t) : bool :=
  negb (String.eqb CRON_KEY "")
  && negb (String.eqb token CRON_KEY)
  && negb (String.eqb (headerKey req) CRON_KEY).

(** [check-a2p-status.ts] before the bearer patch
    (patch_accept_vercel_bearer_cron_secret.py, line 44; written by
    patch_a2p_check_status_save_no_validate.py, line 18). *)
Definition check_a2p_token_before (req : Request.t) : Js.value :=
  Js.or (Js.or (Request.query_token req) (header req "x-cron-token"))
        (header req "x-cron-key").

(** [check-a2p-status.ts] before either patch
    (patch_a2p_check_status_save_no_validate.py, line 11). *)
Definition check_a2p_token_original (req : Request.t) : Js.value :=
  Js.or (Request.query_token req) (header req "x-cron-token").

(** A campaign resource as the scan of [sync.ts] reads it
    (patch_a2p_sync_scan_campaign_status.py). *)
Module Scanned.
Record t : Type := mk {
  campaignStatus : Js.value;
  campaign_status : Js.value;
  status : Js.value;
  state : Js.value
}.
End Scanned.

(** Line 6: the status the scan read before the patch. *)
Definition scan_status_before (c : Scanned.t) : Js.value :=
  Js.or (Scanned.status c) (Scanned.state c).

(** Line 7: the status the scan reads after it. *)
Definition scan_status (c : Scanned.t) : Js.value :=
  Js.or (Js.or (Js.or (Scanned.campaignStatus c) (Scanned.campaign_status c))
               (Scanned.status c))
        (Scanned.state c).

(** ** The number guard of the dial session page
    (patch_ai_dial_session_remove_arch_notes_and_fix_from_number_display.py,
    lines 66-75) *)
Module Dial.

Record Number : Type := mkNumber { phoneNumber : Js.value }.

Record State : Type := mkState {
  selectedFromNumber : string;
  numbers : option (list Number);              (* None: not an array *)
  localStorage : option (gmap string string)   (* None: storage access throws *)
}.

(** [numbers.some((n) => n.phoneNumber === selectedFromNumber)] *)
Definition owns (ns : list Number) (selected : string) : bool :=
  existsb (λ n, Js.strict_eq (phoneNumber n) (Js.str selected)) ns.

(** The body of the effect. *)
Definition guard_effect (st : State) : State :=
  if String.eqb (selectedFromNumber st) "" then st
  else match numbers st with
       | None => st
       | Some ns =>
           if (length ns =? 0)%nat then st
           else if owns ns (selectedFromNumber st) then st
           else mkState "" (numbers st)
                        (delete "selectedDialNumber" <$> localStorage st)
       end.

End Dial.

(** More sample inputs. *)
Definition write_rejected : Collaborators :=
  answering (Ok None) (Ok (Some (campaign_B "approved")))
            (Some "MongoNetworkError") None.

(** The stored campaign A as the scan would return it. *)
Definition campaign_A (status : string) : Canonical.t :=
  Canonical.mk (Js.str "CMA") (Js.str "MGA2") Js.undefined (Js.str status).

(** ** The patch scripts as text transformations

    Each script reads one file, locates literal markers with [str.find],
    [in] and [str.count], and writes the file back with a span cut,
    replaced or inserted.  A file and a text are lists of characters as
    stored (UTF-8 bytes): the scripts only compare, cut and join texts, which
    gives the same result on bytes as on code points.  Reading turns the
    line ends of the file into LF; in each module [edit] is what the script
    does to the text it has read, and [run] (or [main]) is the script from
    the file it reads to the text it writes. *)
Definition nl : ascii := "010"%char.
Definition cr : ascii := "013"%char.
Definition dq : ascii := "034"%char.
Definition txt (s : string) : list ascii := list_ascii_of_string s.

(** What a script run leaves behind: the text it handed to [write_text], or
    the message it printed before exiting without writing. *)
Inductive outcome : Type :=
| Wrote (text : list ascii)
| Aborted (message : string).

Module Py.
Local Open Scope list_scope.

(** [Path.read_text()]: the file is opened in text mode, where every CR LF
    and every other CR of the file is read as one LF. *)
Fixpoint read_text (file : list ascii) : list ascii :=
  match file with
  | [] => []
  | c :: file' =>
      if Ascii.eqb c cr
      then nl :: match file' with
                 | d :: file'' =>
                     if Ascii.eqb d nl then read_text file'' else read_text file'
                 | [] => []
                 end
      else c :: read_text file'
  end.

(** [Path.write_text(text)]: the file is written in text mode, where every
    LF of the text is written as the line end of the platform, CR LF
    ([crlf]) or LF. *)
Definition write_text (crlf : bool) (text : list ascii) : list ascii :=
  if crlf
  then text ≫= (λ c, if Ascii.eqb c nl then [cr; nl] else [c])
  else text.

(** [s.startswith(sub)] *)
Fixpoint startswith (s sub : list ascii) {struct sub} : bool :=
  match sub, s with
  | [], _ => true
  | _ :: _, [] => false
  | c :: sub', d :: s' => Ascii.eqb c d && startswith s' sub'
  end.

(** The lowest index at which [sub] occurs in [s]. *)
Fixpoint find0 (s sub : list ascii) : option nat :=
  if startswith s sub then Some 0%nat
  else match s with
       | [] => None
       | _ :: s' => S <$> find0 s' sub
       end.

(** [s.find(sub, start)]; Python's [-1] is [None]. *)
Definition find (s sub : list ascii) (start : nat) : option nat :=
  if (length s <? start)%nat then None
  else (λ i, (start + i)%nat) <$> find0 (drop start s) sub.

(** [sub in s] *)
Definition contains (s sub : list ascii) : bool :=
  bool_decide (is_Some (find0 s sub)).

(** [s[a:b]] for indices counted from the start. *)
Definition slice (s : list ascii) (a b : nat) : list ascii :=
  take (b - a) (drop a s).

(** [s.count(sub)] for a non-empty [sub]: occurrences from left to right,
    each search resuming after the previous occurrence. *)
Fixpoint count_upto (fuel : nat) (s sub : list ascii) : nat :=
  match fuel with
  | O => O
  | S fuel' =>
      match find0 s sub with
      | None => O
      | Some i => S (count_upto fuel' (drop (i + length sub) s) sub)
      end
  end.

Definition count (s sub : list ascii) : nat := count_upto (length s) s sub.

(** [s.replace(old, new, n)] for a non-empty [old]. *)
Fixpoint replace (n : nat) (s old new : list ascii) : list ascii :=
  match n with
  | O => s
  | S n' =>
      match find0 s old with
      | None => s
      | Some i =>
          take i s ++ new ++ replace n' (drop (i + length old) s) old new
      end
  end.

End Py.

(** [b] never begins inside an occurrence of [a]: at no offset within [a] do
    the rest of [a] and [b] agree as far as both go. *)
Definition clash_free (a b : list ascii) : bool :=
  forallb (λ k, negb (Py.startswith (drop k a) b || Py.startswith b (drop k a)))
          (seq 0 (length a)).

(** Whether a run ended with the given message. *)
Definition aborted_with (o : outcome) (message : string) : bool :=
  match o with
  | Aborted m => String.eqb m message
  | Wrote _ => false
  end.

(** *** patch_a2p_sync_twilio_truth_always_scan_v2.py *)
Module TwilioTruthPatch.
Local Open Scope list_scope.

(** Line 7. *)
Definition start_marker : list ascii :=
  (txt "      // ✅ Twilio = truth: if DB is missing/wrong SIDs, reattach to canonical Twilio campaign." ++ [nl]).

(** Line 8. *)
Definition end_marker : list ascii :=
  (txt "      } catch {" ++ [nl])
  ++ (txt "        // non-fatal; we'll fall back to existing behavior" ++ [nl])
  ++ (txt "      }" ++ [nl]).

(** Lines 23-84. *)
Definition replacement : list ascii :=
  (txt "      // ✅ Twilio = truth (bulletproof):" ++ [nl])
  ++ (txt "      // Always consider canonical campaign from Twilio (approved > pending > newest)," ++ [nl])
  ++ (txt "      // even if our stored campaign fetch succeeds, because resubmits can create new SIDs." ++ [nl])
  ++ (txt "      try {" ++ [nl])
  ++ (txt "        // Fetch current (if present) to get a status baseline" ++ [nl])
  ++ (txt "        let currentStatus: string | undefined;" ++ [nl])
  ++ (txt "        const fetched = await tryFetchCampaignTenant({ client, messagingServiceSid, campaignSid });" ++ [nl])
  ++ (txt "        if (fetched) {" ++ [nl])
  ++ (txt "          currentStatus = (fetched as any)?.status || (fetched as any)?.state;" ++ [nl])
  ++ (txt "          campStatus = currentStatus || campStatus;" ++ [nl])
  ++ (txt "        }" ++ [nl])
  ++ [nl]
  ++ (txt "        const canonical = await scanTwilioForCanonicalCampaignTenant({" ++ [nl])
  ++ (txt "          client," ++ [nl])
  ++ (txt "          preferBrandSid: brandSid || null," ++ [nl])
  ++ (txt "        });" ++ [nl])
  ++ [nl]
  ++ (txt "        const scoreCurrent = scoreCampaignStatus(currentStatus || campStatus || " ++ [dq] ++ [dq] ++ txt ");" ++ [nl])
  ++ (txt "        const scoreCanonical = scoreCampaignStatus(canonical?.campaignStatus || " ++ [dq] ++ [dq] ++ txt ");" ++ [nl])
  ++ (txt "        const currentApproved = Boolean(" ++ [nl])
  ++ (txt "          String(currentStatus || campStatus || " ++ [dq] ++ [dq] ++ txt ").toLowerCase() &&" ++ [nl])
  ++ (txt "            CAMPAIGN_APPROVED.has(String(currentStatus || campStatus || " ++ [dq] ++ [dq] ++ txt ").toLowerCase())" ++ [nl])
  ++ (txt "        );" ++ [nl])
  ++ [nl]
  ++ (txt "        const shouldSwitch =" ++ [nl])
  ++ (txt "          (!campaignSid || !messagingServiceSid) ||" ++ [nl])
  ++ (txt "          (canonical?.campaignSid && canonical?.messagingServiceSid && scoreCanonical > scoreCurrent) ||" ++ [nl])
  ++ (txt "          (canonical?.campaignSid &&" ++ [nl])
  ++ (txt "            canonical?.messagingServiceSid &&" ++ [nl])
  ++ (txt "            canonical.campaignSid !== campaignSid &&" ++ [nl])
  ++ (txt "            !currentApproved);" ++ [nl])
  ++ [nl]
  ++ (txt "        if (shouldSwitch && canonical?.messagingServiceSid && canonical?.campaignSid) {" ++ [nl])
  ++ (txt "          messagingServiceSid = canonical.messagingServiceSid;" ++ [nl])
  ++ (txt "          campaignSid = canonical.campaignSid;" ++ [nl])
  ++ (txt "          if (canonical.brandSid && String(canonical.brandSid).startsWith(" ++ [dq] ++ txt "BN" ++ [dq] ++ txt ")) {" ++ [nl])
  ++ (txt "            brandSid = String(canonical.brandSid);" ++ [nl])
  ++ (txt "          }" ++ [nl])
  ++ [nl]
  ++ (txt "          // Persist canonical SIDs so future syncs are accurate" ++ [nl])
  ++ (txt "          await A2PProfile.updateOne(" ++ [nl])
  ++ (txt "            { _id: doc._id }," ++ [nl])
  ++ (txt "            {" ++ [nl])
  ++ (txt "              $set: {" ++ [nl])
  ++ (txt "                messagingServiceSid," ++ [nl])
  ++ (txt "                campaignSid," ++ [nl])
  ++ (txt "                usa2pSid: campaignSid," ++ [nl])
  ++ (txt "                ...(brandSid ? { brandSid } : {})," ++ [nl])
  ++ (txt "                lastSyncedAt: new Date()," ++ [nl])
  ++ (txt "              }," ++ [nl])
  ++ (txt "              $unset: { lastError: 1 }," ++ [nl])
  ++ (txt "            }" ++ [nl])
  ++ (txt "          );" ++ [nl])
  ++ [nl]
  ++ (txt "          if (canonical.campaignStatus) {" ++ [nl])
  ++ (txt "            campStatus = canonical.campaignStatus;" ++ [nl])
  ++ (txt "          }" ++ [nl])
  ++ (txt "        }" ++ [nl])
  ++ (txt "      } catch {" ++ [nl])
  ++ (txt "        // non-fatal; we'll fall back to existing behavior" ++ [nl])
  ++ (txt "      }" ++ [nl]).

(** Lines 4-93: what the script does to the text it has read from [sync.ts]. *)
Definition edit (s : list ascii) : outcome :=
  match Py.find s start_marker 0 with
  | None => Aborted "ERROR: start marker not found. Aborting."
  | Some start =>
      match Py.find s end_marker start with
      | None => Aborted "ERROR: end marker not found after start. Aborting."
      | Some e =>
          let end_ := (e + length end_marker)%nat in
          let patched := take start s ++ replacement ++ drop end_ s in
          if bool_decide (patched = s)
          then Aborted "ERROR: no changes made. Aborting."
          else Wrote patched
      end
  end.

(** The script, from the file it reads to the text it writes. *)
Definition run (file : list ascii) : outcome :=
  edit (Py.read_text file).

End TwilioTruthPatch.

(** *** patch_ai_dial_session_move_from_number_guard.py *)
Module MoveGuardPatch.
Local Open Scope list_scope.

(** Line 8. *)
Definition MARK : list ascii :=
  (txt "  // If switching accounts, clear any saved dial number that isn't owned by this account." ++ [nl]).

(** Line 9. *)
Definition END : list ascii :=
  (txt "  }, [numbers, selectedFromNumber]);" ++ [nl]).

(** Line 30: the two texts the extracted block must hold. *)
Definition useEffect_head : list ascii :=
  txt "useEffect(() =>".

Definition setter : list ascii :=
  txt "setSelectedFromNumber".

(** Line 36. *)
Definition anchor : list ascii :=
  (txt "const [selectedFromNumber, setSelectedFromNumber] = useState<string>(" ++ [dq] ++ [dq] ++ txt ");").

(** Line 40. *)
Definition anchor2 : list ascii :=
  txt "const [selectedFromNumber, setSelectedFromNumber]".

(** Lines 16-58 of [main()]: what the script does to the text it has read. *)
Definition edit (s : list ascii) : outcome :=
  match Py.find s MARK 0 with
  | None => Aborted "ERROR: guard block start marker not found"
  | Some start =>
      match Py.find s END start with
      | None => Aborted "ERROR: guard block end marker not found"
      | Some e =>
          let end_ := (e + length END)%nat in
          let block := Py.slice s start end_ in
          if negb (Py.contains block useEffect_head)
             || negb (Py.contains block setter)
          then Aborted
                 "ERROR: safety check failed; extracted block doesn't look right"
          else
            let s_removed := take start s ++ drop end_ s in
            let a := match Py.find s_removed anchor 0 with
                     | Some a => Some a
                     | None => Py.find s_removed anchor2 0
                     end in
            match a with
            | None =>
                Aborted
                  "ERROR: could not find selectedFromNumber state hook anchor"
            | Some a =>
                match Py.find s_removed [nl] a with
                | None =>
                    Aborted
                      "ERROR: could not find end-of-line after selectedFromNumber hook"
                | Some line_end =>
                    let insert_at := (line_end + 1)%nat in
                    Wrote (take insert_at s_removed ++ [nl] ++ block
                           ++ drop insert_at s_removed)
                end
            end
      end
  end.

(** Lines 11-58: [main()], on the file [ai-dial-session.tsx], or on
    [None] when the file does not exist. *)
Definition main (file : option (list ascii)) : outcome :=
  match file with
  | None => Aborted "ERROR: missing pages/ai-dial-session.tsx"
  | Some stored => edit (Py.read_text stored)
  end.

(** A small page on which the guard sits above the declaration it reads,
    and the same page with the guard moved below it. *)
Definition sample : list ascii :=
  (txt "const [numbers, setNumbers] = useState([]);" ++ [nl])
  ++ MARK
  ++ (txt "  useEffect(() => {" ++ [nl])
  ++ (txt "    setSelectedFromNumber(0);" ++ [nl])
  ++ END
  ++ (txt "const [selectedFromNumber, setSelectedFromNumber] = useState(0);" ++ [nl])
  ++ (txt "return null;" ++ [nl]).

Definition sample_moved : list ascii :=
  (txt "const [numbers, setNumbers] = useState([]);" ++ [nl])
  ++ (txt "const [selectedFromNumber, setSelectedFromNumber] = useState(0);" ++ [nl])
  ++ [nl]
  ++ MARK
  ++ (txt "  useEffect(() => {" ++ [nl])
  ++ (txt "    setSelectedFromNumber(0);" ++ [nl])
  ++ END
  ++ (txt "return null;" ++ [nl]).

End MoveGuardPatch.

(** *** patch_ai_dial_session_remove_arch_notes_and_fix_from_number_display.py *)
Module ArchNotesPatch.
Local Open Scope list_scope.

(** Line 8. *)
Definition ARCH_START : list ascii :=
  (txt "<div className=" ++ [dq] ++ txt "text-xs text-gray-400" ++ [dq] ++ txt ">").

(** Line 9. *)
Definition ARCH_MARK : list ascii :=
  txt "Architecture notes (for later wiring):".

Definition close_div : list ascii :=
  txt "</div>".

(** Line 50. *)
Definition needle : list ascii :=
  txt "const [numbers, setNumbers]".

(** Lines 63-76. *)
Definition guard_block : list ascii :=
  [nl]
  ++ (txt "  // If switching accounts, clear any saved dial number that isn't owned by this account." ++ [nl])
  ++ (txt "  useEffect(() => {" ++ [nl])
  ++ (txt "    if (!selectedFromNumber) return;" ++ [nl])
  ++ (txt "    if (!Array.isArray(numbers) || numbers.length === 0) return;" ++ [nl])
  ++ (txt "    const ok = numbers.some((n) => n.phoneNumber === selectedFromNumber);" ++ [nl])
  ++ (txt "    if (ok) return;" ++ [nl])
  ++ (txt "    setSelectedFromNumber(" ++ [dq] ++ [dq] ++ txt ");" ++ [nl])
  ++ (txt "    try {" ++ [nl])
  ++ (txt "      localStorage.removeItem(" ++ [dq] ++ txt "selectedDialNumber" ++ [dq] ++ txt ");" ++ [nl])
  ++ (txt "    } catch {}" ++ [nl])
  ++ (txt "  }, [numbers, selectedFromNumber]);" ++ [nl]).

(** Line 79. *)
Definition guard_comment : list ascii :=
  txt "clear any saved dial number that isn't owned by this account".

(** Lines 16-87 of [main()]: what the script does to the text it has read. *)
Definition edit (s : list ascii) : outcome :=
  match Py.find s ARCH_START 0 with
  | None =>
      Aborted "ERROR: could not find Architecture notes container div start"
  | Some start_idx =>
      match Py.find s ARCH_MARK start_idx with
      | None =>
          Aborted
            "ERROR: could not find 'Architecture notes (for later wiring):' marker"
      | Some mark_idx =>
          match Py.find s close_div mark_idx with
          | None =>
              Aborted
                "ERROR: could not find closing </div> for Architecture notes container"
          | Some e =>
              let end_div_idx := (e + length close_div)%nat in
              let removed_block := Py.slice s start_idx end_div_idx in
              if negb (Py.contains removed_block ARCH_MARK)
              then Aborted
                     "ERROR: safety check failed; removal block did not contain marker"
              else
                let s2 := take start_idx s ++ drop end_div_idx s in
                match Py.find s2 needle 0 with
                | None =>
                    Aborted
                      "ERROR: could not find numbers state hook (const [numbers, setNumbers])"
                | Some pos =>
                    match Py.find s2 [nl] pos with
                    | None =>
                        Aborted
                          "ERROR: could not locate end of numbers state hook line"
                    | Some line_end =>
                        let insert_at := (line_end + 1)%nat in
                        if Py.contains s2 guard_comment
                        then Aborted
                               "ERROR: guard block already present; refusing to insert twice"
                        else Wrote (take insert_at s2 ++ guard_block
                                    ++ drop insert_at s2)
                    end
                end
          end
      end
  end.

(** Lines 11-87: [main()], on the file [ai-dial-session.tsx], or on
    [None] when the file does not exist. *)
Definition main (file : option (list ascii)) : outcome :=
  match file with
  | None => Aborted "ERROR: missing pages/ai-dial-session.tsx"
  | Some stored => edit (Py.read_text stored)
  end.

(** A small page with a notes container, and the same page patched. *)
Definition sample : list ascii :=
  (txt "const [numbers, setNumbers] = useState([]);" ++ [nl])
  ++ (txt "return (" ++ [nl])
  ++ ARCH_START ++ ARCH_MARK ++ txt " none" ++ close_div ++ [nl]
  ++ (txt ");" ++ [nl]).

Definition sample_patched : list ascii :=
  (txt "const [numbers, setNumbers] = useState([]);" ++ [nl])
  ++ guard_block
  ++ (txt "return (" ++ [nl])
  ++ [nl]
  ++ (txt ");" ++ [nl]).

End ArchNotesPatch.

(** *** patch_insert_a2p_charge_inside_approvalNotified_gate.py *)
Module GateChargePatch.
Local Open Scope list_scope.

(** Line 6. *)
Definition needle : list ascii :=
  (txt "        if (!doc.approvalNotifiedAt) {" ++ [nl]).

(** Lines 10-17, after the needle: the charge block. *)
Definition charge_block : list ascii :=
  (txt "          // ✅ Bill one-time A2P approval fee ONLY once on first approval notification (idempotent)" ++ [nl])
  ++ (txt "          try {" ++ [nl])
  ++ (txt "            await chargeA2PApprovalIfNeeded({ user });" ++ [nl])
  ++ (txt "          } catch (e: any) {" ++ [nl])
  ++ (txt "            console.warn(" ++ [dq] ++ txt "[A2P] approval fee charge failed (non-fatal):" ++ [dq] ++ txt ", e?.message || e);" ++ [nl])
  ++ (txt "          }" ++ [nl])
  ++ [nl].

Definition insertion : list ascii := needle ++ charge_block.

(** Lines 4-20: what the script does to the text it has read from [sync.ts]. *)
Definition edit (s : list ascii) : outcome :=
  if negb (Py.count s needle =? 2)%nat
  then Aborted ("Expected 2 occurrences of approvalNotifiedAt gate, found "
                +:+ pretty (Py.count s needle) +:+ ". Aborting.")
  else Wrote (Py.replace 2 s needle insertion).

(** The script, from the file it reads to the text it writes. *)
Definition run (file : list ascii) : outcome :=
  edit (Py.read_text file).

End GateChargePatch.

(** *** patch_a2p_sync_scan_campaign_status.py *)
Module ScanStatusPatch.
Local Open Scope list_scope.

(** Line 6. *)
Definition old : list ascii :=
  txt "const campaignStatus = (c as any)?.status || (c as any)?.state;".

(** Line 7. *)
Definition new : list ascii :=
  txt "const campaignStatus = (c as any)?.campaignStatus || (c as any)?.campaign_status || (c as any)?.status || (c as any)?.state;".

(** Lines 4-14: what the script does to the text it has read from [sync.ts]. *)
Definition edit (s : list ascii) : outcome :=
  if negb (Py.contains s old)
  then Aborted "ERROR: expected scan campaignStatus line not found. Aborting."
  else Wrote (Py.replace 1 s old new).

(** The script, from the file it reads to the text it writes. *)
Definition run (file : list ascii) : outcome :=
  edit (Py.read_text file).

End ScanStatusPatch.

(** *** patch_remove_a2p_charge_blocks_a2p_sync.py *)
Module RemoveBlocksPatch.
Local Open Scope list_scope.

(** Lines 6-13. *)
Definition block : list ascii :=
  (txt "        // ✅ Bill one-time A2P approval fee (idempotent)" ++ [nl])
  ++ (txt "        try {" ++ [nl])
  ++ (txt "          await chargeA2PApprovalIfNeeded({ user });" ++ [nl])
  ++ (txt "        } catch (e: any) {" ++ [nl])
  ++ (txt "          console.warn(" ++ [dq] ++ txt "[A2P] approval fee charge failed (non-fatal):" ++ [dq] ++ txt ", e?.message || e);" ++ [nl])
  ++ (txt "        }" ++ [nl])
  ++ [nl].

(** Lines 4-20: what the script does to the text it has read from [sync.ts]. *)
Definition edit (s : list ascii) : outcome :=
  let count := Py.count s block in
  if negb (count =? 2)%nat
  then Aborted ("Expected to find the inserted block exactly 2 times, found "
                +:+ pretty count +:+ ". Aborting.")
  else Wrote (Py.replace 2 s block []).

(** The script, from the file it reads to the text it writes. *)
Definition run (file : list ascii) : outcome :=
  edit (Py.read_text file).

End RemoveBlocksPatch.

(** *** The two scripts of [ai-dial-session.tsx], one after the other

    A small page on which the selected number is declared below the list of
    numbers, as patched by the first script and then by the second. *)
(** Lines 66-74 of the first script: the effect between the comment line and
    the closing line of the guard block. *)
Definition guard_body : list ascii :=
  ((txt "  useEffect(() => {" ++ [nl])
   ++ (txt "    if (!selectedFromNumber) return;" ++ [nl])
   ++ (txt "    if (!Array.isArray(numbers) || numbers.length === 0) return;" ++ [nl])
   ++ (txt "    const ok = numbers.some((n) => n.phoneNumber === selectedFromNumber);" ++ [nl])
   ++ (txt "    if (ok) return;" ++ [nl])
   ++ (txt "    setSelectedFromNumber(" ++ [dq] ++ [dq] ++ txt ");" ++ [nl])
   ++ (txt "    try {" ++ [nl])
   ++ (txt "      localStorage.removeItem(" ++ [dq] ++ txt "selectedDialNumber" ++ [dq] ++ txt ");" ++ [nl])
   ++ (txt "    } catch {}" ++ [nl]))%list.

Definition dial_page : list ascii :=
  ((txt "const [numbers, setNumbers] = useState([]);" ++ [nl])
   ++ (MoveGuardPatch.anchor ++ [nl])
   ++ (txt "return (" ++ [nl])
   ++ ArchNotesPatch.ARCH_START ++ ArchNotesPatch.ARCH_MARK ++ txt " none"
   ++ ArchNotesPatch.close_div ++ [nl]
   ++ (txt ");" ++ [nl]))%list.

Definition dial_page_patched : list ascii :=
  ((txt "const [numbers, setNumbers] = useState([]);" ++ [nl])
   ++ ArchNotesPatch.guard_block
   ++ (MoveGuardPatch.anchor ++ [nl])
   ++ (txt "return (" ++ [nl])
   ++ [nl]
   ++ (txt ");" ++ [nl]))%list.

Definition dial_page_moved : list ascii :=
  ((txt "const [numbers, setNumbers] = useState([]);" ++ [nl])
   ++ [nl]
   ++ (MoveGuardPatch.anchor ++ [nl])
   ++ ArchNotesPatch.guard_block
   ++ (txt "return (" ++ [nl])
   ++ [nl]
   ++ (txt ");" ++ [nl]))%list.

(** *** patch_guard_a2p_charge_status_callback.py *)
Module GuardChargePatch.
Local Open Scope list_scope.

(** Lines 6-15. *)
Definition old : list ascii :=
  (txt "      // ✅ Bill one-time A2P approval fee when we first become truly messagingReady" ++ [nl])
  ++ (txt "      try {" ++ [nl])
  ++ (txt "        if (messagingReady) {" ++ [nl])
  ++ (txt "          await chargeA2PApprovalIfNeeded({ user });" ++ [nl])
  ++ (txt "        }" ++ [nl])
  ++ (txt "      } catch (e: any) {" ++ [nl])
  ++ (txt "        console.warn(" ++ [dq] ++ txt "[A2P] approval fee charge failed (non-fatal):" ++ [dq] ++ txt ", e?.message || e);" ++ [nl])
  ++ (txt "      }" ++ [nl])
  ++ [nl].

(** Lines 20-32. *)
Definition new : list ascii :=
  (txt "      // ✅ Bill one-time A2P approval fee ONLY on first transition to messagingReady (idempotent)" ++ [nl])
  ++ (txt "      const wasReady =" ++ [nl])
  ++ (txt "        (user as any)?.registrationStatus === " ++ [dq] ++ txt "ready" ++ [dq] ++ txt " || (user as any)?.messagingReady === true;" ++ [nl])
  ++ [nl]
  ++ (txt "      try {" ++ [nl])
  ++ (txt "        if (messagingReady && !wasReady) {" ++ [nl])
  ++ (txt "          await chargeA2PApprovalIfNeeded({ user });" ++ [nl])
  ++ (txt "        }" ++ [nl])
  ++ (txt "      } catch (e: any) {" ++ [nl])
  ++ (txt "        console.warn(" ++ [dq] ++ txt "[A2P] approval fee charge failed (non-fatal):" ++ [dq] ++ txt ", e?.message || e);" ++ [nl])
  ++ (txt "      }" ++ [nl])
  ++ [nl].

(** Lines 4-35: what the script does to the text it has read from [status-callback.ts].
    [s.replace(old, new)] replaces every occurrence, of which a text has no
    more than it has characters. *)
Definition edit (s : list ascii) : outcome :=
  if negb (Py.contains s old)
  then Aborted "Expected charge block not found; aborting (no changes made)."
  else Wrote (Py.replace (length s) s old new).

(** The script, from the file it reads to the text it writes. *)
Definition run (file : list ascii) : outcome :=
  edit (Py.read_text file).

End GuardChargePatch.

(** A small [sync.ts] with the two gates, and what the gate script makes of
    it. *)
Definition gate_sample : list ascii :=
  ((txt "      if (isCampaignApproved) {" ++ [nl])
   ++ GateChargePatch.needle
   ++ (txt "          notify();" ++ [nl])
   ++ (txt "        }" ++ [nl])
   ++ (txt "      }" ++ [nl])
   ++ GateChargePatch.needle
   ++ (txt "          notify();" ++ [nl])
   ++ (txt "        }" ++ [nl]))%list.

Definition gate_sample_patched : list ascii :=
  ((txt "      if (isCampaignApproved) {" ++ [nl])
   ++ GateChargePatch.needle ++ GateChargePatch.charge_block
   ++ (txt "          notify();" ++ [nl])
   ++ (txt "        }" ++ [nl])
   ++ (txt "      }" ++ [nl])
   ++ GateChargePatch.needle ++ GateChargePatch.charge_block
   ++ (txt "          notify();" ++ [nl])
   ++ (txt "        }" ++ [nl]))%list.

(** *** patch_a2p_charge_hook_syncA2P.py *)
Module HookSyncA2PPatch.
Local Open Scope list_scope.

(** Line 8. *)
Definition name : list ascii :=
  txt "chargeA2PApprovalIfNeeded".

(** Line 19. *)
Definition anchor : list ascii :=
  (txt "// --- Bill one-time A2P approval fee on first " ++ [dq] ++ txt "ready" ++ [dq] ++ txt " transition ---").

(** Lines 26-37. *)
Definition insertion : list ascii :=
  (txt "// --- Bill one-time A2P approval fee on first " ++ [dq] ++ txt "ready" ++ [dq] ++ txt " transition ---" ++ [nl])
  ++ (txt "  try {" ++ [nl])
  ++ (txt "    // Charge ONLY after we actually become messagingReady for the first time." ++ [nl])
  ++ (txt "    // This is idempotent via Stripe customer metadata (a2p_approval_charged)." ++ [nl])
  ++ (txt "    if (justApproved) {" ++ [nl])
  ++ (txt "      await chargeA2PApprovalIfNeeded({ user: userDoc });" ++ [nl])
  ++ (txt "    }" ++ [nl])
  ++ (txt "  } catch (e: any) {" ++ [nl])
  ++ (txt "    console.warn(" ++ [dq] ++ txt "[A2P] approval fee charge failed (non-fatal):" ++ [dq] ++ txt ", e?.message || e);" ++ [nl])
  ++ (txt "  }" ++ [nl]).

(** Lines 5-41: what the script does to the text it has read from
    [syncA2P.ts].  The step that adds the import (lines 10-16) is kept as
    [add_import]; it is taken only when the text does not yet name the
    billing function. *)
Definition edit (add_import : list ascii → list ascii) (s : list ascii) :
  outcome :=
  let s1 := if negb (Py.contains s name) then add_import s else s in
  if negb (Py.contains s1 anchor)
  then Aborted "ANCHOR NOT FOUND in lib/twilio/syncA2P.ts"
  else Wrote (Py.replace (length s1) s1 anchor insertion).

(** The script, from the file it reads to the text it writes. *)
Definition run (add_import : list ascii → list ascii) (file : list ascii)
  : outcome :=
  edit add_import (Py.read_text file).

End HookSyncA2PPatch.

(** *** patch_remove_duplicate_a2p_charge_in_syncA2P.py *)
Module RemoveDuplicatePatch.
Local Open Scope list_scope.

(** Lines 6-17. *)
Definition block : list ascii :=
  (txt "  // --- Bill one-time A2P approval fee on first " ++ [dq] ++ txt "ready" ++ [dq] ++ txt " transition ---" ++ [nl])
  ++ (txt "  try {" ++ [nl])
  ++ (txt "    // Charge ONLY after we actually become messagingReady for the first time." ++ [nl])
  ++ (txt "    // This is idempotent via Stripe customer metadata (a2p_approval_charged)." ++ [nl])
  ++ (txt "    if (justApproved) {" ++ [nl])
  ++ (txt "      await chargeA2PApprovalIfNeeded({ user: userDoc });" ++ [nl])
  ++ (txt "    }" ++ [nl])
  ++ (txt "  } catch (e: any) {" ++ [nl])
  ++ (txt "    console.warn(" ++ [dq] ++ txt "[A2P] approval fee charge failed (non-fatal):" ++ [dq] ++ txt ", e?.message || e);" ++ [nl])
  ++ (txt "  }" ++ [nl])
  ++ [nl].

(** Line 22: what a block is replaced by. *)
Definition header : list ascii :=
  (txt "  // --- Bill one-time A2P approval fee on first " ++ [dq] ++ txt "ready" ++ [dq] ++ txt " transition ---" ++ [nl]).

(** Lines 4-23: what the script does to the text it has read from [syncA2P.ts]. *)
Definition edit (s : list ascii) : outcome :=
  if negb (Py.contains s block)
  then Aborted "Expected duplicate block not found; aborting (no changes made)."
  else Wrote (Py.replace (length s) s block header).

(** The script, from the file it reads to the text it writes. *)
Definition run (file : list ascii) : outcome :=
  edit (Py.read_text file).

End RemoveDuplicatePatch.

(** A small [syncA2P.ts] that imports the billing function and holds the
    comment line once, and what is before and after the comment line. *)
Definition syncA2P_head : list ascii :=
  ((txt "import { chargeA2PApprovalIfNeeded } from " ++ [dq] ++ txt "@/lib/billing/trackUsage" ++ [dq] ++ txt ";" ++ [nl])
   ++ (txt "export async function syncA2P() {" ++ [nl]))%list.

Definition syncA2P_tail : list ascii :=
  ((txt "  return;" ++ [nl])
   ++ (txt "}" ++ [nl]))%list.

Definition syncA2P_sample : list ascii :=
  (syncA2P_head ++ txt "  " ++ HookSyncA2PPatch.anchor ++ [nl; nl]
   ++ syncA2P_tail)%list.

(** * Properties *)

(** ** JavaScript values *)

Lemma or_idem_l (a b : Js.value) : Js.or a (Js.or a b) = Js.or a b.
Proof. unfold Js.or. by destruct (Js.truthy a). Qed.

Lemma or_else_truthy (a : Js.value) (lit : string) :
  Js.truthy a = true → Js.str (Js.or_else a lit) = a.
Proof.
  destruct a as [| |s]; simpl; try done.
  destruct (String.eqb s ""); simpl; [done | by intros _].
Qed.

Lemma or_else_falsy (a : Js.value) (lit : string) :
  Js.truthy a = false → Js.or_else a lit = lit.
Proof.
  destruct a as [| |s]; simpl; try done.
  by destruct (String.eqb s "").
Qed.

Lemma or_else_str_or_else (a : Js.value) :
  Js.or_else (Js.str (Js.or_else a "")) "" = Js.or_else a "".
Proof.
  destruct a as [| |s]; simpl; try done.
  destruct (String.eqb s "") eqn:E; simpl; [done | by rewrite E].
Qed.

Lemma baseline_refresh (cs campStatus : Js.value) :
  baseline cs (Js.or cs campStatus) = baseline cs campStatus.
Proof. unfold baseline. by rewrite or_idem_l. Qed.

Lemma strict_ne_true (a b : Js.value) : Js.strict_ne a b = true ↔ a ≠ b.
Proof.
  unfold Js.strict_ne, Js.strict_eq. rewrite negb_true_iff, bool_decide_eq_false.
  done.
Qed.

Lemma currentApproved_isApproved `{Collaborators} (cs campStatus : Js.value) :
  currentApproved cs campStatus
  = isApproved CAMPAIGN_APPROVED (Js.str (baseline cs campStatus)).
Proof.
  unfold currentApproved, isApproved, baseline.
  by rewrite or_else_str_or_else.
Qed.

(** ** The canonical block, case by case *)

Section CanonicalBlock.
Context `{Collaborators}.

Lemma adopt_run (c : Canonical.t) (w : World) :
  adopt c w =
  let v := adopted c (vars w) in
  match updateOne_rejects (store w) with
  | Some e => (Throw e, set_vars v w)
  | None =>
      (Ok (),
       mkWorld (if Js.truthy (Canonical.campaignStatus c)
                then Vars.with_campStatus (Canonical.campaignStatus c) v else v)
               (canonical_update v (now w) (store w))
               (warnings w) (charges w) (now w))
  end.
Proof.
  destruct w as [v d ws cs t].
  unfold adopt, A2PProfile_updateOne, adopted, mbind, M_bind, modify, get, throw.
  cbn -[canonical_update].
  destruct (Js.truthy (Canonical.brandSid c)
            && Js.startsWith (Js.String_ (Canonical.brandSid c)) "BN");
    cbn -[canonical_update];
    destruct (updateOne_rejects d); cbn -[canonical_update]; try done;
    destruct (Js.truthy (Canonical.campaignStatus c)); done.
Qed.

Lemma body_fetch_throws (w : World) (e : string) :
  tryFetchCampaignTenant (Vars.messagingServiceSid (vars w))
                         (Vars.campaignSid (vars w)) = Throw e →
  twilio_truth_body w = (Throw e, w).
Proof.
  intros Hf. unfold twilio_truth_body, mbind, M_bind, get, await. cbn.
  by rewrite Hf.
Qed.

Lemma body_after_fetch (w : World) (fetched : option Fetched.t) :
  tryFetchCampaignTenant (Vars.messagingServiceSid (vars w))
                         (Vars.campaignSid (vars w)) = Ok fetched →
  twilio_truth_body w =
  let w1 := refresh fetched w in
  match scanTwilioForCanonicalCampaignTenant
          (Js.or (Vars.brandSid (vars w)) Js.null) with
  | Throw e => (Throw e, w1)
  | Ok canonical =>
      if shouldSwitch (vars w1) (fetched_status fetched) canonical
         && Js.truthy (Js.opt canonical Canonical.messagingServiceSid)
         && Js.truthy (Js.opt canonical Canonical.campaignSid)
      then match canonical with
           | Some c => adopt c w1
           | None => (Ok (), w1)
           end
      else (Ok (), w1)
  end.
Proof.
  intros Hf. unfold twilio_truth_body, mbind, M_bind, get, await. cbn.
  rewrite Hf. destruct fetched as [f|]; cbn;
    destruct (scanTwilioForCanonicalCampaignTenant _) as [canonical|e]; cbn;
    try done.
  all: destruct (shouldSwitch _ _ _ && _ && _); [by destruct canonical | done].
Qed.

Lemma block_fetch_throws (w : World) (e : string) :
  tryFetchCampaignTenant (Vars.messagingServiceSid (vars w))
                         (Vars.campaignSid (vars w)) = Throw e →
  twilio_truth_block w = (Ok (), w).
Proof.
  intros Hf. unfold twilio_truth_block, try_catch.
  by rewrite (body_fetch_throws w e Hf).
Qed.

Lemma block_scan_throws (w : World) (fetched : option Fetched.t) (e : string) :
  tryFetchCampaignTenant (Vars.messagingServiceSid (vars w))
                         (Vars.campaignSid (vars w)) = Ok fetched →
  scanTwilioForCanonicalCampaignTenant
    (Js.or (Vars.brandSid (vars w)) Js.null) = Throw e →
  twilio_truth_block w = (Ok (), refresh fetched w).
Proof.
  intros Hf Hs. unfold twilio_truth_block, try_catch.
  rewrite (body_after_fetch w fetched Hf). cbn zeta. by rewrite Hs.
Qed.

Lemma block_keeps (w : World) (fetched : option Fetched.t)
  (canonical : option Canonical.t) :
  tryFetchCampaignTenant (Vars.messagingServiceSid (vars w))
                         (Vars.campaignSid (vars w)) = Ok fetched →
  scanTwilioForCanonicalCampaignTenant
    (Js.or (Vars.brandSid (vars w)) Js.null) = Ok canonical →
  decides w fetched canonical = false →
  twilio_truth_block w = (Ok (), refresh fetched w).
Proof.
  intros Hf Hs Hd. unfold twilio_truth_block, try_catch.
  rewrite (body_after_fetch w fetched Hf). cbn zeta. rewrite Hs.
  unfold decides in Hd. by rewrite Hd.
Qed.

Lemma block_switches (w : World) (fetched : option Fetched.t) (c : Canonical.t) :
  tryFetchCampaignTenant (Vars.messagingServiceSid (vars w))
                         (Vars.campaignSid (vars w)) = Ok fetched →
  scanTwilioForCanonicalCampaignTenant
    (Js.or (Vars.brandSid (vars w)) Js.null) = Ok (Some c) →
  decides w fetched (Some c) = true →
  twilio_truth_block w = (Ok (), switched c (refresh fetched w)).
Proof.
  intros Hf Hs Hd. unfold twilio_truth_block, try_catch.
  rewrite (body_after_fetch w fetched Hf). cbn zeta. rewrite Hs.
  unfold decides in Hd. rewrite Hd, adopt_run. unfold switched. cbn zeta.
  by destruct (updateOne_rejects _).
Qed.

Lemma refresh_identifiers (fetched : option Fetched.t) (w : World) :
  Vars.campaignSid (vars (refresh fetched w)) = Vars.campaignSid (vars w)
  ∧ Vars.messagingServiceSid (vars (refresh fetched w))
    = Vars.messagingServiceSid (vars w)
  ∧ Vars.brandSid (vars (refresh fetched w)) = Vars.brandSid (vars w)
  ∧ store (refresh fetched w) = store w
  ∧ charges (refresh fetched w) = charges w
  ∧ warnings (refresh fetched w) = warnings w
  ∧ now (refresh fetched w) = now w.
Proof. by destruct fetched. Qed.

Lemma refresh_baseline (fetched : option Fetched.t) (w : World) :
  baseline (fetched_status fetched) (Vars.campStatus (vars (refresh fetched w)))
  = baseline (fetched_status fetched) (Vars.campStatus (vars w)).
Proof. destruct fetched; cbn; [apply baseline_refresh | done]. Qed.

Lemma switched_identifiers (c : Canonical.t) (w1 : World) :
  Vars.campaignSid (vars (switched c w1)) = Canonical.campaignSid c
  ∧ Vars.messagingServiceSid (vars (switched c w1)) = Canonical.messagingServiceSid c
  ∧ Vars.brandSid (vars (switched c w1)) = Vars.brandSid (adopted c (vars w1))
  ∧ charges (switched c w1) = charges w1.
Proof.
  unfold switched. cbn zeta.
  destruct (updateOne_rejects _); [done |].
  by destruct (Js.truthy (Canonical.campaignStatus c)).
Qed.

(** Line 55's condition on a candidate that carries both identifiers is the
    three-clause rule. *)
Lemma decides_rule (w : World) (fetched : option Fetched.t) (c : Canonical.t) :
  Js.truthy (Canonical.campaignSid c) = true →
  Js.truthy (Canonical.messagingServiceSid c) = true →
  decides w fetched (Some c) = true
  ↔ switch_rule (vars w)
      (baseline (fetched_status fetched) (Vars.campStatus (vars w))) c.
Proof.
  intros Hc Hm. unfold decides, shouldSwitch, switch_rule, scoreCurrent,
    scoreCanonical.
  destruct (refresh_identifiers fetched w) as (-> & -> & _).
  rewrite currentApproved_isApproved, refresh_baseline. cbn [Js.opt].
  rewrite Hc, Hm, !andb_true_r. cbn [andb].
  rewrite !orb_true_iff, !negb_true_iff, andb_true_iff, Z.ltb_lt,
    strict_ne_true, negb_true_iff.
  tauto.
Qed.

End CanonicalBlock.

(** ** The selector's decision *)

Section Selector.
Context `{Collaborators}.

Lemma decides_false_when_approved (w : World) (fetched : option Fetched.t)
  (canonical : option Canonical.t) :
  Js.truthy (Vars.campaignSid (vars w)) = true →
  Js.truthy (Vars.messagingServiceSid (vars w)) = true →
  isApproved CAMPAIGN_APPROVED
    (Js.str (baseline (fetched_status fetched) (Vars.campStatus (vars w)))) = true →
  scoreCanonical canonical
    ≤ scoreCampaignStatus (baseline (fetched_status fetched) (Vars.campStatus (vars w))) →
  decides w fetched canonical = false.
Proof.
  intros Hc Hm Happr Hscore. unfold decides, shouldSwitch, scoreCurrent.
  destruct (refresh_identifiers fetched w) as (-> & -> & _).
  rewrite currentApproved_isApproved, refresh_baseline, Hc, Hm, Happr.
  cbn [negb orb]. rewrite !andb_false_r, orb_false_r.
  apply Z.ltb_ge in Hscore. rewrite Hscore, !andb_false_r. done.
Qed.

(** Without a candidate carrying both identifiers nothing is switched, even
    when a stored identifier is missing. *)
Lemma no_candidate_no_switch (w : World) (fetched : option Fetched.t)
  (canonical : option Canonical.t) :
  Js.truthy (Js.opt canonical Canonical.campaignSid) = false
  ∨ Js.truthy (Js.opt canonical Canonical.messagingServiceSid) = false →
  decides w fetched canonical = false.
Proof.
  intros [Hc | Hm]; unfold decides.
  - rewrite Hc. apply andb_false_r.
  - rewrite Hm. by rewrite andb_false_r.
Qed.

(** C5. On a pass where the fetch and the scan answer and the scan yields a
    candidate carrying both identifiers, the block switches to the
    candidate's identifiers exactly when a stored identifier is missing, or
    the candidate's status scores strictly higher than the current status,
    or the candidate's campaign differs from the stored one and the current
    status is not approved; otherwise the stored identifiers and the
    persisted document are kept. *)
Theorem selector_switches_iff (w : World) (fetched : option Fetched.t)
  (c : Canonical.t) :
  tryFetchCampaignTenant (Vars.messagingServiceSid (vars w))
                         (Vars.campaignSid (vars w)) = Ok fetched →
  scanTwilioForCanonicalCampaignTenant
    (Js.or (Vars.brandSid (vars w)) Js.null) = Ok (Some c) →
  Js.truthy (Canonical.campaignSid c) = true →
  Js.truthy (Canonical.messagingServiceSid c) = true →
  let current := baseline (fetched_status fetched) (Vars.campStatus (vars w)) in
  let w' := (twilio_truth_block w).2 in
  (decides w fetched (Some c) = true ↔ switch_rule (vars w) current c)
  ∧ (switch_rule (vars w) current c →
     Vars.campaignSid (vars w') = Canonical.campaignSid c
     ∧ Vars.messagingServiceSid (vars w') = Canonical.messagingServiceSid c
     ∧ (updateOne_rejects (store w) = None →
        store w' = canonical_update (adopted c (vars (refresh fetched w)))
                                    (now w) (store w)))
  ∧ (¬ switch_rule (vars w) current c →
     Vars.campaignSid (vars w') = Vars.campaignSid (vars w)
     ∧ Vars.messagingServiceSid (vars w') = Vars.messagingServiceSid (vars w)
     ∧ Vars.brandSid (vars w') = Vars.brandSid (vars w)
     ∧ store w' = store w).
Proof.
  intros Hf Hs Hc Hm current w'.
  pose proof (decides_rule w fetched c Hc Hm) as Hrule. fold current in Hrule.
  split; [exact Hrule |]. split.
  - intros Hsw. apply Hrule in Hsw. subst w'.
    rewrite (block_switches w fetched c Hf Hs Hsw). cbn [snd].
    destruct (switched_identifiers c (refresh fetched w)) as (-> & -> & _).
    split; [done |]. split; [done |].
    destruct (refresh_identifiers fetched w) as (_ & _ & _ & Hst & _ & _ & Hn).
    intros Hw. unfold switched. cbn zeta. rewrite Hst, Hw. cbn. by rewrite Hn.
  - intros Hno. assert (decides w fetched (Some c) = false) as Hd.
    { destruct (decides w fetched (Some c)) eqn:E; [| done].
      exfalso. by apply Hno, Hrule. }
    subst w'. rewrite (block_keeps w fetched (Some c) Hf Hs Hd). cbn [snd].
    by destruct (refresh_identifiers fetched w) as (-> & -> & -> & -> & _).
Qed.

(** C6 (as amended). When both identifiers are stored, the current status is
    approved and the scan's candidate (if any) does not score higher, the
    block keeps the stored identifiers and writes nothing. *)
Theorem approved_campaign_is_kept (w : World) (fetched : option Fetched.t)
  (canonical : option Canonical.t) :
  tryFetchCampaignTenant (Vars.messagingServiceSid (vars w))
                         (Vars.campaignSid (vars w)) = Ok fetched →
  scanTwilioForCanonicalCampaignTenant
    (Js.or (Vars.brandSid (vars w)) Js.null) = Ok canonical →
  Js.truthy (Vars.campaignSid (vars w)) = true →
  Js.truthy (Vars.messagingServiceSid (vars w)) = true →
  let current := baseline (fetched_status fetched) (Vars.campStatus (vars w)) in
  isApproved CAMPAIGN_APPROVED (Js.str current) = true →
  scoreCampaignStatus (Js.or_else (Js.opt canonical Canonical.campaignStatus) "")
    ≤ scoreCampaignStatus current →
  let w' := (twilio_truth_block w).2 in
  Vars.campaignSid (vars w') = Vars.campaignSid (vars w)
  ∧ Vars.messagingServiceSid (vars w') = Vars.messagingServiceSid (vars w)
  ∧ Vars.brandSid (vars w') = Vars.brandSid (vars w)
  ∧ store w' = store w.
Proof.
  intros Hf Hs Hc Hm current Happr Hscore w'.
  pose proof (decides_false_when_approved w fetched canonical Hc Hm Happr Hscore)
    as Hd.
  subst w'. rewrite (block_keeps w fetched canonical Hf Hs Hd). cbn [snd].
  by destruct (refresh_identifiers fetched w) as (-> & -> & -> & -> & _).
Qed.

(** C7. If the fetch or the scan throws, the block itself returns normally:
    the stored identifiers, the persisted document and the billing trace are
    as they were.  The status local is untouched when the fetch threw, and
    holds the fetched status of the stored campaign when only the scan
    threw. *)
Theorem registry_errors_mean_no_switch (w : World) (e : string) :
  tryFetchCampaignTenant (Vars.messagingServiceSid (vars w))
                         (Vars.campaignSid (vars w)) = Throw e
  ∨ scanTwilioForCanonicalCampaignTenant
      (Js.or (Vars.brandSid (vars w)) Js.null) = Throw e →
  let r := twilio_truth_block w in
  r.1 = Ok ()
  ∧ Vars.campaignSid (vars r.2) = Vars.campaignSid (vars w)
  ∧ Vars.messagingServiceSid (vars r.2) = Vars.messagingServiceSid (vars w)
  ∧ Vars.brandSid (vars r.2) = Vars.brandSid (vars w)
  ∧ store r.2 = store w
  ∧ charges r.2 = charges w
  ∧ (Vars.campStatus (vars r.2) = Vars.campStatus (vars w)
     ∨ ∃ f, tryFetchCampaignTenant (Vars.messagingServiceSid (vars w))
                                   (Vars.campaignSid (vars w)) = Ok (Some f)
            ∧ Vars.campStatus (vars r.2)
              = Js.or (Js.or (Fetched.status f) (Fetched.state f))
                      (Vars.campStatus (vars w))).
Proof.
  intros Herr r. subst r.
  destruct (tryFetchCampaignTenant _ _) as [fetched|e'] eqn:Hf.
  - destruct Herr as [Hbad | Hs]; [done |].
    rewrite (block_scan_throws w fetched e Hf Hs). cbn [fst snd].
    destruct (refresh_identifiers fetched w) as (-> & -> & -> & -> & -> & _).
    repeat (split; [done |]).
    destruct fetched as [f|]; [right; by exists f | by left].
  - rewrite (block_fetch_throws w e' Hf). cbn [fst snd].
    repeat (split; [done |]). by left.
Qed.

(** C10. Whenever the block switches to a candidate, the campaign and
    messaging-service identifiers become the candidate's; the brand identifier
    becomes the candidate's only if that one is a string beginning with
    "BN", and otherwise stays what it was, in the locals and, where the
    local mirrors the persisted field, in the persisted document too. *)
Theorem brand_adopted_only_with_BN_prefix (w : World)
  (fetched : option Fetched.t) (c : Canonical.t) :
  tryFetchCampaignTenant (Vars.messagingServiceSid (vars w))
                         (Vars.campaignSid (vars w)) = Ok fetched →
  scanTwilioForCanonicalCampaignTenant
    (Js.or (Vars.brandSid (vars w)) Js.null) = Ok (Some c) →
  decides w fetched (Some c) = true →
  let w' := (twilio_truth_block w).2 in
  let takes := Js.truthy (Canonical.brandSid c)
               && Js.startsWith (Js.String_ (Canonical.brandSid c)) "BN" in
  Vars.campaignSid (vars w') = Canonical.campaignSid c
  ∧ Vars.messagingServiceSid (vars w') = Canonical.messagingServiceSid c
  ∧ (takes = true →
     Vars.brandSid (vars w') = Canonical.brandSid c
     ∧ ∃ s, Canonical.brandSid c = Js.str s ∧ String.prefix "BN" s = true)
  ∧ (takes = false →
     Vars.brandSid (vars w') = Vars.brandSid (vars w)
     ∧ ((Js.truthy (Vars.brandSid (vars w)) = true →
         store w !! "brandSid" = Some (DStr (Js.String_ (Vars.brandSid (vars w)))))
        → store w' !! "brandSid" = store w !! "brandSid")).
Proof.
  intros Hf Hs Hd w' takes. subst w'.
  rewrite (block_switches w fetched c Hf Hs Hd). cbn [snd].
  destruct (switched_identifiers c (refresh fetched w)) as (-> & -> & Hb & _).
  destruct (refresh_identifiers fetched w) as (_ & _ & Hbr & Hst & _).
  split; [done |]. split; [done |]. rewrite Hb. unfold adopted. cbn [Vars.brandSid].
  fold takes. split.
  - intros Ht. rewrite Ht. subst takes. apply andb_true_iff in Ht as [Ht Hp].
    destruct (Canonical.brandSid c) as [| |s] eqn:Ec; try done.
    split; [done |]. by exists s.
  - intros Ht. rewrite Ht, Hbr. split; [done |]. intros Hmirror.
    unfold switched. cbn zeta. rewrite Hst.
    destruct (updateOne_rejects (store w)); cbn [store set_vars]; [by rewrite Hst |].
    unfold adopted. fold takes. rewrite Ht. cbn [store].
    unfold canonical_update. cbn [Vars.brandSid Vars.messagingServiceSid
      Vars.campaignSid]. rewrite Hbr.
    rewrite lookup_delete_ne, lookup_insert_ne by done.
    assert (∀ k v d, k ≠ "brandSid" →
              set_value k v d !! "brandSid" = d !! "brandSid") as Hset.
    { intros k v d Hk. destruct v; cbn; [done | |]; by rewrite lookup_insert_ne. }
    destruct (Js.truthy (Vars.brandSid (vars w))) eqn:Etr.
    + specialize (Hmirror eq_refl).
      destruct (Vars.brandSid (vars w)) as [| |b]; try done.
      cbn [set_value]. rewrite lookup_insert_eq. by rewrite Hmirror.
    + by rewrite !Hset.
Qed.

End Selector.

(** Stored campaign A is pending and the scan offers an approved campaign B:
    the block switches to B. *)
Lemma selector_switches_iff_witness :
  Vars.campaignSid
    (vars (@twilio_truth_block (registry_offers (campaign_B "approved"))
             (fresh_world (stored_A "pending") ∅)).2)
  = Js.str "CMB"
  ∧ Vars.messagingServiceSid
      (vars (@twilio_truth_block (registry_offers (campaign_B "approved"))
               (fresh_world (stored_A "pending") ∅)).2)
    = Js.str "MGB".
Proof.
  destruct (@selector_switches_iff (registry_offers (campaign_B "approved"))
              (fresh_world (stored_A "pending") ∅) None (campaign_B "approved")
              eq_refl eq_refl eq_refl eq_refl) as (_ & Hswitch & _).
  destruct Hswitch as (Hc & Hm & _).
  - right. left. vm_compute. reflexivity.
  - split; [exact Hc | exact Hm].
Defined.

(** Stored campaign A is approved and the scan offers a pending campaign B:
    the block keeps A. *)
Lemma approved_campaign_is_kept_witness :
  Vars.campaignSid
    (vars (@twilio_truth_block (registry_offers (campaign_B "pending"))
             (fresh_world (stored_A "approved") ∅)).2)
  = Js.str "CMA"
  ∧ store (@twilio_truth_block (registry_offers (campaign_B "pending"))
             (fresh_world (stored_A "approved") ∅)).2 = ∅.
Proof.
  destruct (@approved_campaign_is_kept (registry_offers (campaign_B "pending"))
              (fresh_world (stored_A "approved") ∅) None
              (Some (campaign_B "pending"))
              eq_refl eq_refl eq_refl eq_refl) as (Hc & _ & _ & Hst).
  - vm_compute. reflexivity.
  - vm_compute. discriminate.
  - split; [exact Hc | exact Hst].
Defined.

(** The stored campaign A is approved but its messaging service is not
    stored, and the scan offers a pending campaign B, which scores lower: the
    block switches to B. *)
Lemma approved_campaign_without_service_is_switched :
  isApproved approved_class
    (Js.str (baseline Js.undefined
               (Vars.campStatus (stored_A_without_service "approved")))) = true
  ∧ score_by_class "pending" ≤ score_by_class "approved"
  ∧ Vars.campaignSid
      (vars (@twilio_truth_block (registry_offers (campaign_B "pending"))
               (fresh_world (stored_A_without_service "approved") ∅)).2)
    ≠ Vars.campaignSid (stored_A_without_service "approved")
  ∧ Vars.campaignSid
      (vars (@twilio_truth_block (registry_offers (campaign_B "pending"))
               (fresh_world (stored_A_without_service "approved") ∅)).2)
    = Js.str "CMB".
Proof.
  split; [vm_compute; reflexivity |].
  split; [vm_compute; discriminate |].
  split; [vm_compute; discriminate | vm_compute; reflexivity].
Qed.

(** The fetch answers and the scan times out: the block returns normally and
    the identifiers are the stored ones. *)
Lemma registry_errors_mean_no_switch_witness :
  (@twilio_truth_block registry_down (fresh_world (stored_A "failed") ∅)).1 = Ok ()
  ∧ Vars.campaignSid
      (vars (@twilio_truth_block registry_down
               (fresh_world (stored_A "failed") ∅)).2) = Js.str "CMA".
Proof.
  destruct (@registry_errors_mean_no_switch registry_down
              (fresh_world (stored_A "failed") ∅) "ETIMEDOUT")
    as (Hr & Hc & _).
  - right. reflexivity.
  - split; [exact Hr | exact Hc].
Defined.

(** Campaign B comes without a brand identifier: the block switches to B and
    keeps brand "BNA". *)
Lemma brand_adopted_only_with_BN_prefix_witness :
  Vars.campaignSid
    (vars (@twilio_truth_block (registry_offers (campaign_B "approved"))
             (fresh_world (stored_A "pending") ∅)).2) = Js.str "CMB"
  ∧ Vars.brandSid
      (vars (@twilio_truth_block (registry_offers (campaign_B "approved"))
               (fresh_world (stored_A "pending") ∅)).2) = Js.str "BNA".
Proof.
  destruct (@brand_adopted_only_with_BN_prefix
              (registry_offers (campaign_B "approved"))
              (fresh_world (stored_A "pending") ∅) None (campaign_B "approved")
              eq_refl eq_refl) as (Hc & _ & _ & Hkeep).
  - vm_compute. reflexivity.
  - destruct (Hkeep eq_refl) as (Hb & _). split; [exact Hc | exact Hb].
Defined.

(** ** The guarded billing call *)

Section Billing.
Context `{Collaborators}.

Lemma guarded_charge_run (user : User.t) (w : World) :
  try_catch (chargeA2PApprovalIfNeeded user) warn_charge_failed w
  = (Ok (), billed user w).
Proof.
  unfold try_catch, chargeA2PApprovalIfNeeded, billed, warn_charge_failed,
    mbind, M_bind, modify, throw. cbn.
  by destruct (charge_rejects user).
Qed.

Lemma status_callback_charge_run (user : User.t) (ready : bool) (w : World) :
  status_callback_charge user ready w
  = (Ok (), if ready && negb (wasReady user) then billed user w else w).
Proof.
  unfold status_callback_charge.
  destruct (ready && negb (wasReady user)) eqn:E.
  - apply guarded_charge_run.
  - done.
Qed.

Lemma gate_run (doc : gmap string docval) (user : User.t) (rest : M unit)
  (w : World) :
  approvalNotified_gate doc user rest w
  = if gate_open doc then rest (billed user w) else (Ok (), w).
Proof.
  unfold approvalNotified_gate. destruct (gate_open doc); [| done].
  unfold mbind, M_bind. by rewrite guarded_charge_run.
Qed.

Lemma billed_charges (user : User.t) (w : World) :
  charges (billed user w) = User.email user :: charges w.
Proof. unfold billed. by destruct (charge_rejects user). Qed.

Lemma billed_rest (user : User.t) (w : World) :
  vars (billed user w) = vars w ∧ store (billed user w) = store w
  ∧ now (billed user w) = now w.
Proof. unfold billed. by destruct (charge_rejects user). Qed.

Lemma updateOne_run (update : gmap string docval → gmap string docval)
  (w : World) :
  A2PProfile_updateOne update w
  = match updateOne_rejects (store w) with
    | Some e => (Throw e, w)
    | None => (Ok (), set_store (update (store w)) w)
    end.
Proof.
  unfold A2PProfile_updateOne, mbind, M_bind, get, throw, modify. cbn.
  by destruct (updateOne_rejects (store w)).
Qed.

Lemma mark_run (w : World) :
  mark_approval_notified w
  = match updateOne_rejects (store w) with
    | Some e => (Throw e, w)
    | None =>
        (Ok (),
         set_store (if gate_open (store w)
                    then <["approvalNotifiedAt" := DDate (now w)]> (store w)
                    else store w) w)
    end.
Proof.
  unfold mark_approval_notified, mbind, M_bind, get. cbn.
  by rewrite updateOne_run.
Qed.

Lemma decides_none (w : World) (fetched : option Fetched.t) :
  decides w fetched None = false.
Proof. unfold decides. cbn [Js.opt Js.truthy]. by rewrite !andb_false_r. Qed.

(** The canonical block always returns, and never makes a billing call. *)
Lemma block_returns (w : World) :
  (twilio_truth_block w).1 = Ok ()
  ∧ charges (twilio_truth_block w).2 = charges w
  ∧ now (twilio_truth_block w).2 = now w.
Proof.
  destruct (tryFetchCampaignTenant (Vars.messagingServiceSid (vars w))
              (Vars.campaignSid (vars w))) as [fetched|e] eqn:Hf.
  - destruct (refresh_identifiers fetched w) as (_ & _ & _ & _ & Hch & _ & Hn).
    destruct (scanTwilioForCanonicalCampaignTenant
                (Js.or (Vars.brandSid (vars w)) Js.null)) as [canonical|e] eqn:Hs.
    + destruct (decides w fetched canonical) eqn:Hd.
      * destruct canonical as [c|]; [| by rewrite decides_none in Hd].
        rewrite (block_switches w fetched c Hf Hs Hd). cbn [fst snd].
        destruct (switched_identifiers c (refresh fetched w)) as (_ & _ & _ & ->).
        split; [done |]. split; [done |].
        unfold switched. cbn zeta. by destruct (updateOne_rejects _).
      * by rewrite (block_keeps w fetched canonical Hf Hs Hd).
    + by rewrite (block_scan_throws w fetched e Hf Hs).
  - by rewrite (block_fetch_throws w e Hf).
Qed.


(** One sync pass, spelled out from the world the canonical block leaves. *)
Lemma sync_profile_run (brandApproved : gset string) (brandStatus : Js.value)
  (doc : gmap string docval) (user : User.t) (w : World) :
  sync_profile brandApproved brandStatus doc user w =
  let w1 := (twilio_truth_block w).2 in
  let ready := detect_ready brandApproved brandStatus w1 in
  match updateOne_rejects (store w1) with
  | Some e => (Throw e, w1)
  | None =>
      let w2 := set_store (reconciled_update ready (store w1)) w1 in
      if ready && gate_open doc
      then mark_approval_notified (billed user w2)
      else (Ok (), w2)
  end.
Proof.
  unfold sync_profile, mbind, M_bind, get.
  destruct (block_returns w) as (Hr & _).
  destruct (twilio_truth_block w) as [r w1]. cbn [fst snd] in *. subst r.
  cbn zeta. rewrite updateOne_run.
  destruct (updateOne_rejects (store w1)); [done |].
  destruct (detect_ready brandApproved brandStatus w1); [| done].
  by rewrite gate_run.
Qed.

(** The canonical block writes nothing on the console. *)
Lemma block_keeps_warnings (w : World) :
  warnings (twilio_truth_block w).2 = warnings w.
Proof.
  destruct (tryFetchCampaignTenant (Vars.messagingServiceSid (vars w))
              (Vars.campaignSid (vars w))) as [fetched|e] eqn:Hf.
  - destruct (refresh_identifiers fetched w) as (_ & _ & _ & _ & _ & Hwarn & _).
    destruct (scanTwilioForCanonicalCampaignTenant
                (Js.or (Vars.brandSid (vars w)) Js.null)) as [canonical|e] eqn:Hs.
    + destruct (decides w fetched canonical) eqn:Hd.
      * destruct canonical as [c|]; [| by rewrite decides_none in Hd].
        rewrite (block_switches w fetched c Hf Hs Hd). cbn [snd].
        unfold switched. cbn zeta. by destruct (updateOne_rejects _).
      * by rewrite (block_keeps w fetched canonical Hf Hs Hd).
    + by rewrite (block_scan_throws w fetched e Hf Hs).
  - by rewrite (block_fetch_throws w e Hf).
Qed.


Lemma reconciled_update_ready (ready : bool) (d : gmap string docval) :
  reconciled_update ready d !! "messagingReady" = Some (DBool ready).
Proof.
  unfold reconciled_update, approved_update. destruct ready.
  - by rewrite lookup_insert_ne, lookup_insert_eq.
  - by rewrite lookup_insert_eq.
Qed.

(** The write that closes the gate leaves [messagingReady] alone. *)
Lemma mark_keeps_ready (w : World) :
  store (mark_approval_notified w).2 !! "messagingReady"
  = store w !! "messagingReady".
Proof.
  rewrite mark_run. destruct (updateOne_rejects (store w)); [done |].
  cbn [snd store set_store]. destruct (gate_open (store w)); [| done].
  by rewrite lookup_insert_ne.
Qed.

(** The billing calls of one sync pass: one, made when the pass finds the
    profile ready, loaded the gate unset and has persisted the reconciled
    fields; none otherwise. *)
Lemma sync_profile_charges (brandApproved : gset string) (brandStatus : Js.value)
  (doc : gmap string docval) (user : User.t) (w : World) :
  charges (sync_profile brandApproved brandStatus doc user w).2
  = if detect_ready brandApproved brandStatus (twilio_truth_block w).2
       && gate_open doc
       && bool_decide (updateOne_rejects (store (twilio_truth_block w).2) = None)
    then User.email user :: charges w
    else charges w.
Proof.
  rewrite sync_profile_run. cbn zeta.
  destruct (block_returns w) as (_ & Hch & _).
  destruct (updateOne_rejects (store (twilio_truth_block w).2)) eqn:Hw.
  { rewrite bool_decide_eq_false_2 by done. by rewrite andb_false_r. }
  rewrite bool_decide_eq_true_2 by done. rewrite andb_true_r.
  destruct (detect_ready _ _ _ && gate_open doc); [| done].
  rewrite mark_run.
  destruct (updateOne_rejects (store (billed user _))).
  all: cbn [snd charges set_store]; rewrite billed_charges;
    cbn [charges set_store]; by rewrite Hch.
Qed.

(** The console output of one sync pass: the warning of the billing call,
    when the pass makes the call and the call rejects. *)
Lemma sync_profile_warnings (brandApproved : gset string) (brandStatus : Js.value)
  (doc : gmap string docval) (user : User.t) (w : World) :
  warnings (sync_profile brandApproved brandStatus doc user w).2
  = if detect_ready brandApproved brandStatus (twilio_truth_block w).2
       && gate_open doc
       && bool_decide (updateOne_rejects (store (twilio_truth_block w).2) = None)
    then match charge_rejects user with
         | Some e =>
             ("[A2P] approval fee charge failed (non-fatal): " ++ e) :: warnings w
         | None => warnings w
         end
    else warnings w.
Proof.
  rewrite sync_profile_run. cbn zeta.
  pose proof (block_keeps_warnings w) as Hwarn.
  destruct (updateOne_rejects (store (twilio_truth_block w).2)) eqn:Hw.
  { rewrite bool_decide_eq_false_2 by done. by rewrite andb_false_r. }
  rewrite bool_decide_eq_true_2 by done. rewrite andb_true_r.
  destruct (detect_ready _ _ _ && gate_open doc); [| done].
  rewrite mark_run.
  destruct (updateOne_rejects (store (billed user _)));
    cbn [snd warnings set_store]; unfold billed;
    destruct (charge_rejects user); cbn [warnings add_warning add_charge set_store];
    by rewrite Hwarn.
Qed.

End Billing.

(** ** When the billing call is made, and what its failure changes *)

Section FirstReady.
Context `{Collaborators}.
(** C1. The status callback makes the billing call exactly when the profile
    is ready now, both the brand and the campaign being approved, and the
    user was not ready before.  The gate of the sync handler makes none when
    the loaded document has [approvalNotifiedAt] set, whatever its body is.
    A sync pass makes the call only when it finds the profile ready, brand
    and campaign approved, and loaded a document whose [approvalNotifiedAt]
    is unset; with the previous-ready flag set (status callback) or
    [approvalNotifiedAt] set (sync), the pass makes no billing call. *)
Theorem billing_only_on_first_ready (user : User.t)
  (brandIsApproved campaignIsApproved : bool)
  (brandApproved : gset string) (brandStatus : Js.value)
  (doc : gmap string docval) (rest : M unit) (w : World) :
  let ready := messagingReady brandIsApproved campaignIsApproved in
  let cb := (status_callback_charge user ready w).2 in
  let sy := (sync_profile brandApproved brandStatus doc user w).2 in
  let found := Vars.campStatus (vars (twilio_truth_block w).2) in
  (charges cb
   = if brandIsApproved && campaignIsApproved && negb (wasReady user)
     then User.email user :: charges w else charges w)
  ∧ (charges cb ≠ charges w →
     brandIsApproved = true ∧ campaignIsApproved = true ∧ wasReady user = false)
  ∧ (wasReady user = true → charges cb = charges w)
  ∧ (gate_open doc = false → approvalNotified_gate doc user rest w = (Ok (), w))
  ∧ (charges sy ≠ charges w →
     charges sy = User.email user :: charges w
     ∧ isApproved brandApproved brandStatus = true
     ∧ isApproved CAMPAIGN_APPROVED found = true
     ∧ gate_open doc = true)
  ∧ (gate_open doc = false → charges sy = charges w).
Proof.
  intros ready cb sy found. subst ready cb sy found.
  rewrite status_callback_charge_run, sync_profile_charges. cbn [snd].
  unfold messagingReady, detect_ready.
  split; [| split; [| split; [| split; [| split]]]].
  - destruct (brandIsApproved && campaignIsApproved && negb (wasReady user));
      [apply billed_charges | done].
  - intros Hcall.
    destruct brandIsApproved, campaignIsApproved, (wasReady user);
      cbn in Hcall; done.
  - intros ->. by rewrite andb_false_r.
  - intros Hclosed. by rewrite gate_run, Hclosed.
  - intros Hcall. unfold messagingReady in Hcall.
    destruct (isApproved brandApproved brandStatus); [| done].
    destruct (isApproved CAMPAIGN_APPROVED _); [| done].
    destruct (gate_open doc); [| done].
    destruct (bool_decide _); done.
  - intros ->. by rewrite andb_false_r.
Qed.
End FirstReady.

(** A poll finds brand and campaign approved on a profile whose gate is
    unset and bills; a callback for a user who is already ready does not. *)
Lemma billing_only_on_first_ready_witness :
  charges (@sync_profile (registry_offers (campaign_B "approved"))
             approved_class (Js.str "approved") ∅ some_user
             (fresh_world (stored_A "pending") ∅)).2 = ["owner@example.com"]
  ∧ isApproved approved_class (Js.str "approved") = true
  ∧ gate_open (∅ : gmap string docval) = true
  ∧ charges (@status_callback_charge (registry_offers (campaign_B "approved"))
               ready_user true (fresh_world (stored_A "approved") ∅)).2 = [].
Proof.
  destruct (@billing_only_on_first_ready (registry_offers (campaign_B "approved"))
              ready_user true true approved_class (Js.str "approved") ∅ (mret ())
              (fresh_world (stored_A "approved") ∅))
    as (_ & _ & Hwas & _).
  destruct (@billing_only_on_first_ready (registry_offers (campaign_B "approved"))
              some_user true true approved_class (Js.str "approved") ∅ (mret ())
              (fresh_world (stored_A "pending") ∅))
    as (_ & _ & _ & _ & Hcall & _).
  destruct Hcall as (Hbilled & Hbrand & _ & Hgate); [vm_compute; discriminate |].
  split; [exact Hbilled |]. split; [exact Hbrand |]. split; [exact Hgate |].
  exact (Hwas eq_refl).
Defined.

(** C4. When the billing call rejects, both call sites still return
    normally.  The status callback's block makes the call when the profile
    is ready and the user was not, catches the rejection and writes the
    warning on the console, and changes nothing else; otherwise it does
    nothing.  The gate's own body always runs, from the profile state it has
    when the call succeeds, with the warning on the console.  The whole sync
    pass ends with the result, the locals, the persisted document and the
    billing trace it has when the call succeeds, and the console holds the
    warning exactly when the pass made the call. *)
Theorem billing_failure_is_isolated (C : Collaborators) (user : User.t)
  (ready : bool) (brandApproved : gset string) (brandStatus : Js.value)
  (doc : gmap string docval) (w : World) (e : string) :
  @charge_rejects C user = Some e →
  let warning := "[A2P] approval fee charge failed (non-fatal): " ++ e in
  let cb_bad := @status_callback_charge C user ready w in
  let cb_ok := @status_callback_charge (billing_ok C) user ready w in
  let sy_bad := @sync_profile C brandApproved brandStatus doc user w in
  let sy_ok := @sync_profile (billing_ok C) brandApproved brandStatus doc user w in
  let called :=
    @detect_ready C brandApproved brandStatus (@twilio_truth_block C w).2
    && gate_open doc
    && bool_decide
         (@updateOne_rejects C (store (@twilio_truth_block C w).2) = None) in
  cb_bad = (Ok (), if ready && negb (wasReady user)
                   then add_warning warning (add_charge (User.email user) w)
                   else w)
  ∧ cb_ok = (Ok (), if ready && negb (wasReady user)
                    then add_charge (User.email user) w else w)
  ∧ cb_bad.1 = Ok () ∧ cb_ok.1 = Ok ()
  ∧ same_but_warnings cb_bad.2 cb_ok.2
  ∧ (warnings cb_bad.2 = warnings w ∨ warnings cb_bad.2 = warning :: warnings w)
  ∧ (∀ rest : M unit,
       @approvalNotified_gate C doc user rest w
       = if gate_open doc
         then rest (add_warning warning (add_charge (User.email user) w))
         else (Ok (), w))
  ∧ sy_bad.1 = sy_ok.1
  ∧ same_but_warnings sy_bad.2 sy_ok.2
  ∧ warnings sy_bad.2 = (if called then warning :: warnings w else warnings w)
  ∧ warnings sy_ok.2 = warnings w.
Proof.
  intros He warning cb_bad cb_ok sy_bad sy_ok called.
  subst cb_bad cb_ok sy_bad sy_ok called.
  rewrite !status_callback_charge_run. cbn [fst snd].
  assert (@billed C user = λ w0, add_warning warning (add_charge (User.email user) w0))
    as Hbad by (unfold billed; by rewrite He).
  assert (@billed (billing_ok C) user = λ w0, add_charge (User.email user) w0)
    as Hok by done.
  split; [by rewrite Hbad |]. split; [by rewrite Hok |].
  split; [done |]. split; [done |].
  split; [| split; [| split; [| split; [| split; [| split]]]]].
  - destruct (ready && negb (wasReady user)); [| done].
    by rewrite Hbad, Hok.
  - destruct (ready && negb (wasReady user)); [| by left].
    rewrite Hbad. by right.
  - intros rest. by rewrite gate_run, Hbad.
  - rewrite !sync_profile_run. cbn zeta.
    change (@twilio_truth_block (billing_ok C) w) with (@twilio_truth_block C w).
    change (@detect_ready (billing_ok C)) with (@detect_ready C).
    change (@updateOne_rejects (billing_ok C)) with (@updateOne_rejects C).
    destruct (@updateOne_rejects C _) eqn:Hw1; [done |].
    destruct (@detect_ready C _ _ _ && gate_open doc); [| done].
    rewrite !mark_run, Hbad, Hok.
    change (@updateOne_rejects (billing_ok C)) with (@updateOne_rejects C).
    cbn [store add_warning add_charge set_store].
    by destruct (@updateOne_rejects C (reconciled_update _ _)).
  - rewrite !sync_profile_run. cbn zeta.
    change (@twilio_truth_block (billing_ok C) w) with (@twilio_truth_block C w).
    change (@detect_ready (billing_ok C)) with (@detect_ready C).
    change (@updateOne_rejects (billing_ok C)) with (@updateOne_rejects C).
    destruct (@updateOne_rejects C _) eqn:Hw1; [done |].
    destruct (@detect_ready C _ _ _ && gate_open doc); [| done].
    rewrite !mark_run, Hbad, Hok.
    change (@updateOne_rejects (billing_ok C)) with (@updateOne_rejects C).
    cbn [store add_warning add_charge set_store].
    unfold same_but_warnings.
    by destruct (@updateOne_rejects C (reconciled_update _ _)).
  - rewrite (@sync_profile_warnings C). by rewrite He.
  - rewrite (@sync_profile_warnings (billing_ok C)).
    by destruct (_ && _ && _).
Qed.

(** The gateway declines the card on the pass that finds the profile ready:
    the pass still succeeds, persists what it persists when the charge goes
    through, and leaves the warning on the console. *)
Lemma billing_failure_is_isolated_witness :
  (@sync_profile billing_down approved_class (Js.str "approved") ∅ some_user
     (fresh_world (stored_A "pending") ∅)).1
  = (@sync_profile (billing_ok billing_down) approved_class (Js.str "approved")
       ∅ some_user (fresh_world (stored_A "pending") ∅)).1
  ∧ store (@sync_profile billing_down approved_class (Js.str "approved") ∅
             some_user (fresh_world (stored_A "pending") ∅)).2
    = store (@sync_profile (billing_ok billing_down) approved_class
               (Js.str "approved") ∅ some_user
               (fresh_world (stored_A "pending") ∅)).2
  ∧ warnings (@sync_profile billing_down approved_class (Js.str "approved") ∅
                some_user (fresh_world (stored_A "pending") ∅)).2
    = ["[A2P] approval fee charge failed (non-fatal): card_declined"].
Proof.
  destruct (billing_failure_is_isolated billing_down some_user true
              approved_class (Js.str "approved") ∅
              (fresh_world (stored_A "pending") ∅) "card_declined" eq_refl)
    as (_ & _ & _ & _ & _ & _ & _ & Hres & Hsame & Hwarn & _).
  destruct Hsame as (_ & Hstore & _).
  split; [exact Hres |]. split; [exact Hstore |]. exact Hwarn.
Defined.

(** ** Sequential passes over one profile *)

Lemma approved_update_keeps_gate (d : gmap string docval) :
  approved_update d !! "approvalNotifiedAt" = d !! "approvalNotifiedAt".
Proof. unfold approved_update. by rewrite !lookup_insert_ne. Qed.













(** ** Two invocations racing for the gate *)

Section RaceProperties.
Context `{Collaborators}.
Variable mark : gmap string docval → gmap string docval.

(** Each step adds to the billing trace exactly what it adds to the
    invocation's own count. *)
Lemma step_accounts (i : Race.Invocation) (w : World) :
  (length (charges (Race.step mark i w).2) + Race.calls_made i
   = length (charges w) + Race.calls_made (Race.step mark i w).1)%nat.
Proof.
  destruct i as [pt d u]. unfold Race.step, Race.calls_made, Race.goto.
  cbn [Race.point Race.doc Race.user].
  destruct pt; cbn [fst snd Race.point Race.doc]; try lia.
  - rewrite updateOne_run. destruct (updateOne_rejects (store w));
      cbn [fst snd Race.point charges set_store]; lia.
  - rewrite gate_run. destruct (gate_open d) eqn:Hopen;
      cbn [fst snd Race.point Race.doc mret M_ret].
    + rewrite billed_charges. cbn [length]. lia.
    + lia.
  - rewrite updateOne_run. destruct (updateOne_rejects (store w));
      cbn [fst snd Race.point charges set_store]; lia.
Qed.

Lemma run_accounts (schedule : list bool) (c : Race.Config) :
  (length (charges (Race.shared (Race.run mark schedule c)))
   + Race.calls_made (Race.first c) + Race.calls_made (Race.second c)
   = length (charges (Race.shared c))
     + Race.calls_made (Race.first (Race.run mark schedule c))
     + Race.calls_made (Race.second (Race.run mark schedule c)))%nat.
Proof.
  revert c. induction schedule as [|b schedule IH]; intros c; [cbn; lia |].
  cbn [Race.run]. destruct b.
  - pose proof (step_accounts (Race.first c) (Race.shared c)) as Hstep.
    destruct (Race.step mark (Race.first c) (Race.shared c)) as [i w].
    cbn [fst snd] in Hstep.
    specialize (IH (Race.mkConfig i (Race.second c) w)).
    cbn [Race.first Race.second Race.shared] in IH. lia.
  - pose proof (step_accounts (Race.second c) (Race.shared c)) as Hstep.
    destruct (Race.step mark (Race.second c) (Race.shared c)) as [i w].
    cbn [fst snd] in Hstep.
    specialize (IH (Race.mkConfig (Race.first c) i w)).
    cbn [Race.first Race.second Race.shared] in IH. lia.
Qed.

(** C3 (as amended). Two invocations start on one profile and both run to
    the end, each having loaded a document whose [approvalNotifiedAt] is
    unset.  Whatever the schedule, and whatever the gate's body writes
    afterwards, the billing call is made twice: once by each invocation. *)
Theorem both_invocations_bill (schedule : list bool) (u : User.t) (w : World) :
  let c := Race.run mark schedule (Race.start u w) in
  Race.point (Race.first c) = Race.Finished →
  Race.point (Race.second c) = Race.Finished →
  gate_open (Race.doc (Race.first c)) = true →
  gate_open (Race.doc (Race.second c)) = true →
  Race.calls_made (Race.first c) = 1%nat
  ∧ Race.calls_made (Race.second c) = 1%nat
  ∧ length (charges (Race.shared c)) = (length (charges w) + 2)%nat.
Proof.
  intros c Hp1 Hp2 Hd1 Hd2.
  pose proof (run_accounts schedule (Race.start u w)) as Hacc. fold c in Hacc.
  assert (Race.calls_made (Race.first c) = 1%nat) as H1
    by (unfold Race.calls_made; by rewrite Hp1, Hd1).
  assert (Race.calls_made (Race.second c) = 1%nat) as H2
    by (unfold Race.calls_made; by rewrite Hp2, Hd2).
  split; [exact H1 |]. split; [exact H2 |].
  cbn [Race.start Race.first Race.second Race.shared Race.calls_made
       Race.point] in Hacc. lia.
Qed.

End RaceProperties.

(** In lockstep on a fresh profile, with a gate body that sets the field
    only where it finds it unset: both invocations observe the gate unset and
    the billing call is made twice. *)
Lemma both_invocations_bill_witness :
  length (charges (Race.shared
    (@Race.run (registry_offers (campaign_B "approved"))
       (Race.set_if_unset 1700000000) lockstep
       (Race.start some_user (fresh_world (stored_A "approved") ∅)))))
  = 2%nat.
Proof.
  destruct (@both_invocations_bill (registry_offers (campaign_B "approved"))
              (Race.set_if_unset 1700000000) lockstep some_user
              (fresh_world (stored_A "approved") ∅)) as (_ & _ & Hlen).
  - vm_compute. reflexivity.
  - vm_compute. reflexivity.
  - vm_compute. reflexivity.
  - vm_compute. reflexivity.
  - exact Hlen.
Defined.

(** The same run, in full: both invocations finished, both observed
    [approvalNotifiedAt] unset, the gate's body used a conditional write, and
    yet it is not the case that exactly one billing call was made. *)
Lemma conditional_write_does_not_stop_second_call :
  Race.point (Race.first
    (@Race.run (registry_offers (campaign_B "approved"))
       (Race.set_if_unset 1700000000) lockstep
       (Race.start some_user (fresh_world (stored_A "approved") ∅))))
  = Race.Finished
  ∧ Race.point (Race.second
      (@Race.run (registry_offers (campaign_B "approved"))
         (Race.set_if_unset 1700000000) lockstep
         (Race.start some_user (fresh_world (stored_A "approved") ∅))))
    = Race.Finished
  ∧ gate_open (Race.doc (Race.first
    (@Race.run (registry_offers (campaign_B "approved"))
       (Race.set_if_unset 1700000000) lockstep
       (Race.start some_user (fresh_world (stored_A "approved") ∅))))) = true
  ∧ gate_open (Race.doc (Race.second
      (@Race.run (registry_offers (campaign_B "approved"))
         (Race.set_if_unset 1700000000) lockstep
         (Race.start some_user (fresh_world (stored_A "approved") ∅))))) = true
  ∧ length (charges (Race.shared
      (@Race.run (registry_offers (campaign_B "approved"))
         (Race.set_if_unset 1700000000) lockstep
         (Race.start some_user (fresh_world (stored_A "approved") ∅)))))
    ≠ 1%nat.
Proof.
  split; [vm_compute; reflexivity |].
  split; [vm_compute; reflexivity |].
  split; [vm_compute; reflexivity |].
  split; [vm_compute; reflexivity |].
  vm_compute. discriminate.
Qed.

(** ** The ready flag *)

Lemma isApproved_absent (approved : gset string) (status : Js.value) :
  Js.truthy status = false → isApproved approved status = false.
Proof.
  intros Hf. unfold isApproved. by rewrite (or_else_falsy status "" Hf).
Qed.

Lemma isApproved_unknown (approved : gset string) (status : Js.value) :
  Js.toLowerCase (Js.or_else status "") ∉ approved →
  isApproved approved status = false.
Proof.
  intros Hout. unfold isApproved. cbn zeta.
  rewrite (bool_decide_eq_false_2 _ Hout). apply andb_false_r.
Qed.

Section ReadyFlag.
Context `{Collaborators}.

(** The canonical block leaves [messagingReady] as it finds it. *)
Lemma block_keeps_ready (w : World) :
  store (twilio_truth_block w).2 !! "messagingReady" = store w !! "messagingReady".
Proof.
  destruct (tryFetchCampaignTenant (Vars.messagingServiceSid (vars w))
              (Vars.campaignSid (vars w))) as [fetched|e] eqn:Hf.
  - destruct (refresh_identifiers fetched w) as (_ & _ & _ & Hst & _).
    destruct (scanTwilioForCanonicalCampaignTenant
                (Js.or (Vars.brandSid (vars w)) Js.null)) as [canonical|e] eqn:Hs.
    + destruct (decides w fetched canonical) eqn:Hd.
      * destruct canonical as [c|]; [| by rewrite decides_none in Hd].
        rewrite (block_switches w fetched c Hf Hs Hd). cbn [snd].
        unfold switched. cbn zeta.
        destruct (updateOne_rejects _); cbn [store set_vars]; [by rewrite Hst |].
        rewrite Hst. unfold canonical_update.
        rewrite lookup_delete_ne, lookup_insert_ne by done.
        assert (∀ k v d, k ≠ "messagingReady" →
                  set_value k v d !! "messagingReady" = d !! "messagingReady")
          as Hset.
        { intros k v d Hk. destruct v; cbn; [done | |]; by rewrite lookup_insert_ne. }
        destruct (Js.truthy _); by rewrite !Hset.
      * rewrite (block_keeps w fetched canonical Hf Hs Hd). cbn [snd].
        by rewrite Hst.
    + rewrite (block_scan_throws w fetched e Hf Hs). cbn [snd]. by rewrite Hst.
  - by rewrite (block_fetch_throws w e Hf).
Qed.

(** C8. In the status callback the flag is the conjunction of the two
    approvals, so it is false as soon as one status is absent or outside its
    approved class.  In a sync pass the canonical block leaves the persisted
    flag alone; the write of the reconciled fields sets it to the
    conjunction of the two approvals, computed from the brand status and the
    campaign status the block leaves, and the gate leaves it at that; when
    that write is rejected the flag stays as it was.  So a pass turns the
    flag on only when both statuses are approved. *)
Theorem ready_flag_by_handler (brandApproved campaignApproved : gset string)
  (brandStatus campaignStatus : Js.value)
  (doc : gmap string docval) (user : User.t) (w : World) :
  let ready := status_callback_ready brandApproved campaignApproved
                 brandStatus campaignStatus in
  let sy := (sync_profile brandApproved brandStatus doc user w).2 in
  let w1 := (twilio_truth_block w).2 in
  let found := Vars.campStatus (vars w1) in
  (ready = true ↔ isApproved brandApproved brandStatus = true
                  ∧ isApproved campaignApproved campaignStatus = true)
  ∧ (Js.truthy brandStatus = false ∨ Js.truthy campaignStatus = false →
     ready = false)
  ∧ (Js.toLowerCase (Js.or_else brandStatus "") ∉ brandApproved
     ∨ Js.toLowerCase (Js.or_else campaignStatus "") ∉ campaignApproved →
     ready = false)
  ∧ store w1 !! "messagingReady" = store w !! "messagingReady"
  ∧ (updateOne_rejects (store w1) = None →
     store sy !! "messagingReady"
     = Some (DBool (isApproved brandApproved brandStatus
                    && isApproved CAMPAIGN_APPROVED found)))
  ∧ (updateOne_rejects (store w1) ≠ None →
     store sy !! "messagingReady" = store w !! "messagingReady")
  ∧ (store sy !! "messagingReady" = Some (DBool true) →
     store w !! "messagingReady" ≠ Some (DBool true) →
     isApproved brandApproved brandStatus = true
     ∧ isApproved CAMPAIGN_APPROVED found = true).
Proof.
  intros ready sy w1 found. subst ready sy found.
  unfold status_callback_ready, messagingReady.
  assert (∀ rejected,
            updateOne_rejects (store w1) = rejected →
            store (sync_profile brandApproved brandStatus doc user w).2
              !! "messagingReady"
            = match rejected with
              | Some _ => store w !! "messagingReady"
              | None =>
                  Some (DBool (isApproved brandApproved brandStatus
                               && isApproved CAMPAIGN_APPROVED
                                    (Vars.campStatus (vars w1))))
              end) as Hflag.
  { intros rejected Hw. rewrite sync_profile_run. cbn zeta. fold w1. rewrite Hw.
    destruct rejected; [apply block_keeps_ready |].
    destruct (detect_ready brandApproved brandStatus w1 && gate_open doc).
    - rewrite mark_keeps_ready.
      destruct (billed_rest user
                  (set_store (reconciled_update
                     (detect_ready brandApproved brandStatus w1) (store w1)) w1))
        as (_ & -> & _).
      cbn [store set_store]. apply reconciled_update_ready.
    - cbn [snd store set_store]. apply reconciled_update_ready. }
  split; [apply andb_true_iff |].
  split; [| split; [| split; [apply block_keeps_ready |]]].
  - intros [Hb | Hc].
    + by rewrite (isApproved_absent _ _ Hb).
    + rewrite (isApproved_absent _ _ Hc). apply andb_false_r.
  - intros [Hb | Hc].
    + by rewrite (isApproved_unknown _ _ Hb).
    + rewrite (isApproved_unknown _ _ Hc). apply andb_false_r.
  - split; [| split].
    + intros Hw. by rewrite (Hflag None Hw).
    + intros Hw. destruct (updateOne_rejects (store w1)) as [e|] eqn:He; [| done].
      by rewrite (Hflag (Some e) eq_refl).
    + intros Hon Hoff.
      destruct (updateOne_rejects (store w1)) as [e|] eqn:He.
      * rewrite (Hflag (Some e) eq_refl) in Hon. done.
      * rewrite (Hflag None eq_refl) in Hon.
        injection Hon as Hon. by apply andb_true_iff in Hon.
Qed.

End ReadyFlag.

(** A poll finds campaign B approved on a profile whose brand is still
    pending: the pass persists the flag as false. *)
Lemma ready_flag_by_handler_witness :
  store (@sync_profile (registry_offers (campaign_B "approved"))
           approved_class (Js.str "pending") brand_pending_store some_user
           (fresh_world (stored_A "pending") brand_pending_store)).2
    !! "messagingReady" = Some (DBool false).
Proof.
  destruct (@ready_flag_by_handler (registry_offers (campaign_B "approved"))
              approved_class approved_class (Js.str "pending") (Js.str "approved")
              brand_pending_store some_user
              (fresh_world (stored_A "pending") brand_pending_store))
    as (_ & _ & _ & _ & Hset & _).
  rewrite Hset by reflexivity. vm_compute. reflexivity.
Defined.

(** ** Authorization of the polling endpoints *)

(** [sync-status.ts] lets a request through exactly when one of its three
    values equals the configured key. *)
Lemma sync_status_accepts_iff (CRON_KEY token : string) (req : Request.t) :
  CRON_KEY ≠ "" →
  sync_status_rejects CRON_KEY token req = false
  ↔ token = CRON_KEY ∨ headerKey req = CRON_KEY ∨ bearer req = CRON_KEY.
Proof.
  intros Hset. unfold sync_status_rejects.
  apply String.eqb_neq in Hset. rewrite Hset. cbn [negb andb].
  rewrite !andb_false_iff, !negb_false_iff, !String.eqb_eq. tauto.
Qed.

(** [check-a2p-status.ts] turns away a request none of whose channels
    carries the secret. *)
Lemma check_a2p_rejects_when_none_match (CRON_SECRET : string) (req : Request.t) :
  (∀ v, v ∈ presented req → v ≠ Js.str CRON_SECRET) →
  check_a2p_authorized CRON_SECRET req = false.
Proof.
  intros Hnone. unfold check_a2p_authorized, Js.strict_eq.
  apply bool_decide_eq_false. apply Hnone.
  unfold check_a2p_token, presented, Js.or.
  repeat (match goal with |- context [if ?b then _ else _] => destruct b end);
    set_solver.
Qed.

(** C9. A request with a stale query token and the secret as bearer token:
    the bearer channel matches, [sync-status.ts] lets the request through,
    but [check-a2p-status.ts] has already settled on the query token and
    turns it away.  The value it settles on is the same with and without the
    bearer token, so no test of that value can accept the one and refuse the
    other. *)
Theorem check_a2p_ignores_matching_bearer :
  bearer stale_query_good_bearer = "s3cret"
  ∧ sync_status_rejects "s3cret" "stale" stale_query_good_bearer = false
  ∧ check_a2p_token stale_query_good_bearer = Js.str "stale"
  ∧ check_a2p_authorized "s3cret" stale_query_good_bearer = false
  ∧ check_a2p_authorized "s3cret" bearer_only = true
  ∧ (∀ test : Js.value → bool,
       test (check_a2p_token stale_query_good_bearer)
       = test (check_a2p_token stale_query_only)).
Proof.
  split; [vm_compute; reflexivity |].
  split; [vm_compute; reflexivity |].
  split; [vm_compute; reflexivity |].
  split; [vm_compute; reflexivity |].
  split; [vm_compute; reflexivity |].
  intros test. f_equal.
Qed.

(** ** Python's string search *)

Section StringSearch.
Local Open Scope list_scope.

Lemma startswith_prefix (s sub : list ascii) :
  Py.startswith s sub = true ↔ ∃ rest, s = sub ++ rest.
Proof.
  revert s. induction sub as [|c sub IH]; intros s; cbn.
  - split; [intros _; by exists s | done].
  - destruct s as [|d s]; cbn.
    + split; [done | by intros [rest Hr]].
    + rewrite andb_true_iff, Ascii.eqb_eq, IH. split.
      * intros [-> [rest ->]]. by exists rest.
      * intros [rest Hr]. injection Hr as -> ->. split; [done | by exists rest].
Qed.

(** A successful search cuts the text at an occurrence, and no occurrence
    starts earlier. *)
Lemma find0_Some (s sub : list ascii) (i : nat) :
  Py.find0 s sub = Some i →
  s = take i s ++ sub ++ drop (i + length sub) s
  ∧ (i + length sub <= length s)%nat
  ∧ ∀ j, (j < i)%nat → Py.startswith (drop j s) sub = false.
Proof.
  revert i. induction s as [|d s IH]; intros i; cbn [Py.find0].
  - destruct (Py.startswith [] sub) eqn:E; [| done].
    intros [= <-]. apply startswith_prefix in E as [rest Hr].
    destruct sub; [| done]. cbn. split; [done |]. split; [lia |]. intros j Hj; lia.
  - destruct (Py.startswith (d :: s) sub) eqn:E.
    + intros [= <-]. apply startswith_prefix in E as [rest Hr].
      cbn [take app]. rewrite Hr at 1. rewrite Hr.
      rewrite Nat.add_0_l, drop_app_length, length_app.
      split; [done |]. split; [lia |]. intros j Hj; lia.
    + destruct (Py.find0 s sub) as [k|] eqn:Hk; [| done].
      cbn. intros [= <-]. destruct (IH k eq_refl) as (Hcut & Hlen & Hfirst).
      split; [cbn; f_equal; exact Hcut |]. split; [cbn; lia |].
      intros [|j] Hj; [exact E |]. cbn. apply Hfirst. lia.
Qed.

(** A failed search means the text has no occurrence at all. *)
Lemma find0_None (s sub : list ascii) :
  Py.find0 s sub = None → ∀ pre post, s ≠ pre ++ sub ++ post.
Proof.
  induction s as [|d s IH]; cbn [Py.find0].
  - destruct (Py.startswith [] sub) eqn:E; [done |]. intros _ pre post Hs.
    destruct pre, sub; try done.
  - destruct (Py.startswith (d :: s) sub) eqn:E; [done |].
    destruct (Py.find0 s sub) eqn:Hk; [done |]. intros _ pre post Hs.
    destruct pre as [|p pre].
    + cbn in Hs. assert (Py.startswith (d :: s) sub = true) as Ht
        by (apply startswith_prefix; by exists post).
      congruence.
    + injection Hs as -> Hs. by eapply IH.
Qed.

Lemma find0_occurrence (pre sub post : list ascii) :
  ∃ i, Py.find0 (pre ++ sub ++ post) sub = Some i ∧ (i <= length pre)%nat.
Proof.
  destruct (Py.find0 (pre ++ sub ++ post) sub) as [i|] eqn:Hf.
  - exists i. split; [done |].
    destruct (find0_Some _ _ _ Hf) as (_ & _ & Hfirst).
    destruct (decide (i <= length pre)%nat) as [|Hgt]; [done |].
    assert (Py.startswith (drop (length pre) (pre ++ sub ++ post)) sub = false)
      as Hno by (apply Hfirst; lia).
    rewrite drop_app_length in Hno.
    assert (Py.startswith (sub ++ post) sub = true)
      by (apply startswith_prefix; by exists post).
    congruence.
  - exfalso. by eapply find0_None.
Qed.

Lemma contains_true (s sub : list ascii) :
  Py.contains s sub = true ↔ ∃ pre post, s = pre ++ sub ++ post.
Proof.
  unfold Py.contains. rewrite bool_decide_eq_true. split.
  - intros [i Hi]. destruct (find0_Some _ _ _ Hi) as (Hcut & _).
    by exists (take i s), (drop (i + length sub) s).
  - intros (pre & post & ->). destruct (find0_occurrence pre sub post) as (i & -> & _).
    by exists i.
Qed.

(** [s.find(sub, start)]: the cut it yields. *)
Lemma find_Some (s sub : list ascii) (start i : nat) :
  Py.find s sub start = Some i →
  (start <= i)%nat
  ∧ (i + length sub <= length s)%nat
  ∧ s = take i s ++ sub ++ drop (i + length sub) s
  ∧ ∀ j, (start <= j < i)%nat → Py.startswith (drop j s) sub = false.
Proof.
  unfold Py.find. destruct (length s <? start)%nat eqn:Hlen; [done |].
  apply Nat.ltb_ge in Hlen.
  destruct (Py.find0 (drop start s) sub) as [k|] eqn:Hk; [| done].
  cbn. intros [= <-]. destruct (find0_Some _ _ _ Hk) as (Hcut & Hb & Hfirst).
  rewrite length_drop in Hb.
  split; [lia |]. split; [lia |]. split.
  - rewrite <- (take_take_drop s start k), <- app_assoc.
    rewrite <- (take_drop start s) at 1. f_equal.
    rewrite Hcut at 1. do 2 f_equal. rewrite drop_drop. f_equal. lia.
  - intros j Hj. specialize (Hfirst (j - start)%nat).
    rewrite drop_drop in Hfirst.
    replace (start + (j - start))%nat with j in Hfirst by lia.
    apply Hfirst. lia.
Qed.

End StringSearch.

(** ** More on the authorization of the polling endpoints *)

Lemma substring_all (t : string) : String.substring 0 (String.length t) t = t.
Proof. induction t as [|c t IH]; cbn; [done | by rewrite IH]. Qed.

(** X1. [sync-status.ts]: with no key configured nothing is turned away;
    with a key, a request passes exactly when [token], the [x-cron-key]
    header or the bearer token equals it.  Whatever passed before the bearer
    patch still passes, and what passes only since the patch carries the key
    as bearer token. *)
Theorem sync_status_accepts_any_match (CRON_KEY token : string) (req : Request.t) :
  (CRON_KEY = "" → sync_status_rejects CRON_KEY token req = false)
  ∧ (CRON_KEY ≠ "" →
     (sync_status_rejects CRON_KEY token req = false
      ↔ token = CRON_KEY ∨ headerKey req = CRON_KEY ∨ bearer req = CRON_KEY))
  ∧ (sync_status_rejects_before CRON_KEY token req = false →
     sync_status_rejects CRON_KEY token req = false)
  ∧ (sync_status_rejects_before CRON_KEY token req = true →
     sync_status_rejects CRON_KEY token req = false →
     bearer req = CRON_KEY).
Proof.
  unfold sync_status_rejects, sync_status_rejects_before.
  split; [by intros -> |]. split; [| split].
  - intros Hset. apply String.eqb_neq in Hset. rewrite Hset. cbn [negb andb].
    rewrite !andb_false_iff, !negb_false_iff, !String.eqb_eq. tauto.
  - intros ->. done.
  - intros ->. cbn [andb]. rewrite negb_false_iff. apply String.eqb_eq.
Qed.

(** X2. The bearer token is what follows ["Bearer "] in the [authorization]
    header; without the header, or with a value that does not begin with
    ["Bearer "], it is the empty string. *)
Theorem bearer_is_the_header_tail (req : Request.t) :
  (∀ t, Request.headers req !! "authorization" = Some ("Bearer " +:+ t) →
        bearer req = t)
  ∧ (Request.headers req !! "authorization" = None → bearer req = "")
  ∧ (∀ v, Request.headers req !! "authorization" = Some v →
          String.prefix "Bearer " v = false → bearer req = "").
Proof.
  unfold bearer, authHeader, header. split; [| split].
  - intros t ->. cbv [String.append]. cbn. rewrite Nat.sub_0_r.
    replace (String.prefix "" t) with true by (by destruct t).
    apply substring_all.
  - intros ->. done.
  - intros v -> Hv. unfold Js.startsWith.
    destruct v as [|c v]; [done |]. cbn [Js.or_else String.eqb]. by rewrite Hv.
Qed.

(** X3. [check-a2p-status.ts] turns away every request none of whose four
    channels carries the secret. *)
Theorem check_a2p_needs_a_match (CRON_SECRET : string) (req : Request.t) :
  (∀ v, v ∈ presented req → v ≠ Js.str CRON_SECRET) →
  check_a2p_authorized CRON_SECRET req = false.
Proof.
  intros Hnone. unfold check_a2p_authorized, Js.strict_eq.
  apply bool_decide_eq_false. apply Hnone.
  unfold check_a2p_token, presented, Js.or.
  repeat (match goal with |- context [if ?b then _ else _] => destruct b end);
    set_solver.
Qed.

Lemma check_a2p_needs_a_match_witness :
  check_a2p_authorized "s3cret" stale_query_only = false.
Proof.
  apply (check_a2p_needs_a_match "s3cret" stale_query_only).
  intros v Hv. unfold presented in Hv.
  repeat (apply elem_of_cons in Hv as [-> | Hv]; [vm_compute; discriminate |]).
  by apply elem_of_nil in Hv.
Defined.

(** X4. The one value [check-a2p-status.ts] tests is the first non-empty
    channel in the order query token, [x-cron-token], [x-cron-key], bearer
    token (the empty string if all are empty); so a request is let through
    exactly when that first non-empty channel is the secret. *)
Theorem check_a2p_tests_first_presented (CRON_SECRET : string) (req : Request.t) :
  check_a2p_token req
  = default (Js.str "") (head (filter (λ v, Js.truthy v = true) (presented req)))
  ∧ (check_a2p_authorized CRON_SECRET req = true
     ↔ default (Js.str "")
         (head (filter (λ v, Js.truthy v = true) (presented req)))
       = Js.str CRON_SECRET).
Proof.
  assert (check_a2p_token req
          = default (Js.str "")
              (head (filter (λ v, Js.truthy v = true) (presented req)))) as Htok.
  { unfold check_a2p_token, presented, Js.or.
    destruct (Js.truthy (Request.query_token req)) eqn:E1;
      destruct (Js.truthy (header req "x-cron-token")) eqn:E2;
      destruct (Js.truthy (header req "x-cron-key")) eqn:E3;
      destruct (Js.truthy (Js.str (bearer req))) eqn:E4;
      repeat (first [ rewrite filter_cons_True by done
                    | rewrite filter_cons_False by congruence ]);
      rewrite ?filter_nil; cbn [head default];
      rewrite ?E1, ?E2, ?E3, ?E4; try done.
    cbn in E4. apply negb_false_iff, String.eqb_eq in E4. by rewrite E4. }
  split; [exact Htok |].
  unfold check_a2p_authorized, Js.strict_eq. rewrite bool_decide_eq_true.
  by rewrite Htok.
Qed.

(** X5. Each patch of the token line only adds a fallback: a request that
    presented a non-empty token before the patch is judged on the same value
    after it, and the added channel is read only when all earlier ones are
    empty. *)
Theorem token_patches_only_add_fallbacks (req : Request.t) :
  (Js.truthy (check_a2p_token_original req) = true →
   check_a2p_token_before req = check_a2p_token_original req)
  ∧ (Js.truthy (check_a2p_token_original req) = false →
     check_a2p_token_before req = header req "x-cron-key")
  ∧ (Js.truthy (check_a2p_token_before req) = true →
     check_a2p_token req = check_a2p_token_before req)
  ∧ (Js.truthy (check_a2p_token_before req) = false →
     check_a2p_token req = Js.str (bearer req)).
Proof.
  unfold check_a2p_token, check_a2p_token_before, check_a2p_token_original.
  repeat split; intros Ht; unfold Js.or at 1; by rewrite Ht.
Qed.

(** ** More on the canonical block *)

Section BlockFrame.
Context `{Collaborators}.

Lemma decides_candidate (w : World) (fetched : option Fetched.t)
  (c : Canonical.t) :
  decides w fetched (Some c) = true →
  Js.truthy (Canonical.campaignSid c) = true
  ∧ Js.truthy (Canonical.messagingServiceSid c) = true.
Proof.
  unfold decides. cbn [Js.opt]. rewrite !andb_true_iff. tauto.
Qed.

Lemma set_value_other (k k' : string) (v : Js.value) (d : gmap string docval) :
  k ≠ k' → set_value k v d !! k' = d !! k'.
Proof. intros Hk. destruct v; cbn; [done | |]; by rewrite lookup_insert_ne. Qed.

Lemma set_value_truthy (k : string) (v : Js.value) (d : gmap string docval) :
  Js.truthy v = true → set_value k v d !! k = Some (DStr (Js.String_ v)).
Proof. destruct v; cbn; try done. intros _. apply lookup_insert_eq. Qed.

(** X6. A rejected write during a switch is swallowed too: the block returns
    normally, the locals hold the candidate's identifiers, the persisted
    document is untouched, and the status local is not taken from the
    candidate. *)
Theorem rejected_write_leaves_store (w : World) (fetched : option Fetched.t)
  (c : Canonical.t) (e : string) :
  tryFetchCampaignTenant (Vars.messagingServiceSid (vars w))
                         (Vars.campaignSid (vars w)) = Ok fetched →
  scanTwilioForCanonicalCampaignTenant
    (Js.or (Vars.brandSid (vars w)) Js.null) = Ok (Some c) →
  decides w fetched (Some c) = true →
  updateOne_rejects (store w) = Some e →
  let r := twilio_truth_block w in
  r.1 = Ok ()
  ∧ store r.2 = store w
  ∧ Vars.campaignSid (vars r.2) = Canonical.campaignSid c
  ∧ Vars.messagingServiceSid (vars r.2) = Canonical.messagingServiceSid c
  ∧ Vars.campStatus (vars r.2) = Vars.campStatus (vars (refresh fetched w)).
Proof.
  intros Hf Hs Hd Hw r. subst r.
  rewrite (block_switches w fetched c Hf Hs Hd). cbn [fst snd].
  destruct (refresh_identifiers fetched w) as (_ & _ & _ & Hst & _).
  unfold switched. cbn zeta. rewrite Hst, Hw. cbn [store set_vars vars].
  by rewrite Hst.
Qed.

(** X7. A switch whose write goes through persists the candidate's two
    identifiers, sets [usa2pSid] to the campaign identifier, stamps
    [lastSyncedAt] with the pass's clock and removes [lastError]. *)
Theorem switch_persists_identifiers (w : World) (fetched : option Fetched.t)
  (c : Canonical.t) :
  tryFetchCampaignTenant (Vars.messagingServiceSid (vars w))
                         (Vars.campaignSid (vars w)) = Ok fetched →
  scanTwilioForCanonicalCampaignTenant
    (Js.or (Vars.brandSid (vars w)) Js.null) = Ok (Some c) →
  decides w fetched (Some c) = true →
  updateOne_rejects (store w) = None →
  let d := store (twilio_truth_block w).2 in
  d !! "campaignSid" = Some (DStr (Js.String_ (Canonical.campaignSid c)))
  ∧ d !! "messagingServiceSid"
    = Some (DStr (Js.String_ (Canonical.messagingServiceSid c)))
  ∧ d !! "usa2pSid" = d !! "campaignSid"
  ∧ d !! "lastSyncedAt" = Some (DDate (now w))
  ∧ d !! "lastError" = None.
Proof.
  intros Hf Hs Hd Hw d. subst d.
  rewrite (block_switches w fetched c Hf Hs Hd). cbn [snd].
  destruct (decides_candidate w fetched c Hd) as (Hc & Hm).
  destruct (refresh_identifiers fetched w) as (_ & _ & _ & Hst & _ & _ & Hn).
  unfold switched. cbn zeta. rewrite Hst, Hw. cbn [store]. rewrite Hn.
  unfold canonical_update, adopted.
  cbn [Vars.campaignSid Vars.messagingServiceSid Vars.brandSid].
  set (b := if Js.truthy (Canonical.brandSid c) && _ then _ else _).
  assert (∀ d0 k, k ≠ "brandSid" →
            (if Js.truthy b then set_value "brandSid" b d0 else d0) !! k = d0 !! k)
    as Hbrand.
  { intros d0 k Hk. destruct (Js.truthy b); [by apply set_value_other | done]. }
  rewrite !lookup_delete_ne, lookup_delete_eq by done.
  rewrite lookup_insert_eq, !lookup_insert_ne by done.
  rewrite !Hbrand by done.
  rewrite (set_value_truthy "usa2pSid" _ _ Hc).
  rewrite (set_value_other "usa2pSid" "campaignSid") by done.
  rewrite (set_value_truthy "campaignSid" _ _ Hc).
  rewrite (set_value_other "usa2pSid" "messagingServiceSid") by done.
  rewrite (set_value_other "campaignSid" "messagingServiceSid") by done.
  by rewrite (set_value_truthy "messagingServiceSid" _ _ Hm).
Qed.

(** X8. Whatever the collaborators answer, the block writes no field of the
    persisted document other than [messagingServiceSid], [campaignSid],
    [usa2pSid], [brandSid], [lastSyncedAt] and [lastError]. *)
Theorem block_writes_six_fields_only (w : World) (k : string) :
  k ∉ ["messagingServiceSid"; "campaignSid"; "usa2pSid"; "brandSid";
       "lastSyncedAt"; "lastError"] →
  store (twilio_truth_block w).2 !! k = store w !! k.
Proof.
  intros Hk.
  assert (k ≠ "messagingServiceSid" ∧ k ≠ "campaignSid" ∧ k ≠ "usa2pSid"
          ∧ k ≠ "brandSid" ∧ k ≠ "lastSyncedAt" ∧ k ≠ "lastError")
    as (K1 & K2 & K3 & K4 & K5 & K6) by set_solver.
  destruct (tryFetchCampaignTenant (Vars.messagingServiceSid (vars w))
              (Vars.campaignSid (vars w))) as [fetched|e] eqn:Hf.
  - destruct (refresh_identifiers fetched w) as (_ & _ & _ & Hst & _).
    destruct (scanTwilioForCanonicalCampaignTenant
                (Js.or (Vars.brandSid (vars w)) Js.null)) as [canonical|e] eqn:Hs.
    + destruct (decides w fetched canonical) eqn:Hd.
      * destruct canonical as [c|]; [| by rewrite decides_none in Hd].
        rewrite (block_switches w fetched c Hf Hs Hd). cbn [snd].
        unfold switched. cbn zeta.
        destruct (updateOne_rejects _); cbn [store set_vars]; [by rewrite Hst |].
        rewrite Hst. unfold canonical_update.
        rewrite lookup_delete_ne, lookup_insert_ne by done.
        destruct (Js.truthy _); by rewrite !set_value_other.
      * rewrite (block_keeps w fetched canonical Hf Hs Hd). cbn [snd].
        by rewrite Hst.
    + rewrite (block_scan_throws w fetched e Hf Hs). cbn [snd]. by rewrite Hst.
  - by rewrite (block_fetch_throws w e Hf).
Qed.

(** X9. A profile already attached to the campaign the scan returns is left
    alone unless the candidate scores strictly higher: with both identifiers
    stored, the same campaign identifier and no higher score, nothing is
    switched and nothing is written. *)
Theorem same_campaign_is_left_alone (w : World) (fetched : option Fetched.t)
  (c : Canonical.t) :
  tryFetchCampaignTenant (Vars.messagingServiceSid (vars w))
                         (Vars.campaignSid (vars w)) = Ok fetched →
  scanTwilioForCanonicalCampaignTenant
    (Js.or (Vars.brandSid (vars w)) Js.null) = Ok (Some c) →
  Js.truthy (Vars.campaignSid (vars w)) = true →
  Js.truthy (Vars.messagingServiceSid (vars w)) = true →
  Canonical.campaignSid c = Vars.campaignSid (vars w) →
  scoreCampaignStatus (Js.or_else (Canonical.campaignStatus c) "")
    ≤ scoreCampaignStatus
        (baseline (fetched_status fetched) (Vars.campStatus (vars w))) →
  twilio_truth_block w = (Ok (), refresh fetched w).
Proof.
  intros Hf Hs Hc Hm Hsame Hscore.
  apply (block_keeps w fetched (Some c) Hf Hs).
  unfold decides, shouldSwitch, scoreCurrent, scoreCanonical.
  destruct (refresh_identifiers fetched w) as (-> & -> & _).
  rewrite refresh_baseline, Hc, Hm. cbn [Js.opt negb orb].
  apply Z.ltb_ge in Hscore. rewrite Hscore, Hsame.
  unfold Js.strict_ne, Js.strict_eq. rewrite bool_decide_eq_true_2 by done.
  cbn [negb]. by rewrite !andb_false_r.
Qed.

(** X10. The guard added to the status callback never adds a billing call:
    for a user who was ready before it makes none, for any other user it
    makes the call the unguarded block made; both blocks return normally. *)
Theorem guard_only_removes_calls (user : User.t) (ready : bool) (w : World) :
  (status_callback_charge user ready w).1 = Ok ()
  ∧ (status_callback_charge_unguarded user ready w).1 = Ok ()
  ∧ (wasReady user = true →
     charges (status_callback_charge user ready w).2 = charges w)
  ∧ (wasReady user = false →
     status_callback_charge user ready w
     = status_callback_charge_unguarded user ready w).
Proof.
  rewrite status_callback_charge_run. unfold status_callback_charge_unguarded.
  split; [done |]. split; [| split].
  - destruct ready; [by rewrite guarded_charge_run | done].
  - intros ->. by rewrite andb_false_r.
  - intros ->. rewrite andb_true_r.
    destruct ready; [by rewrite guarded_charge_run | done].
Qed.

End BlockFrame.

Lemma rejected_write_leaves_store_witness :
  (@twilio_truth_block write_rejected (fresh_world (stored_A "pending") ∅)).1
  = Ok ()
  ∧ store (@twilio_truth_block write_rejected
             (fresh_world (stored_A "pending") ∅)).2 = ∅.
Proof.
  destruct (@rejected_write_leaves_store write_rejected
              (fresh_world (stored_A "pending") ∅) None (campaign_B "approved")
              "MongoNetworkError" eq_refl eq_refl) as (Hr & Hst & _).
  - vm_compute. reflexivity.
  - reflexivity.
  - split; [exact Hr | exact Hst].
Defined.

Lemma switch_persists_identifiers_witness :
  store (@twilio_truth_block (registry_offers (campaign_B "approved"))
           (fresh_world (stored_A "pending") ∅)).2 !! "usa2pSid"
  = Some (DStr "CMB").
Proof.
  destruct (@switch_persists_identifiers (registry_offers (campaign_B "approved"))
              (fresh_world (stored_A "pending") ∅) None (campaign_B "approved")
              eq_refl eq_refl) as (Hc & _ & Hu & _).
  - vm_compute. reflexivity.
  - reflexivity.
  - rewrite Hu. exact Hc.
Defined.

Lemma block_writes_six_fields_only_witness :
  store (@twilio_truth_block (registry_offers (campaign_B "approved"))
           (fresh_world (stored_A "pending") brand_pending_store)).2
    !! "brandStatus" = Some (DStr "pending").
Proof.
  rewrite (@block_writes_six_fields_only (registry_offers (campaign_B "approved"))
             (fresh_world (stored_A "pending") brand_pending_store) "brandStatus").
  - reflexivity.
  - vm_compute. intros Hin.
    repeat (apply elem_of_cons in Hin as [Hin | Hin]; [discriminate |]).
    by apply elem_of_nil in Hin.
Defined.

Lemma same_campaign_is_left_alone_witness :
  @twilio_truth_block (registry_offers (campaign_A "pending"))
    (fresh_world (stored_A "pending") ∅)
  = (Ok (), fresh_world (stored_A "pending") ∅).
Proof.
  apply (@same_campaign_is_left_alone (registry_offers (campaign_A "pending"))
           (fresh_world (stored_A "pending") ∅) None (campaign_A "pending")
           eq_refl eq_refl eq_refl eq_refl eq_refl).
  vm_compute. discriminate.
Defined.

(** ** The status the scan reads *)

Lemma or_first (a b : Js.value) : Js.truthy a = true → Js.or a b = a.
Proof. unfold Js.or. by intros ->. Qed.

Lemma or_second (a b : Js.value) : Js.truthy a = false → Js.or a b = b.
Proof. unfold Js.or. by intros ->. Qed.

(** X11. The patched scan line reads the first non-empty of
    [campaignStatus], [campaign_status] and [status], in this order, and
    [state] when all three are empty.  So it reads [campaignStatus] when
    that is non-empty, else [campaign_status] when that is non-empty, and
    when both are empty what the line read before; it yields a non-empty
    status exactly when one of the four fields holds one. *)
Theorem scan_status_extends_old_reading (c : Scanned.t) :
  scan_status c
  = default (Scanned.state c)
      (head (filter (λ v, Js.truthy v = true)
               [Scanned.campaignStatus c; Scanned.campaign_status c;
                Scanned.status c]))
  ∧ (Js.truthy (Scanned.campaignStatus c) = true →
     scan_status c = Scanned.campaignStatus c)
  ∧ (Js.truthy (Scanned.campaignStatus c) = false →
     Js.truthy (Scanned.campaign_status c) = true →
     scan_status c = Scanned.campaign_status c)
  ∧ (Js.truthy (Scanned.campaignStatus c) = false →
     Js.truthy (Scanned.campaign_status c) = false →
     scan_status c = scan_status_before c)
  ∧ (Js.truthy (scan_status c) = true
     ↔ Js.truthy (Scanned.campaignStatus c) = true
       ∨ Js.truthy (Scanned.campaign_status c) = true
       ∨ Js.truthy (Scanned.status c) = true
       ∨ Js.truthy (Scanned.state c) = true).
Proof.
  unfold scan_status, scan_status_before.
  destruct (Js.truthy (Scanned.campaignStatus c)) eqn:E1.
  { rewrite !(or_first (Scanned.campaignStatus c)) by done.
    rewrite filter_cons_True by exact E1.
    repeat split; try done. intros _. by left. }
  rewrite (or_second (Scanned.campaignStatus c)) by done.
  rewrite filter_cons_False by (by rewrite E1).
  destruct (Js.truthy (Scanned.campaign_status c)) eqn:E2.
  { rewrite !(or_first (Scanned.campaign_status c)) by done.
    rewrite filter_cons_True by exact E2.
    repeat split; try done. intros _. right. by left. }
  rewrite (or_second (Scanned.campaign_status c)) by done.
  rewrite filter_cons_False by (by rewrite E2).
  destruct (Js.truthy (Scanned.status c)) eqn:E3.
  { rewrite !(or_first (Scanned.status c)) by done.
    rewrite filter_cons_True by exact E3.
    repeat split; try done. intros _. right. right. by left. }
  rewrite (or_second (Scanned.status c)) by done.
  rewrite filter_cons_False by (by rewrite E3).
  repeat split; try done.
  - intros Ht. by repeat right.
  - intros [? | [? | [? | ?]]]; done.
Qed.

(** ** The number guard of the dial session page *)

Lemma owns_some (ns : list Dial.Number) (selected : string) :
  Dial.owns ns selected = true
  ↔ ∃ n, n ∈ ns ∧ Dial.phoneNumber n = Js.str selected.
Proof.
  unfold Dial.owns. rewrite existsb_exists. split.
  - intros (n & Hin & Heq). exists n. split; [by apply list_elem_of_In |].
    unfold Js.strict_eq in Heq. by apply bool_decide_eq_true in Heq.
  - intros (n & Hin & Heq). exists n. split; [by apply list_elem_of_In |].
    unfold Js.strict_eq. by apply bool_decide_eq_true.
Qed.

(** X12. After the effect has run on a loaded, non-empty list of numbers,
    the selected number is either empty or the [phoneNumber] of one of them.
    The effect changes nothing while nothing is selected, while the list is
    not an array or is empty, or when one of the numbers is the selected
    one; when it does clear the selection it also removes the saved
    [selectedDialNumber] and no other stored key. *)
Theorem guard_keeps_only_owned_numbers (st : Dial.State) :
  let st' := Dial.guard_effect st in
  Dial.numbers st' = Dial.numbers st
  ∧ (∀ ns, Dial.numbers st = Some ns → ns ≠ [] →
       Dial.selectedFromNumber st' = ""
       ∨ ∃ n, n ∈ ns ∧ Dial.phoneNumber n = Js.str (Dial.selectedFromNumber st'))
  ∧ (Dial.selectedFromNumber st = ""
     ∨ Dial.numbers st = None ∨ Dial.numbers st = Some []
     ∨ (∃ ns n, Dial.numbers st = Some ns ∧ n ∈ ns
                ∧ Dial.phoneNumber n = Js.str (Dial.selectedFromNumber st)) →
     st' = st)
  ∧ (st' ≠ st →
     Dial.selectedFromNumber st' = ""
     ∧ ∀ ls, Dial.localStorage st = Some ls →
         Dial.localStorage st' = Some (delete "selectedDialNumber" ls)).
Proof.
  intros st'. subst st'. unfold Dial.guard_effect.
  destruct (String.eqb (Dial.selectedFromNumber st) "") eqn:Esel.
  { apply String.eqb_eq in Esel. repeat split; try done. intros ns _ _. by left. }
  apply String.eqb_neq in Esel.
  destruct (Dial.numbers st) as [ns|] eqn:En; [| repeat split; try done; by intros ? [=]].
  destruct ns as [|n ns]; cbn [length Nat.eqb].
  { repeat split; try done. by intros ? [= <-]. }
  destruct (Dial.owns (n :: ns) (Dial.selectedFromNumber st)) eqn:Eown.
  { repeat split; try done. intros ns' [= <-] _. right. by apply owns_some. }
  cbn. repeat split; try done.
  - intros ns' _ _. by left.
  - intros [? | [? | [? | (ns' & n' & [= <-] & Hin & Hph)]]]; try done.
    assert (Dial.owns (n :: ns) (Dial.selectedFromNumber st) = true) as Hown
      by (apply owns_some; by exists n').
    congruence.
  - intros ls ->. done.
Qed.

(** X13. Running the effect again changes nothing more. *)
Theorem guard_effect_is_idempotent (st : Dial.State) :
  Dial.guard_effect (Dial.guard_effect st) = Dial.guard_effect st.
Proof.
  unfold Dial.guard_effect at 2 3.
  destruct (String.eqb (Dial.selectedFromNumber st) "") eqn:Esel.
  { unfold Dial.guard_effect. by rewrite Esel. }
  destruct (Dial.numbers st) as [ns|] eqn:En.
  - destruct (length ns =? 0)%nat eqn:El.
    { unfold Dial.guard_effect. by rewrite Esel, En, El. }
    destruct (Dial.owns ns (Dial.selectedFromNumber st)) eqn:Eown.
    { unfold Dial.guard_effect. by rewrite Esel, En, El, Eown. }
    done.
  - unfold Dial.guard_effect. by rewrite Esel, En.
Qed.

(** ** Cutting a text at markers *)

Section Cuts.
Local Open Scope list_scope.

Lemma find_zero (s sub : list ascii) : Py.find s sub 0 = Py.find0 s sub.
Proof.
  unfold Py.find. change (length s <? 0)%nat with false. rewrite drop_0.
  destruct (Py.find0 s sub); reflexivity.
Qed.

Lemma startswith_app (sub rest : list ascii) :
  Py.startswith (sub ++ rest) sub = true.
Proof. apply startswith_prefix. by exists rest. Qed.

(** The search finds an occurrence that has none before it. *)
Lemma find0_first (pre sub post : list ascii) :
  (∀ j, (j < length pre)%nat →
        Py.startswith (drop j (pre ++ sub ++ post)) sub = false) →
  Py.find0 (pre ++ sub ++ post) sub = Some (length pre).
Proof.
  intros Hfirst. destruct (find0_occurrence pre sub post) as (i & Hi & Hle).
  rewrite Hi. f_equal.
  destruct (decide (i = length pre)) as [|Hne]; [done |].
  destruct (find0_Some _ _ _ Hi) as (Hcut & _ & _).
  assert (Py.startswith (drop i (pre ++ sub ++ post)) sub = true) as Ht.
  { rewrite Hcut at 1. rewrite drop_app_length'; [apply startswith_app |].
    rewrite length_take. destruct (find0_Some _ _ _ Hi) as (_ & Hb & _). lia. }
  rewrite Hfirst in Ht by lia. done.
Qed.

Lemma find0_Some_first (s sub : list ascii) (i : nat) :
  Py.find0 s sub = Some i →
  ∃ pre post, s = pre ++ sub ++ post ∧ length pre = i
              ∧ Py.find0 (pre ++ sub ++ post) sub = Some (length pre).
Proof.
  intros Hi. destruct (find0_Some _ _ _ Hi) as (Hcut & Hb & _).
  exists (take i s), (drop (i + length sub) s).
  assert (length (take i s) = i) as Hl by (rewrite length_take; lia).
  split; [exact Hcut |]. split; [exact Hl |]. by rewrite <- Hcut, Hl.
Qed.

Lemma contains_false (s sub : list ascii) :
  Py.contains s sub = false ↔ Py.find0 s sub = None.
Proof.
  unfold Py.contains. rewrite bool_decide_eq_false.
  by rewrite eq_None_not_Some.
Qed.

Lemma find_None (s sub : list ascii) (start : nat) :
  (start <= length s)%nat →
  Py.find s sub start = None → Py.contains (drop start s) sub = false.
Proof.
  intros Hle. unfold Py.find.
  destruct (length s <? start)%nat eqn:E; [apply Nat.ltb_lt in E; lia |].
  destruct (Py.find0 (drop start s) sub) eqn:Hf; [done |].
  intros _. by apply contains_false.
Qed.

(** [b] cannot be found starting inside an occurrence of [a]. *)
Lemma no_clash (a b rest : list ascii) (k : nat) :
  clash_free a b = true → (k < length a)%nat →
  Py.startswith (drop k (a ++ rest)) b = false.
Proof.
  intros Hfree Hk. unfold clash_free in Hfree.
  rewrite forallb_forall in Hfree. specialize (Hfree k).
  rewrite in_seq in Hfree. specialize (Hfree ltac:(lia)).
  apply negb_true_iff, orb_false_iff in Hfree as [H1 H2].
  destruct (Py.startswith (drop k (a ++ rest)) b) eqn:Hs; [| done].
  exfalso. apply startswith_prefix in Hs as [r Hr].
  rewrite drop_app_le in Hr by lia.
  assert (drop k a `prefix_of` (drop k a ++ rest)) as P1 by (by exists rest).
  assert (b `prefix_of` (drop k a ++ rest)) as P2 by (exists r; done).
  destruct (prefix_weak_total _ _ _ P1 P2) as [[x Hx] | [x Hx]].
  - assert (Py.startswith b (drop k a) = true)
      by (apply startswith_prefix; by exists x).
    congruence.
  - assert (Py.startswith (drop k a) b = true)
      by (apply startswith_prefix; by exists x).
    congruence.
Qed.

(** A search for [b] that starts at an occurrence of [a] and cannot begin
    inside it finds [b] after [a]; what lies between holds no earlier [b]. *)
Lemma find_after (pre a tail b : list ascii) (e : nat) :
  clash_free a b = true →
  Py.find (pre ++ a ++ tail) b (length pre) = Some e →
  ∃ mid post,
    tail = mid ++ b ++ post
    ∧ e = (length pre + length a + length mid)%nat
    ∧ Py.find0 (mid ++ b ++ post) b = Some (length mid).
Proof.
  intros Hfree Hf. destruct (find_Some _ _ _ _ Hf) as (Hge & Hb & Hcut & Hfirst).
  assert (Hocc : Py.startswith (drop e (pre ++ a ++ tail)) b = true).
  { rewrite Hcut at 1. rewrite drop_app_length'; [apply startswith_app |].
    rewrite length_take. lia. }
  assert (length pre + length a <= e)%nat as He.
  { destruct (decide (length pre + length a <= e)%nat) as [|Hlt]; [done |].
    exfalso. replace e with (length pre + (e - length pre))%nat in Hocc by lia.
    rewrite drop_app_add in Hocc.
    rewrite (no_clash a b tail (e - length pre) Hfree) in Hocc by lia. done. }
  set (m := (e - (length pre + length a))%nat).
  assert (Htail : drop m tail = b ++ drop (m + length b) tail).
  { assert (drop e (pre ++ a ++ tail) = drop m tail) as Hd.
    { rewrite app_assoc. replace e with (length (pre ++ a) + m)%nat
        by (rewrite length_app; lia).
      by rewrite drop_app_add. }
    rewrite <- Hd. rewrite Hcut at 1.
    rewrite drop_app_length' by (rewrite length_take; lia). f_equal.
    rewrite app_assoc.
    replace (e + length b)%nat with (length (pre ++ a) + (m + length b))%nat
      by (rewrite length_app; lia).
    by rewrite drop_app_add. }
  assert (m + length b <= length tail)%nat as Hmb.
  { rewrite !length_app in Hb. lia. }
  exists (take m tail), (drop (m + length b) tail).
  assert (length (take m tail) = m) as Hlm by (rewrite length_take; lia).
  assert (tail = take m tail ++ b ++ drop (m + length b) tail) as Heq.
  { rewrite <- Htail. by rewrite take_drop. }
  split; [exact Heq |]. split; [rewrite Hlm; lia |].
  apply find0_first. rewrite <- Heq, Hlm. intros j Hj.
  specialize (Hfirst (length pre + length a + j)%nat ltac:(lia)).
  rewrite app_assoc in Hfirst.
  replace (length pre + length a + j)%nat with (length (pre ++ a) + j)%nat
    in Hfirst by (rewrite length_app; lia).
  by rewrite drop_app_add in Hfirst.
Qed.

Lemma slice_middle (pre blk post : list ascii) :
  Py.slice (pre ++ blk ++ post) (length pre) (length pre + length blk) = blk.
Proof.
  unfold Py.slice. rewrite drop_app_length.
  replace (length pre + length blk - length pre)%nat with (length blk) by lia.
  apply take_app_length.
Qed.

Lemma cut_middle (pre blk post : list ascii) :
  take (length pre) (pre ++ blk ++ post)
  ++ drop (length pre + length blk) (pre ++ blk ++ post) = pre ++ post.
Proof.
  rewrite take_app_length. f_equal.
  rewrite app_assoc.
  replace (length pre + length blk)%nat with (length (pre ++ blk))
    by (by rewrite length_app).
  apply drop_app_length.
Qed.

End Cuts.

(** ** Reading and writing a file *)

Section Files.
Local Open Scope list_scope.

(** Reading goes through the file two characters at a time at most. *)
Lemma read_text_cases (P : list ascii → Prop) :
  P [] →
  (∀ c file, c ≠ cr → P file → P (c :: file)) →
  P [cr] →
  (∀ file, P file → P (cr :: nl :: file)) →
  (∀ d file, d ≠ nl → P (d :: file) → P (cr :: d :: file)) →
  ∀ file, P file.
Proof.
  intros Hnil Hchar Hcr Hcrlf Hlone file.
  assert (∀ n file, (length file <= n)%nat → P file) as Hall;
    [| by apply (Hall (length file))].
  clear file. induction n as [|n IH]; intros file Hlen.
  - destruct file; [done | cbn in Hlen; lia].
  - destruct file as [|c file]; [done |]. cbn in Hlen.
    destruct (decide (c = cr)) as [-> | Hc]; [| apply Hchar, IH; [done | lia]].
    destruct file as [|d file]; [done |]. cbn in Hlen.
    destruct (decide (d = nl)) as [-> | Hd].
    + apply Hcrlf, IH. lia.
    + apply Hlone; [done |]. apply IH. cbn. lia.
Qed.

Lemma read_text_char (c : ascii) (file : list ascii) :
  c ≠ cr → Py.read_text (c :: file) = c :: Py.read_text file.
Proof.
  intros Hc. cbn. destruct (Ascii.eqb c cr) eqn:E; [| done].
  by apply Ascii.eqb_eq in E.
Qed.

Lemma read_text_lone_cr (d : ascii) (file : list ascii) :
  d ≠ nl → Py.read_text (cr :: d :: file) = nl :: Py.read_text (d :: file).
Proof.
  intros Hd. cbn. destruct (Ascii.eqb d nl) eqn:E; [| done].
  by apply Ascii.eqb_eq in E.
Qed.

(** A text as read holds no CR. *)
Lemma read_text_no_cr (file : list ascii) : cr ∉ Py.read_text file.
Proof.
  induction file as [|c file Hc IH| |file IH|d file Hd IH] using read_text_cases.
  - cbn. apply not_elem_of_nil.
  - rewrite read_text_char by done. apply not_elem_of_cons. by split.
  - cbn. apply not_elem_of_cons. split; [discriminate | apply not_elem_of_nil].
  - change (Py.read_text (cr :: nl :: file)) with (nl :: Py.read_text file).
    apply not_elem_of_cons. split; [discriminate | done].
  - rewrite read_text_lone_cr by done.
    apply not_elem_of_cons. split; [discriminate | done].
Qed.

(** A file without CR is read as it stands. *)
Lemma read_text_plain (text : list ascii) :
  cr ∉ text → Py.read_text text = text.
Proof.
  induction text as [|c text IH]; [done |]. intros Hno.
  apply not_elem_of_cons in Hno as [Hc Hno].
  rewrite read_text_char by done. by rewrite IH.
Qed.

(** What a script writes is, on either platform, what the next script
    reads. *)
Lemma read_written (crlf : bool) (text : list ascii) :
  cr ∉ text → Py.read_text (Py.write_text crlf text) = text.
Proof.
  intros Hno. destruct crlf; [| by apply read_text_plain]. cbn [Py.write_text].
  induction text as [|c text IH]; [done |].
  apply not_elem_of_cons in Hno as [Hc Hno].
  cbn [mbind list_bind app]. fold (@mbind list _ ascii ascii).
  destruct (Ascii.eqb c nl) eqn:E.
  - apply Ascii.eqb_eq in E as ->.
    change (Py.read_text ([cr; nl] ++ ?t)) with (nl :: Py.read_text t).
    by rewrite IH.
  - cbn [app]. rewrite read_text_char by done. by rewrite IH.
Qed.

End Files.

(** ** What each script does to the text *)

Section ScriptProperties.
Local Open Scope list_scope.

Lemma Wrote_inj (t t' : list ascii) : Wrote t = Wrote t' → t = t'.
Proof. by intros [=]. Qed.

Lemma drop_past (front back : list ascii) (n : nat) :
  n = length front → drop n (front ++ back) = back.
Proof. intros ->. apply drop_app_length. Qed.

Lemma take_upto (front back : list ascii) (n : nat) :
  n = length front → take n (front ++ back) = front.
Proof. intros ->. apply take_app_length. Qed.

Lemma contains_tail (a tail sub : list ascii) :
  Py.contains (a ++ tail) sub = false → Py.contains tail sub = false.
Proof.
  intros Hno. destruct (Py.contains tail sub) eqn:Ht; [| done].
  apply contains_true in Ht as (p & q & ->).
  assert (Py.contains (a ++ p ++ sub ++ q) sub = true) as Hyes.
  { apply contains_true. exists (a ++ p), q. by rewrite <- app_assoc. }
  congruence.
Qed.

(** X14. The script rewrites [sync.ts] only when it finds, in the text it
    has read, the start marker and, from there on, the end marker.  It then
    replaces exactly the span from the first start marker through the first
    end marker after it by the new block, leaving the text before and after
    as read; otherwise it aborts for a missing marker.  Its "no changes
    made" exit is never taken. *)
Theorem twilio_patch_replaces_marked_span (file : list ascii) :
  let s := Py.read_text file in
  match TwilioTruthPatch.run file with
  | Wrote out =>
      ∃ pre mid post,
        s = pre ++ TwilioTruthPatch.start_marker ++ mid
            ++ TwilioTruthPatch.end_marker ++ post
        ∧ out = pre ++ TwilioTruthPatch.replacement ++ post
        ∧ Py.find0 s TwilioTruthPatch.start_marker = Some (length pre)
        ∧ Py.find0 (mid ++ TwilioTruthPatch.end_marker ++ post)
            TwilioTruthPatch.end_marker = Some (length mid)
  | Aborted m =>
      (m = "ERROR: start marker not found. Aborting."
       ∧ Py.contains s TwilioTruthPatch.start_marker = false)
      ∨ (m = "ERROR: end marker not found after start. Aborting."
         ∧ ∃ pre tail,
             s = pre ++ TwilioTruthPatch.start_marker ++ tail
             ∧ Py.find0 s TwilioTruthPatch.start_marker = Some (length pre)
             ∧ Py.contains tail TwilioTruthPatch.end_marker = false)
  end.
Proof.
  intros s. unfold TwilioTruthPatch.run. fold s. clearbody s.
  unfold TwilioTruthPatch.edit. rewrite find_zero.
  destruct (Py.find0 s TwilioTruthPatch.start_marker) as [start|] eqn:Hstart.
  2:{ left. split; [done | by apply contains_false]. }
  destruct (find0_Some_first _ _ _ Hstart) as (pre & tail & Hs & Hlen & Hfirst).
  subst s start.
  destruct (Py.find _ TwilioTruthPatch.end_marker (length pre)) as [e|] eqn:He.
  2:{ right. split; [done |]. exists pre, tail. split; [done |]. split; [done |].
      apply find_None in He; [| rewrite length_app; lia].
      rewrite drop_app_length in He. by eapply contains_tail. }
  assert (clash_free TwilioTruthPatch.start_marker TwilioTruthPatch.end_marker
          = true) as Hfree by (vm_compute; reflexivity).
  destruct (find_after pre _ tail _ e Hfree He)
    as (mid & post & -> & -> & Hmid).
  cbn zeta. rewrite take_app_length.
  assert (drop (length pre + length TwilioTruthPatch.start_marker + length mid
                + length TwilioTruthPatch.end_marker)
            (pre ++ TwilioTruthPatch.start_marker ++ mid
             ++ TwilioTruthPatch.end_marker ++ post) = post) as ->.
  { rewrite !app_assoc. apply drop_past. rewrite !length_app. lia. }
  case_bool_decide as Hsame.
  - exfalso. apply app_inv_head in Hsame.
    assert (take 30 (TwilioTruthPatch.replacement ++ post)
            = take 30 (TwilioTruthPatch.start_marker ++ mid
                       ++ TwilioTruthPatch.end_marker ++ post)) as Ht
      by (by rewrite Hsame).
    rewrite !take_app_le in Ht by (vm_compute; lia).
    vm_compute in Ht. discriminate.
  - exists pre, mid, post. done.
Qed.

Lemma anchor_begins_with_anchor2 :
  MoveGuardPatch.anchor
  = MoveGuardPatch.anchor2
    ++ drop (length MoveGuardPatch.anchor2) MoveGuardPatch.anchor.
Proof. vm_compute. reflexivity. Qed.

(** What a run of the move script that writes has found and written. *)
Lemma move_guard_run (s out : list ascii) :
  MoveGuardPatch.edit s = Wrote out →
  ∃ a x b p q d,
    s = a ++ (MoveGuardPatch.MARK ++ x ++ MoveGuardPatch.END) ++ b
    ∧ Py.find0 s MoveGuardPatch.MARK = Some (length a)
    ∧ Py.find0 (x ++ MoveGuardPatch.END ++ b) MoveGuardPatch.END
      = Some (length x)
    ∧ a ++ b = p ++ MoveGuardPatch.anchor2 ++ q ++ [nl] ++ d
    ∧ (Py.find0 (a ++ b) MoveGuardPatch.anchor = Some (length p)
       ∨ Py.find0 (a ++ b) MoveGuardPatch.anchor = None
         ∧ Py.find0 (a ++ b) MoveGuardPatch.anchor2 = Some (length p))
    ∧ Py.find0 (q ++ [nl] ++ d) [nl] = Some (length q)
    ∧ Py.contains (MoveGuardPatch.MARK ++ x ++ MoveGuardPatch.END)
        MoveGuardPatch.useEffect_head = true
    ∧ Py.contains (MoveGuardPatch.MARK ++ x ++ MoveGuardPatch.END)
        MoveGuardPatch.setter = true
    ∧ out = p ++ MoveGuardPatch.anchor2 ++ q ++ [nl] ++ [nl]
            ++ (MoveGuardPatch.MARK ++ x ++ MoveGuardPatch.END) ++ d.
Proof.
  unfold MoveGuardPatch.edit. rewrite find_zero.
  destruct (Py.find0 s MoveGuardPatch.MARK) as [start|] eqn:Hstart; [| done].
  destruct (find0_Some_first _ _ _ Hstart) as (a & tail & Hs & Hlen & Hfirst).
  subst s start.
  destruct (Py.find _ MoveGuardPatch.END (length a)) as [e|] eqn:He; [| done].
  assert (clash_free MoveGuardPatch.MARK MoveGuardPatch.END = true) as Hfree
    by (vm_compute; reflexivity).
  destruct (find_after a _ tail _ e Hfree He) as (x & b & -> & -> & Hx).
  cbn zeta.
  set (blk := MoveGuardPatch.MARK ++ x ++ MoveGuardPatch.END).
  assert (a ++ MoveGuardPatch.MARK ++ x ++ MoveGuardPatch.END ++ b
          = a ++ blk ++ b) as Hre by (unfold blk; by rewrite <- !app_assoc).
  rewrite Hre in *.
  replace (length a + length MoveGuardPatch.MARK + length x
           + length MoveGuardPatch.END)%nat
    with (length a + length blk)%nat
    by (unfold blk; rewrite !length_app; lia).
  rewrite slice_middle, cut_middle.
  destruct (Py.contains blk MoveGuardPatch.useEffect_head) eqn:Euse;
    [| done].
  destruct (Py.contains blk MoveGuardPatch.setter) eqn:Eset; [| done].
  cbn [negb orb].
  rewrite !find_zero.
  assert (∀ a_idx,
            match Py.find0 (a ++ b) MoveGuardPatch.anchor with
            | Some a0 => Some a0
            | None => Py.find0 (a ++ b) MoveGuardPatch.anchor2
            end = Some a_idx →
            ∃ p tail2, a ++ b = p ++ MoveGuardPatch.anchor2 ++ tail2
                       ∧ length p = a_idx) as Hanchor.
  { intros a_idx Ha.
    destruct (Py.find0 (a ++ b) MoveGuardPatch.anchor) as [a0|] eqn:H1.
    - injection Ha as ->.
      destruct (find0_Some_first _ _ _ H1) as (p & t2 & Hab & Hl & _).
      exists p, (drop (length MoveGuardPatch.anchor2) MoveGuardPatch.anchor ++ t2).
      split; [| done]. rewrite Hab.
      rewrite anchor_begins_with_anchor2 at 1. by rewrite <- !app_assoc.
    - destruct (find0_Some_first _ _ _ Ha) as (p & t2 & Hab & Hl & _).
      by exists p, t2. }
  destruct (match Py.find0 (a ++ b) MoveGuardPatch.anchor with
            | Some a0 => Some a0
            | None => Py.find0 (a ++ b) MoveGuardPatch.anchor2
            end) as [a_idx|] eqn:Ha; [| done].
  destruct (Hanchor a_idx eq_refl) as (p & tail2 & Hab & Hp). subst a_idx.
  assert (Py.find0 (a ++ b) MoveGuardPatch.anchor = Some (length p)
          ∨ Py.find0 (a ++ b) MoveGuardPatch.anchor = None
            ∧ Py.find0 (a ++ b) MoveGuardPatch.anchor2 = Some (length p))
    as Hpin.
  { destruct (Py.find0 (a ++ b) MoveGuardPatch.anchor); [by left | by right]. }
  clear Ha Hanchor. rewrite Hab.
  destruct (Py.find _ [nl] (length p)) as [line_end|] eqn:Hnl; [| done].
  assert (clash_free MoveGuardPatch.anchor2 [nl] = true) as Hfree2
    by (vm_compute; reflexivity).
  destruct (find_after p _ tail2 _ line_end Hfree2 Hnl) as (q & d & -> & -> & Hq).
  intros Hout. apply Wrote_inj in Hout. subst out.
  assert (Hfront : p ++ MoveGuardPatch.anchor2 ++ q ++ [nl] ++ d
                   = (p ++ MoveGuardPatch.anchor2 ++ q ++ [nl]) ++ d)
    by (by rewrite <- !app_assoc).
  assert (Hn : (length p + length MoveGuardPatch.anchor2 + length q + 1)%nat
               = length (p ++ MoveGuardPatch.anchor2 ++ q ++ [nl]))
    by (rewrite !length_app; cbn; lia).
  rewrite Hfront, Hn.
  rewrite (take_upto (p ++ MoveGuardPatch.anchor2 ++ q ++ [nl]) d _ eq_refl).
  rewrite (drop_past (p ++ MoveGuardPatch.anchor2 ++ q ++ [nl]) d _ eq_refl).
  exists a, x, b, p, q, d.
  split; [reflexivity |]. split; [reflexivity |]. split; [exact Hx |].
  split; [exact Hab |]. split; [exact Hpin |]. split; [exact Hq |].
  split; [exact Euse |]. split; [exact Eset |].
  unfold blk. rewrite <- !app_assoc. reflexivity.
Qed.

(** X15. When the script rewrites [ai-dial-session.tsx] it only moves text:
    what it writes holds the characters of the text it read and one more
    newline.  The span from the first guard comment through the first end of
    the effect after it is cut out and put back, after an empty line, right
    below the line of the first full declaration of [selectedFromNumber] in
    what is left, or of the first shorter one if there is no full one. *)
Theorem move_guard_only_moves_text (file out : list ascii) :
  MoveGuardPatch.main (Some file) = Wrote out →
  let s := Py.read_text file in
  (nl :: s) ≡ₚ out
  ∧ ∃ a x b p q d,
      s = a ++ (MoveGuardPatch.MARK ++ x ++ MoveGuardPatch.END) ++ b
      ∧ Py.find0 s MoveGuardPatch.MARK = Some (length a)
      ∧ Py.find0 (x ++ MoveGuardPatch.END ++ b) MoveGuardPatch.END
        = Some (length x)
      ∧ a ++ b = p ++ MoveGuardPatch.anchor2 ++ q ++ [nl] ++ d
      ∧ (Py.find0 (a ++ b) MoveGuardPatch.anchor = Some (length p)
         ∨ Py.find0 (a ++ b) MoveGuardPatch.anchor = None
           ∧ Py.find0 (a ++ b) MoveGuardPatch.anchor2 = Some (length p))
      ∧ Py.find0 (q ++ [nl] ++ d) [nl] = Some (length q)
      ∧ out = p ++ MoveGuardPatch.anchor2 ++ q ++ [nl] ++ [nl]
              ++ (MoveGuardPatch.MARK ++ x ++ MoveGuardPatch.END) ++ d.
Proof.
  intros Hrun s. unfold MoveGuardPatch.main in Hrun. fold s in Hrun.
  clearbody s.
  destruct (move_guard_run s out Hrun)
    as (a & x & b & p & q & d
        & Hs & Hmark & Hend & Hab & Hpin & Hq & Huse & Hset & Hout).
  split; [| by exists a, x, b, p, q, d].
  rewrite Hs, Hout.
  set (blk := MoveGuardPatch.MARK ++ x ++ MoveGuardPatch.END).
  transitivity (nl :: blk ++ a ++ b).
  { constructor. apply Permutation_app_swap_app. }
  rewrite Hab.
  replace (p ++ MoveGuardPatch.anchor2 ++ q ++ [nl] ++ [nl] ++ blk ++ d)
    with ((p ++ MoveGuardPatch.anchor2 ++ q ++ [nl]) ++ nl :: blk ++ d)
    by (by rewrite <- !app_assoc).
  rewrite <- Permutation_middle. constructor.
  replace (p ++ MoveGuardPatch.anchor2 ++ q ++ [nl] ++ d)
    with ((p ++ MoveGuardPatch.anchor2 ++ q ++ [nl]) ++ d)
    by (by rewrite <- !app_assoc).
  apply Permutation_app_swap_app.
Qed.

(** The span the script cuts out of the page: from the first notes container
    through the first closing tag after the first notes marker in it. *)
Lemma arch_notes_span (s : list ascii) (start_idx mark_idx e : nat) :
  Py.find0 s ArchNotesPatch.ARCH_START = Some start_idx →
  Py.find s ArchNotesPatch.ARCH_MARK start_idx = Some mark_idx →
  Py.find s ArchNotesPatch.close_div mark_idx = Some e →
  ∃ pre x y post,
    s = pre ++ (ArchNotesPatch.ARCH_START ++ x ++ ArchNotesPatch.ARCH_MARK
                ++ y ++ ArchNotesPatch.close_div) ++ post
    ∧ start_idx = length pre
    ∧ (e + length ArchNotesPatch.close_div)%nat
      = (length pre
         + length (ArchNotesPatch.ARCH_START ++ x ++ ArchNotesPatch.ARCH_MARK
                   ++ y ++ ArchNotesPatch.close_div))%nat
    ∧ Py.find0 (x ++ ArchNotesPatch.ARCH_MARK ++ y ++ ArchNotesPatch.close_div
                ++ post) ArchNotesPatch.ARCH_MARK = Some (length x)
    ∧ Py.find0 (y ++ ArchNotesPatch.close_div ++ post) ArchNotesPatch.close_div
      = Some (length y).
Proof.
  intros Hstart Hmark Hdiv.
  destruct (find0_Some_first _ _ _ Hstart) as (pre & t1 & Hs & Hlen & _).
  subst s start_idx.
  assert (clash_free ArchNotesPatch.ARCH_START ArchNotesPatch.ARCH_MARK = true)
    as Hfree1 by (vm_compute; reflexivity).
  destruct (find_after pre _ t1 _ mark_idx Hfree1 Hmark)
    as (x & t2 & -> & -> & Hx).
  assert (clash_free ArchNotesPatch.ARCH_MARK ArchNotesPatch.close_div = true)
    as Hfree2 by (vm_compute; reflexivity).
  assert (pre ++ ArchNotesPatch.ARCH_START ++ x ++ ArchNotesPatch.ARCH_MARK ++ t2
          = (pre ++ ArchNotesPatch.ARCH_START ++ x)
            ++ ArchNotesPatch.ARCH_MARK ++ t2) as Hre
    by (by rewrite <- !app_assoc).
  rewrite Hre in Hdiv.
  replace (length pre + length ArchNotesPatch.ARCH_START + length x)%nat
    with (length (pre ++ ArchNotesPatch.ARCH_START ++ x)) in Hdiv
    by (rewrite !length_app; lia).
  destruct (find_after _ _ t2 _ e Hfree2 Hdiv) as (y & post & -> & -> & Hy).
  exists pre, x, y, post.
  split; [by rewrite <- !app_assoc |]. split; [done |].
  split; [rewrite !length_app; lia |]. split; [exact Hx | exact Hy].
Qed.

(** What a run of the notes script that writes has found and written. *)
Lemma arch_notes_run (s out : list ascii) :
  ArchNotesPatch.edit s = Wrote out →
  ∃ pre x y post p q d,
    s = pre ++ (ArchNotesPatch.ARCH_START ++ x ++ ArchNotesPatch.ARCH_MARK
                ++ y ++ ArchNotesPatch.close_div) ++ post
    ∧ Py.find0 s ArchNotesPatch.ARCH_START = Some (length pre)
    ∧ Py.find0 (x ++ ArchNotesPatch.ARCH_MARK ++ y ++ ArchNotesPatch.close_div
                ++ post) ArchNotesPatch.ARCH_MARK = Some (length x)
    ∧ Py.find0 (y ++ ArchNotesPatch.close_div ++ post) ArchNotesPatch.close_div
      = Some (length y)
    ∧ pre ++ post = p ++ ArchNotesPatch.needle ++ q ++ [nl] ++ d
    ∧ Py.find0 (pre ++ post) ArchNotesPatch.needle = Some (length p)
    ∧ Py.find0 (q ++ [nl] ++ d) [nl] = Some (length q)
    ∧ Py.contains (pre ++ post) ArchNotesPatch.guard_comment = false
    ∧ out = p ++ ArchNotesPatch.needle ++ q ++ [nl]
            ++ ArchNotesPatch.guard_block ++ d.
Proof.
  unfold ArchNotesPatch.edit. rewrite find_zero.
  destruct (Py.find0 s ArchNotesPatch.ARCH_START) as [start_idx|] eqn:Hstart;
    [| done].
  destruct (Py.find s ArchNotesPatch.ARCH_MARK start_idx) as [mark_idx|]
    eqn:Hmark; [| done].
  destruct (Py.find s ArchNotesPatch.close_div mark_idx) as [e|] eqn:Hdiv;
    [| done].
  destruct (arch_notes_span s start_idx mark_idx e Hstart Hmark Hdiv)
    as (pre & x & y & post & Hs & -> & Hend & Hx & Hy).
  cbn zeta. rewrite Hend. clear Hend Hmark Hdiv.
  set (blk := ArchNotesPatch.ARCH_START ++ x ++ ArchNotesPatch.ARCH_MARK
              ++ y ++ ArchNotesPatch.close_div) in *.
  subst s. rewrite slice_middle, cut_middle.
  destruct (Py.contains blk ArchNotesPatch.ARCH_MARK); [| done]. cbn [negb].
  rewrite find_zero.
  destruct (Py.find0 (pre ++ post) ArchNotesPatch.needle) as [pos|] eqn:Hpos;
    [| done].
  destruct (find0_Some_first _ _ _ Hpos) as (p & t3 & Hps & Hlp & Hp).
  subst pos. rewrite Hps.
  destruct (Py.find _ [nl] (length p)) as [line_end|] eqn:Hnl; [| done].
  assert (clash_free ArchNotesPatch.needle [nl] = true) as Hfree3
    by (vm_compute; reflexivity).
  destruct (find_after p _ t3 _ line_end Hfree3 Hnl) as (q & d & -> & -> & Hq).
  destruct (Py.contains _ ArchNotesPatch.guard_comment) eqn:Hprobe; [done |].
  intros Hout. apply Wrote_inj in Hout. subst out.
  exists pre, x, y, post, p, q, d.
  split; [reflexivity |]. split; [reflexivity |].
  split; [exact Hx |]. split; [exact Hy |]. split; [exact Hps |].
  split; [by rewrite Hps |]. split; [exact Hq |].
  split; [by rewrite Hps |].
  assert (Hfront : p ++ ArchNotesPatch.needle ++ q ++ [nl] ++ d
                   = (p ++ ArchNotesPatch.needle ++ q ++ [nl]) ++ d)
    by (by rewrite <- !app_assoc).
  rewrite Hfront.
  rewrite (take_upto (p ++ ArchNotesPatch.needle ++ q ++ [nl]) d)
    by (rewrite !length_app; cbn; lia).
  rewrite (drop_past (p ++ ArchNotesPatch.needle ++ q ++ [nl]) d)
    by (rewrite !length_app; cbn; lia).
  by rewrite <- !app_assoc.
Qed.

(** X16. When the script rewrites the page, it has cut out of the text it
    read the span from the first notes container through the first closing
    tag after the notes marker, has found no guard comment in what is left,
    and has inserted the guard block right below the line that declares
    [numbers]; the rest of the text is as read, so the text changes in size
    by the block put in less the span cut out. *)
Theorem arch_notes_patch_cuts_and_inserts (file out : list ascii) :
  ArchNotesPatch.main (Some file) = Wrote out →
  let s := Py.read_text file in
  ∃ pre x y post c d,
    s = pre ++ (ArchNotesPatch.ARCH_START ++ x ++ ArchNotesPatch.ARCH_MARK
                ++ y ++ ArchNotesPatch.close_div) ++ post
    ∧ Py.find0 s ArchNotesPatch.ARCH_START = Some (length pre)
    ∧ Py.find0 (x ++ ArchNotesPatch.ARCH_MARK ++ y ++ ArchNotesPatch.close_div
                ++ post) ArchNotesPatch.ARCH_MARK = Some (length x)
    ∧ Py.find0 (y ++ ArchNotesPatch.close_div ++ post) ArchNotesPatch.close_div
      = Some (length y)
    ∧ pre ++ post = c ++ d
    ∧ (∃ p q, c = p ++ ArchNotesPatch.needle ++ q ++ [nl]
              ∧ Py.find0 (pre ++ post) ArchNotesPatch.needle = Some (length p)
              ∧ Py.find0 (q ++ [nl] ++ d) [nl] = Some (length q))
    ∧ Py.contains (pre ++ post) ArchNotesPatch.guard_comment = false
    ∧ out = c ++ ArchNotesPatch.guard_block ++ d
    ∧ (length out
       + length (ArchNotesPatch.ARCH_START ++ x ++ ArchNotesPatch.ARCH_MARK
                 ++ y ++ ArchNotesPatch.close_div)
       = length s + length ArchNotesPatch.guard_block)%nat.
Proof.
  intros Hrun s. unfold ArchNotesPatch.main in Hrun. fold s in Hrun.
  clearbody s.
  destruct (arch_notes_run s out Hrun)
    as (pre & x & y & post & p & q & d
        & Hs & Hstart & Hx & Hy & Hrest & Hp & Hq & Hprobe & Hout).
  exists pre, x, y, post, (p ++ ArchNotesPatch.needle ++ q ++ [nl]), d.
  split; [exact Hs |]. split; [exact Hstart |].
  split; [exact Hx |]. split; [exact Hy |].
  split; [by rewrite Hrest, <- !app_assoc |].
  split; [by exists p, q |].
  split; [exact Hprobe |].
  split; [by rewrite Hout, <- !app_assoc |].
  apply (f_equal length) in Hrest.
  rewrite Hs, Hout. rewrite !length_app in *. cbn [length] in *. lia.
Qed.

(** X17. The script's safety check on the removed span can never fail: the
    span it cuts always holds the notes marker, so no run ends with the
    message of that check. *)
Theorem arch_notes_safety_check_never_fires (file : option (list ascii)) :
  aborted_with (ArchNotesPatch.main file)
    "ERROR: safety check failed; removal block did not contain marker" = false.
Proof.
  destruct file as [stored|]; [| reflexivity].
  unfold ArchNotesPatch.main. generalize (Py.read_text stored). intros s.
  unfold ArchNotesPatch.edit. rewrite find_zero.
  destruct (Py.find0 s ArchNotesPatch.ARCH_START) as [start_idx|] eqn:Hstart;
    [| reflexivity].
  destruct (Py.find s ArchNotesPatch.ARCH_MARK start_idx) as [mark_idx|]
    eqn:Hmark; [| reflexivity].
  destruct (Py.find s ArchNotesPatch.close_div mark_idx) as [e|] eqn:Hdiv;
    [| reflexivity].
  destruct (arch_notes_span s start_idx mark_idx e Hstart Hmark Hdiv)
    as (pre & x & y & post & Hs & -> & Hend & _).
  cbn zeta. rewrite Hend. subst s. rewrite slice_middle.
  assert (Py.contains
            (ArchNotesPatch.ARCH_START ++ x ++ ArchNotesPatch.ARCH_MARK
             ++ y ++ ArchNotesPatch.close_div) ArchNotesPatch.ARCH_MARK = true)
    as ->.
  { apply contains_true.
    exists (ArchNotesPatch.ARCH_START ++ x), (y ++ ArchNotesPatch.close_div).
    by rewrite <- !app_assoc. }
  cbn [negb].
  repeat (match goal with
          | |- context [match ?o with Some _ => _ | None => _ end] => destruct o
          | |- context [if ?c then _ else _] => destruct c
          end); reflexivity.
Qed.

Lemma find0_nil (sub : list ascii) : sub ≠ [] → Py.find0 [] sub = None.
Proof. by destruct sub. Qed.

(** A count of two means two occurrences, found one after the other, and
    none after the second. *)
Lemma count_two (s sub : list ascii) :
  sub ≠ [] → Py.count s sub = 2%nat →
  ∃ p0 p1 p2,
    s = p0 ++ sub ++ p1 ++ sub ++ p2
    ∧ Py.find0 s sub = Some (length p0)
    ∧ Py.find0 (p1 ++ sub ++ p2) sub = Some (length p1)
    ∧ Py.find0 p2 sub = None.
Proof.
  intros Hsub. unfold Py.count.
  destruct (length s) as [|f1] eqn:Hlen; [done |]. cbn [Py.count_upto].
  destruct (Py.find0 s sub) as [i|] eqn:Hi; [| done].
  destruct (find0_Some_first _ _ _ Hi) as (p0 & r1 & Hs & Hl0 & _).
  assert (drop (i + length sub) s = r1) as ->.
  { rewrite Hs, app_assoc. apply drop_past. rewrite length_app. lia. }
  destruct f1 as [|f2]; [done |]. cbn [Py.count_upto].
  destruct (Py.find0 r1 sub) as [j|] eqn:Hj; [| done].
  destruct (find0_Some_first _ _ _ Hj) as (p1 & p2 & Hr1 & Hl1 & _).
  assert (drop (j + length sub) r1 = p2) as ->.
  { rewrite Hr1, app_assoc. apply drop_past. rewrite length_app. lia. }
  intros Hcount. exists p0, p1, p2.
  split; [by rewrite Hs, Hr1 |]. split; [by rewrite Hl0 |].
  split; [by rewrite <- Hr1, Hl1 |].
  destruct f2 as [|f3].
  - assert (length sub <> 0)%nat by (destruct sub; [done | cbn; lia]).
    assert (length p2 = 0)%nat as Hp2.
    { rewrite Hs, Hr1, !length_app in Hlen. lia. }
    destruct p2; [by apply find0_nil | done].
  - cbn [Py.count_upto] in Hcount. by destruct (Py.find0 p2 sub).
Qed.

(** X18. The script writes [sync.ts] only when the gate line occurs exactly
    twice in the text it has read, and then puts the charge block right
    after each of the two gate lines, leaving the rest of the text as read;
    on any other count it aborts and reports the count. *)
Theorem gate_charge_patch_fills_both_gates (file : list ascii) :
  let s := Py.read_text file in
  match GateChargePatch.run file with
  | Wrote out =>
      ∃ p0 p1 p2,
        s = p0 ++ GateChargePatch.needle ++ p1 ++ GateChargePatch.needle ++ p2
        ∧ Py.find0 s GateChargePatch.needle = Some (length p0)
        ∧ Py.find0 (p1 ++ GateChargePatch.needle ++ p2) GateChargePatch.needle
          = Some (length p1)
        ∧ Py.contains p2 GateChargePatch.needle = false
        ∧ out = p0 ++ GateChargePatch.needle ++ GateChargePatch.charge_block
                ++ p1 ++ GateChargePatch.needle ++ GateChargePatch.charge_block
                ++ p2
  | Aborted m =>
      Py.count s GateChargePatch.needle ≠ 2%nat
      ∧ m = "Expected 2 occurrences of approvalNotifiedAt gate, found "
            +:+ pretty (Py.count s GateChargePatch.needle) +:+ ". Aborting."
  end.
Proof.
  intros s. unfold GateChargePatch.run. fold s. clearbody s.
  unfold GateChargePatch.edit.
  destruct (Py.count s GateChargePatch.needle =? 2)%nat eqn:Hc; cbn [negb].
  - apply Nat.eqb_eq in Hc.
    destruct (count_two s GateChargePatch.needle ltac:(done) Hc)
      as (p0 & p1 & p2 & Hs & H0 & H1 & H2).
    exists p0, p1, p2. split; [exact Hs |]. split; [exact H0 |].
    split; [exact H1 |]. split; [by apply contains_false |].
    cbn [Py.replace]. rewrite H0.
    assert (take (length p0) s = p0) as -> by (rewrite Hs; apply take_app_length).
    assert (drop (length p0 + length GateChargePatch.needle) s
            = p1 ++ GateChargePatch.needle ++ p2) as ->.
    { rewrite Hs, app_assoc. apply drop_past. rewrite length_app. lia. }
    rewrite H1, take_app_length.
    assert (drop (length p1 + length GateChargePatch.needle)
              (p1 ++ GateChargePatch.needle ++ p2) = p2) as ->.
    { rewrite app_assoc. apply drop_past. rewrite length_app. lia. }
    unfold GateChargePatch.insertion. by rewrite <- !app_assoc.
  - apply Nat.eqb_neq in Hc. done.
Qed.

(** X19. The script rewrites [sync.ts] only when the old scan line occurs in
    the text it has read, and then replaces its first occurrence by the new
    line and leaves the rest of the text as read; without the line it
    aborts. *)
Theorem scan_status_patch_rewrites_first_line (file : list ascii) :
  let s := Py.read_text file in
  match ScanStatusPatch.run file with
  | Wrote out =>
      ∃ pre post,
        s = pre ++ ScanStatusPatch.old ++ post
        ∧ Py.find0 s ScanStatusPatch.old = Some (length pre)
        ∧ out = pre ++ ScanStatusPatch.new ++ post
  | Aborted m =>
      Py.contains s ScanStatusPatch.old = false
      ∧ m = "ERROR: expected scan campaignStatus line not found. Aborting."
  end.
Proof.
  intros s. unfold ScanStatusPatch.run. fold s. clearbody s.
  unfold ScanStatusPatch.edit.
  destruct (Py.contains s ScanStatusPatch.old) eqn:Hc; cbn [negb]; [| done].
  unfold Py.contains in Hc. apply bool_decide_eq_true in Hc as [i Hi].
  destruct (find0_Some_first _ _ _ Hi) as (pre & post & Hs & Hl & _).
  exists pre, post. split; [exact Hs |]. split; [by rewrite Hi, Hl |].
  cbn [Py.replace]. rewrite Hi, <- Hl.
  assert (take (length pre) s = pre) as -> by (rewrite Hs; apply take_app_length).
  f_equal. f_equal. rewrite Hs, app_assoc. apply drop_past.
  by rewrite length_app.
Qed.


(** X20. The script writes [sync.ts] only when the charge block occurs
    exactly twice in the text it has read, and then deletes those two
    occurrences and leaves the rest of the text as read; on any other count
    it aborts and reports the count. *)
Theorem remove_blocks_patch_deletes_both (file : list ascii) :
  let s := Py.read_text file in
  match RemoveBlocksPatch.run file with
  | Wrote out =>
      ∃ p0 p1 p2,
        s = p0 ++ RemoveBlocksPatch.block ++ p1 ++ RemoveBlocksPatch.block ++ p2
        ∧ Py.find0 s RemoveBlocksPatch.block = Some (length p0)
        ∧ Py.find0 (p1 ++ RemoveBlocksPatch.block ++ p2) RemoveBlocksPatch.block
          = Some (length p1)
        ∧ Py.contains p2 RemoveBlocksPatch.block = false
        ∧ out = p0 ++ p1 ++ p2
  | Aborted m =>
      Py.count s RemoveBlocksPatch.block ≠ 2%nat
      ∧ m = "Expected to find the inserted block exactly 2 times, found "
            +:+ pretty (Py.count s RemoveBlocksPatch.block) +:+ ". Aborting."
  end.
Proof.
  intros s. unfold RemoveBlocksPatch.run. fold s. clearbody s.
  unfold RemoveBlocksPatch.edit. cbn zeta.
  destruct (Py.count s RemoveBlocksPatch.block =? 2)%nat eqn:Hc; cbn [negb].
  - apply Nat.eqb_eq in Hc.
    destruct (count_two s RemoveBlocksPatch.block ltac:(done) Hc)
      as (p0 & p1 & p2 & Hs & H0 & H1 & H2).
    exists p0, p1, p2. split; [exact Hs |]. split; [exact H0 |].
    split; [exact H1 |]. split; [by apply contains_false |].
    cbn [Py.replace]. rewrite H0.
    assert (take (length p0) s = p0) as -> by (rewrite Hs; apply take_app_length).
    assert (drop (length p0 + length RemoveBlocksPatch.block) s
            = p1 ++ RemoveBlocksPatch.block ++ p2) as ->.
    { rewrite Hs, app_assoc. apply drop_past. rewrite length_app. lia. }
    rewrite H1, take_app_length.
    assert (drop (length p1 + length RemoveBlocksPatch.block)
              (p1 ++ RemoveBlocksPatch.block ++ p2) = p2) as ->.
    { rewrite app_assoc. apply drop_past. rewrite length_app. lia. }
    reflexivity.
  - apply Nat.eqb_neq in Hc. done.
Qed.

(** *** The two scripts of the dial session page in turn *)

Lemma contains_head (a tail sub : list ascii) :
  Py.contains (a ++ tail) sub = false → Py.contains a sub = false.
Proof.
  intros Hno. destruct (Py.contains a sub) eqn:Ha; [| done].
  apply contains_true in Ha as (p & q & ->).
  assert (Py.contains ((p ++ sub ++ q) ++ tail) sub = true) as Hyes.
  { apply contains_true. exists p, (q ++ tail). by rewrite <- !app_assoc. }
  congruence.
Qed.

(** Text after the window a comparison looks at does not change it. *)
Lemma startswith_within (a t sub : list ascii) :
  (length sub <= length a)%nat →
  Py.startswith (a ++ t) sub = Py.startswith a sub.
Proof.
  revert a. induction sub as [|ch sub IH]; intros a Hlen; [done |].
  destruct a as [|d a]; cbn in Hlen; [lia |].
  cbn. rewrite IH by lia. done.
Qed.

(** What is found in a text is found at the same place when the text goes
    on. *)
Lemma find0_app_l (s t sub : list ascii) (i : nat) :
  Py.find0 s sub = Some i → Py.find0 (s ++ t) sub = Some i.
Proof.
  intros Hi. destruct (find0_Some _ _ _ Hi) as (Hcut & Hb & Hfirst).
  assert (length (take i s) = i) as Hl by (rewrite length_take; lia).
  assert (take i s ++ sub ++ drop (i + length sub) s ++ t = s ++ t) as Hst.
  { rewrite !app_assoc. rewrite <- (app_assoc (take i s) sub). by rewrite <- Hcut. }
  pose proof (find0_first (take i s) sub (drop (i + length sub) s ++ t)) as Hff.
  rewrite Hst, Hl in Hff. apply Hff. intros j Hj.
  rewrite drop_app_le by lia.
  rewrite startswith_within by (rewrite length_drop; lia).
  by apply Hfirst.
Qed.

(** Two texts cut at the same character, the second having none before the
    cut: the second's head begins the first's. *)
Lemma cut_at_char (x1 x2 y1 y2 : list ascii) (ch : ascii) :
  x1 ++ ch :: x2 = y1 ++ ch :: y2 → ch ∉ y1 → ∃ k, x1 = y1 ++ k.
Proof.
  intros Heq Hnot. apply app_eq_inv in Heq as [(k & Hx & _) | (k & Hy & Hk)].
  - by exists k.
  - destruct k as [|c k].
    + exists []. by rewrite Hy, !app_nil_r.
    + injection Hk as <- _. exfalso. apply Hnot. rewrite Hy. set_solver.
Qed.

Lemma guard_block_shape :
  ArchNotesPatch.guard_block
  = [nl] ++ MoveGuardPatch.MARK ++ guard_body ++ MoveGuardPatch.END.
Proof. vm_compute. reflexivity. Qed.

(** The comment line the second script looks for: the comment the first
    script probes for, within one line. *)
Lemma mark_shape :
  MoveGuardPatch.MARK
  = (txt "  // If switching accounts, " ++ ArchNotesPatch.guard_comment
     ++ txt ".") ++ [nl]
  ∧ nl ∉ txt "  // If switching accounts, " ++ ArchNotesPatch.guard_comment
         ++ txt ".".
Proof.
  split; [vm_compute; reflexivity |].
  apply (bool_decide_unpack _). vm_compute. reflexivity.
Qed.

(** In a page that held no guard comment, the comment line of the inserted
    block is the first one. *)
Lemma inserted_mark_is_first (c rest : list ascii) :
  Py.contains c ArchNotesPatch.guard_comment = false →
  Py.find0 (c ++ [nl] ++ MoveGuardPatch.MARK ++ rest) MoveGuardPatch.MARK
  = Some (length c + 1)%nat.
Proof.
  intros Hno.
  replace (length c + 1)%nat with (length (c ++ [nl]))
    by (rewrite length_app; done).
  rewrite (app_assoc c [nl]). apply find0_first.
  intros j Hj. rewrite length_app in Hj. cbn in Hj.
  destruct (Py.startswith _ MoveGuardPatch.MARK) eqn:Hs; [| done]. exfalso.
  apply startswith_prefix in Hs as [r Hr].
  rewrite <- app_assoc in Hr. rewrite drop_app_le in Hr by lia.
  destruct mark_shape as (HM & Hnl). rewrite HM in Hr at 2.
  rewrite <- !app_assoc in Hr. cbn [app] in Hr.
  set (m1 := txt "  // If switching accounts, ") in *.
  set (m2 := txt ".") in *.
  assert (drop j c ++ nl :: MoveGuardPatch.MARK ++ rest
          = (m1 ++ ArchNotesPatch.guard_comment ++ m2) ++ nl :: r) as Hr'.
  { rewrite Hr. by rewrite <- !app_assoc. }
  destruct (cut_at_char _ _ _ _ _ Hr' Hnl) as (k & Hk).
  assert (Py.contains c ArchNotesPatch.guard_comment = true) as Hyes.
  { apply contains_true. exists (take j c ++ m1), (m2 ++ k).
    rewrite <- (take_drop j c) at 1. rewrite Hk. by rewrite <- !app_assoc. }
  congruence.
Qed.

(** The closing line of the inserted block is the first one after its
    comment line. *)
Lemma inserted_end_is_first (d : list ascii) :
  Py.find0 (guard_body ++ MoveGuardPatch.END ++ d) MoveGuardPatch.END
  = Some (length guard_body).
Proof.
  rewrite app_assoc. apply find0_app_l. vm_compute. reflexivity.
Qed.

(** A text made of texts without CR holds none. *)
Lemma guard_block_no_cr : cr ∉ ArchNotesPatch.guard_block.
Proof. apply (bool_decide_unpack _). vm_compute. reflexivity. Qed.

(** X21. Run on the page the first script has just written, the second
    script picks up exactly the guard block the first one inserted: when it
    writes, the block is gone from below the [numbers] line, where an empty
    line is left, and stands in full right below the line of the first
    declaration of [selectedFromNumber]; the rest of the page is as the
    first script left it. *)
Theorem moved_block_is_the_inserted_one (crlf : bool)
  (file out out' : list ascii) :
  ArchNotesPatch.main (Some file) = Wrote out →
  MoveGuardPatch.main (Some (Py.write_text crlf out)) = Wrote out' →
  ∃ c d p q d',
    out = c ++ ArchNotesPatch.guard_block ++ d
    ∧ Py.contains (c ++ d) ArchNotesPatch.guard_comment = false
    ∧ c ++ [nl] ++ d = p ++ MoveGuardPatch.anchor2 ++ q ++ [nl] ++ d'
    ∧ (Py.find0 (c ++ [nl] ++ d) MoveGuardPatch.anchor = Some (length p)
       ∨ Py.find0 (c ++ [nl] ++ d) MoveGuardPatch.anchor = None
         ∧ Py.find0 (c ++ [nl] ++ d) MoveGuardPatch.anchor2 = Some (length p))
    ∧ Py.find0 (q ++ [nl] ++ d') [nl] = Some (length q)
    ∧ out' = p ++ MoveGuardPatch.anchor2 ++ q ++ [nl]
             ++ ArchNotesPatch.guard_block ++ d'.
Proof.
  intros Harch Hmove. unfold ArchNotesPatch.main in Harch.
  pose proof (read_text_no_cr file) as Hcr.
  destruct (arch_notes_run _ out Harch)
    as (pre & x & y & post & p0 & q0 & d
        & Hs & _ & _ & _ & Hrest & _ & _ & Hprobe & Hout).
  set (c := p0 ++ ArchNotesPatch.needle ++ q0 ++ [nl]).
  assert (out = c ++ ArchNotesPatch.guard_block ++ d) as Hout1
    by (unfold c; by rewrite Hout, <- !app_assoc).
  assert (pre ++ post = c ++ d) as Hrest1
    by (unfold c; by rewrite Hrest, <- !app_assoc).
  assert (Py.contains (c ++ d) ArchNotesPatch.guard_comment = false) as Hprobe1
    by (by rewrite <- Hrest1).
  assert (cr ∉ out) as Hplain.
  { rewrite Hs in Hcr. rewrite !not_elem_of_app in Hcr.
    assert (cr ∉ c ++ d) as Hcd
      by (rewrite <- Hrest1, not_elem_of_app; tauto).
    rewrite Hout1, !not_elem_of_app. rewrite not_elem_of_app in Hcd.
    pose proof guard_block_no_cr. tauto. }
  clearbody c. clear Hout Hrest Hrest1 Hprobe Hs Hcr Harch.
  unfold MoveGuardPatch.main in Hmove. rewrite (read_written crlf out Hplain) in Hmove.
  destruct (move_guard_run out out' Hmove)
    as (a & x' & b & p & q & d'
        & Hs & Hmark & Hend & Hab & Hpin & Hq & _ & _ & Hout').
  assert (out = (c ++ [nl]) ++ MoveGuardPatch.MARK
                ++ guard_body ++ MoveGuardPatch.END ++ d) as Hout2.
  { rewrite Hout1, guard_block_shape. by rewrite <- !app_assoc. }
  assert (length a = length (c ++ [nl])) as Hlen.
  { assert (Py.find0 out MoveGuardPatch.MARK = Some (length c + 1)%nat) as Hfirst.
    { rewrite Hout2, <- app_assoc.
      apply inserted_mark_is_first. by eapply contains_head. }
    rewrite Hmark in Hfirst. injection Hfirst as ->. by rewrite length_app. }
  rewrite Hout2 in Hs. rewrite <- !app_assoc in Hs.
  rewrite (app_assoc c [nl]) in Hs.
  apply app_inj_1 in Hs as [Ha Hs]; [| done]. subst a.
  apply app_inv_head in Hs.
  assert (length x' = length guard_body) as Hlx.
  { rewrite <- Hs, inserted_end_is_first in Hend. by injection Hend. }
  apply app_inj_1 in Hs as [Hx Hs]; [| done]. subst x'.
  apply app_inv_head in Hs. subst b.
  rewrite <- !app_assoc in Hab, Hpin.
  exists c, d, p, q, d'.
  split; [exact Hout1 |]. split; [exact Hprobe1 |].
  split; [by rewrite <- Hab |]. split; [exact Hpin |]. split; [exact Hq |].
  rewrite Hout', guard_block_shape. by rewrite <- !app_assoc.
Qed.

End ScriptProperties.

(** On the small page, stored with CR LF line ends, the guard is moved below
    the declaration, and nothing but a newline is added to the text read. *)
Lemma move_guard_only_moves_text_witness :
  (nl :: MoveGuardPatch.sample) ≡ₚ MoveGuardPatch.sample_moved.
Proof.
  destruct (move_guard_only_moves_text
              (Py.write_text true MoveGuardPatch.sample)
              MoveGuardPatch.sample_moved) as (Hperm & _).
  - vm_compute. reflexivity.
  - exact Hperm.
Defined.

(** On the small page, stored with CR LF line ends, the notes container is
    gone and the guard block is in. *)
Lemma arch_notes_patch_cuts_and_inserts_witness :
  Py.contains ArchNotesPatch.sample_patched ArchNotesPatch.guard_block = true.
Proof.
  destruct (arch_notes_patch_cuts_and_inserts
              (Py.write_text true ArchNotesPatch.sample)
              ArchNotesPatch.sample_patched)
    as (pre & x & y & post & c & d & _ & _ & _ & _ & _ & _ & _ & Hout & _).
  - vm_compute. reflexivity.
  - rewrite Hout. apply contains_true. by exists c, d.
Defined.

(** On the small page declared above, written with CR LF line ends between
    the two runs, the guard block is moved in full. *)
Lemma moved_block_is_the_inserted_one_witness :
  Py.contains dial_page_moved ArchNotesPatch.guard_block = true.
Proof.
  destruct (moved_block_is_the_inserted_one true dial_page dial_page_patched
              dial_page_moved)
    as (c & d & p & q & d' & _ & _ & _ & _ & _ & Hout).
  - vm_compute. reflexivity.
  - vm_compute. reflexivity.
  - rewrite Hout. apply contains_true.
    exists (p ++ MoveGuardPatch.anchor2 ++ q ++ [nl])%list, d'.
    by rewrite <- !app_assoc.
Defined.

(** ** Running a script again *)

Section Reruns.
Local Open Scope list_scope.

(** A rest of [a] cannot begin a text that begins with [b]. *)
Lemma no_overlap (a b rest : list ascii) (k : nat) :
  clash_free a b = true → (k < length a)%nat →
  ¬ drop k a `prefix_of` b ++ rest.
Proof.
  intros Hfree Hk P1. unfold clash_free in Hfree.
  rewrite forallb_forall in Hfree. specialize (Hfree k).
  rewrite in_seq in Hfree. specialize (Hfree ltac:(lia)).
  apply negb_true_iff, orb_false_iff in Hfree as [H1 H2].
  assert (b `prefix_of` b ++ rest) as P2 by (by exists rest).
  destruct (prefix_weak_total _ _ _ P1 P2) as [[x Hx] | [x Hx]].
  - assert (Py.startswith b (drop k a) = true)
      by (apply startswith_prefix; by exists x).
    congruence.
  - assert (Py.startswith (drop k a) b = true)
      by (apply startswith_prefix; by exists x).
    congruence.
Qed.

(** Where the first occurrence lies does not depend on what follows it. *)
Lemma find0_same_head (p sub x y : list ascii) :
  Py.find0 (p ++ sub ++ x) sub = Some (length p) →
  Py.find0 (p ++ sub ++ y) sub = Some (length p).
Proof.
  intros Hx. destruct (find0_Some _ _ _ Hx) as (_ & _ & Hfirst).
  apply find0_first. intros j Hj. specialize (Hfirst j Hj).
  rewrite app_assoc in Hfirst |- *.
  rewrite drop_app_le in Hfirst |- * by (rewrite length_app; lia).
  rewrite startswith_within in Hfirst |- *
    by (rewrite length_drop, length_app; lia).
  done.
Qed.

(** A search for [b] skips a text in which [b] cannot begin. *)
Lemma find0_past (a t b : list ascii) :
  clash_free a b = true →
  Py.find0 (a ++ t) b = (λ i, (length a + i)%nat) <$> Py.find0 t b.
Proof.
  intros Hfree. destruct (Py.find0 (a ++ t) b) as [e|] eqn:He.
  - assert (Py.find ([] ++ a ++ t) b (length (@nil ascii)) = Some e) as Hf
      by (cbn [app length]; by rewrite find_zero).
    destruct (find_after [] a t b e Hfree Hf) as (mid & post & -> & -> & Hmid).
    by rewrite Hmid.
  - apply contains_false in He. apply contains_tail in He.
    apply contains_false in He. by rewrite He.
Qed.

(** Replacing every [old] by a [new] that neither holds nor completes an
    [old] leaves no [old] behind. *)
Lemma replace_all_clears (old new : list ascii) :
  old ≠ [] →
  clash_free new old = true → clash_free old new = true →
  ∀ n s, (length s <= n)%nat →
         Py.contains (Py.replace n s old new) old = false.
Proof.
  intros Hne Hno Hon. induction n as [|n IH]; intros s Hlen.
  - destruct s; [| cbn in Hlen; lia]. cbn. apply contains_false.
    by apply find0_nil.
  - cbn [Py.replace]. destruct (Py.find0 s old) as [i|] eqn:Hi;
      [| by apply contains_false].
    destruct (find0_Some _ _ _ Hi) as (Hcut & Hb & Hfirst).
    set (pre := take i s) in *. set (tail := drop (i + length old) s) in *.
    assert (length pre = i) as Hpre by (unfold pre; rewrite length_take; lia).
    assert (0 < length old)%nat as Hold by (destruct old; [done | cbn; lia]).
    assert (Py.contains (Py.replace n tail old new) old = false) as HR.
    { apply IH. unfold tail. rewrite length_drop. lia. }
    set (R := Py.replace n tail old new) in *.
    destruct (Py.contains (pre ++ new ++ R) old) eqn:Hc; [| done]. exfalso.
    unfold Py.contains in Hc. apply bool_decide_eq_true in Hc as [e He].
    destruct (find0_Some _ _ _ He) as (Hcut' & Hb' & _).
    assert (old `prefix_of` drop e (pre ++ new ++ R)) as Hocc.
    { rewrite Hcut'. rewrite drop_app_length' by (rewrite length_take; lia).
      by eexists. }
    destruct (decide (e < length pre)%nat) as [He1|He1].
    + rewrite drop_app_le in Hocc by lia. destruct Hocc as [r Hr].
      destruct (decide (length old <= length (drop e pre))%nat) as [Hin|Hout].
      * assert (Py.startswith (drop e s) old = true) as Hs.
        { apply startswith_prefix.
          apply (f_equal (take (length old))) in Hr.
          rewrite take_app_le, take_app_length in Hr by lia.
          rewrite Hcut. fold pre. rewrite drop_app_le by lia.
          rewrite <- (take_drop (length old) (drop e pre)), Hr.
          rewrite <- app_assoc. by eexists. }
        rewrite Hfirst in Hs by lia. done.
      * apply (no_overlap old new R (length (drop e pre)) Hon); [lia |].
        exists r. apply (f_equal (drop (length (drop e pre)))) in Hr.
        rewrite drop_app_length in Hr. rewrite Hr.
        by rewrite drop_app_le by lia.
    + destruct (decide (e < length pre + length new)%nat) as [He2|He2].
      * replace e with (length pre + (e - length pre))%nat in Hocc by lia.
        rewrite drop_app_add in Hocc.
        assert (Py.startswith (drop (e - length pre) (new ++ R)) old = true)
          as Hs by (apply startswith_prefix; destruct Hocc as [r Hr]; by exists r).
        rewrite (no_clash new old R (e - length pre) Hno) in Hs by lia. done.
      * replace e with (length (pre ++ new) + (e - length (pre ++ new)))%nat
          in Hocc by (rewrite length_app; lia).
        rewrite app_assoc, drop_app_add in Hocc.
        assert (Py.contains R old = true) as HR'.
        { apply contains_true. destruct Hocc as [r Hr].
          exists (take (e - length (pre ++ new)) R), r.
          rewrite <- Hr. by rewrite take_drop. }
        congruence.
Qed.


Lemma replace_none (n : nat) (s old new : list ascii) :
  Py.find0 s old = None → Py.replace n s old new = s.
Proof. intros Hn. destruct n; [done |]. cbn. by rewrite Hn. Qed.

Lemma replace_first (n : nat) (pre old post new : list ascii) :
  Py.find0 (pre ++ old ++ post) old = Some (length pre) →
  Py.replace (S n) (pre ++ old ++ post) old new
  = pre ++ new ++ Py.replace n post old new.
Proof.
  intros Hf. cbn [Py.replace]. rewrite Hf, take_app_length.
  do 3 f_equal. rewrite app_assoc. apply drop_past. by rewrite length_app.
Qed.

Lemma replace_two (sub new p0 p1 p2 : list ascii) :
  Py.find0 (p0 ++ sub ++ p1 ++ sub ++ p2) sub = Some (length p0) →
  Py.find0 (p1 ++ sub ++ p2) sub = Some (length p1) →
  Py.replace 2 (p0 ++ sub ++ p1 ++ sub ++ p2) sub new
  = p0 ++ new ++ p1 ++ new ++ p2.
Proof.
  intros H0 H1. rewrite (replace_first 1 p0 sub _ new H0).
  by rewrite (replace_first 0 p1 sub _ new H1).
Qed.

Lemma count_is_two (sub p0 p1 p2 : list ascii) :
  sub ≠ [] →
  Py.find0 (p0 ++ sub ++ p1 ++ sub ++ p2) sub = Some (length p0) →
  Py.find0 (p1 ++ sub ++ p2) sub = Some (length p1) →
  Py.find0 p2 sub = None →
  Py.count (p0 ++ sub ++ p1 ++ sub ++ p2) sub = 2%nat.
Proof.
  intros Hne H0 H1 H2. unfold Py.count.
  assert (0 < length sub)%nat as Hsub by (destruct sub; [done | cbn; lia]).
  destruct (length (p0 ++ sub ++ p1 ++ sub ++ p2)) as [|[|f]] eqn:Hlen;
    [rewrite !length_app in Hlen; lia | rewrite !length_app in Hlen; lia |].
  cbn [Py.count_upto]. rewrite H0.
  assert (drop (length p0 + length sub) (p0 ++ sub ++ p1 ++ sub ++ p2)
          = p1 ++ sub ++ p2) as ->.
  { rewrite app_assoc. apply drop_past. by rewrite length_app. }
  rewrite H1.
  assert (drop (length p1 + length sub) (p1 ++ sub ++ p2) = p2) as ->.
  { rewrite app_assoc. apply drop_past. by rewrite length_app. }
  destruct f; [done |]. cbn [Py.count_upto]. by rewrite H2.
Qed.

(** A text cut at every occurrence of [old], from left to right: pieces
    each followed by an [old] that occurs nowhere earlier in them, then a
    rest without [old].  Replacing puts a [new] after each piece. *)
Lemma replace_all_pieces (old new : list ascii) :
  old ≠ [] →
  ∀ n s, (length s <= n)%nat →
    ∃ pieces rest,
      s = concat ((λ g, g ++ old) <$> pieces) ++ rest
      ∧ Forall (λ g, Py.find0 (g ++ old) old = Some (length g)) pieces
      ∧ Py.find0 rest old = None
      ∧ Py.replace n s old new = concat ((λ g, g ++ new) <$> pieces) ++ rest.
Proof.
  intros Hne. induction n as [|n IH]; intros s Hlen.
  - destruct s; [| cbn in Hlen; lia]. exists [], [].
    split; [done |]. split; [done |]. split; [by apply find0_nil | done].
  - destruct (Py.find0 s old) as [i|] eqn:Hi.
    + destruct (find0_Some_first _ _ _ Hi) as (g & tail & Hs & Hl & Hf).
      assert (0 < length old)%nat as Hold by (destruct old; [done | cbn; lia]).
      destruct (IH tail) as (pieces & rest & Ht & Hall & Hrest & Hrep).
      { rewrite Hs, !length_app in Hlen. lia. }
      exists (g :: pieces), rest. cbn [fmap list_fmap concat].
      split; [by rewrite Hs, Ht at 1; rewrite <- !app_assoc |].
      split.
      { constructor; [| done].
        rewrite <- (app_nil_r (g ++ old)), <- app_assoc.
        by apply (find0_same_head g old tail []). }
      split; [done |].
      rewrite Hs, (replace_first n g old tail new Hf), Hrep.
      by rewrite <- !app_assoc.
    + exists [], s. split; [done |]. split; [done |]. split; [done |].
      by apply replace_none.
Qed.

(** Replacing by a text without CR in a text without CR gives one. *)
Lemma replace_no_cr (old new : list ascii) (n : nat) (s : list ascii) :
  cr ∉ new → cr ∉ s → cr ∉ Py.replace n s old new.
Proof.
  intros Hnew. revert s. induction n as [|n IH]; intros s Hs; [done |].
  cbn [Py.replace]. destruct (Py.find0 s old) as [i|]; [| done].
  rewrite !not_elem_of_app. split; [| split; [done |]].
  - intros Hin. apply Hs. by eapply (subseteq_take i s).
  - apply IH. intros Hin. apply Hs. by eapply (subseteq_drop _ s).
Qed.

(** X22. The guard script writes [status-callback.ts] only when the old
    charge block occurs in the text it has read.  Cut at the old blocks from
    left to right, the text is a row of pieces each ended by an old block,
    and a rest without one; what the script writes is the same pieces each
    ended by the guarded block, and the same rest: every old block has
    become a guarded one, no old block is made by the joins, and nothing
    else changes.  Run again on the file it wrote, the script aborts: it
    cannot be applied twice. *)
Theorem guard_patch_replaces_every_block (crlf : bool) (file : list ascii) :
  let s := Py.read_text file in
  match GuardChargePatch.run file with
  | Wrote out =>
      (∃ pieces rest,
         pieces ≠ []
         ∧ s = concat ((λ g, g ++ GuardChargePatch.old) <$> pieces) ++ rest
         ∧ Forall (λ g, Py.find0 (g ++ GuardChargePatch.old)
                          GuardChargePatch.old = Some (length g)) pieces
         ∧ Py.contains rest GuardChargePatch.old = false
         ∧ out = concat ((λ g, g ++ GuardChargePatch.new) <$> pieces) ++ rest)
      ∧ Py.contains out GuardChargePatch.old = false
      ∧ GuardChargePatch.run (Py.write_text crlf out)
        = Aborted "Expected charge block not found; aborting (no changes made)."
  | Aborted m =>
      Py.contains s GuardChargePatch.old = false
      ∧ m = "Expected charge block not found; aborting (no changes made)."
  end.
Proof.
  intros s. pose proof (read_text_no_cr file) as Hcr. fold s in Hcr.
  unfold GuardChargePatch.run at 1. fold s. clearbody s.
  unfold GuardChargePatch.edit.
  destruct (Py.contains s GuardChargePatch.old) eqn:Hc; cbn [negb]; [| done].
  set (out := Py.replace (length s) s GuardChargePatch.old GuardChargePatch.new).
  assert (Py.contains out GuardChargePatch.old = false) as Hclear.
  { apply replace_all_clears; [done | | | done]; vm_compute; reflexivity. }
  assert (cr ∉ out) as Hplain.
  { apply replace_no_cr; [| done].
    apply (bool_decide_unpack _). vm_compute. reflexivity. }
  split; [| split; [exact Hclear |]].
  - destruct (replace_all_pieces GuardChargePatch.old GuardChargePatch.new
                ltac:(done) (length s) s ltac:(done))
      as (pieces & rest & Hs & Hall & Hrest & Hrep).
    exists pieces, rest.
    split.
    { intros ->. cbn in Hs. subst s.
      apply contains_false in Hrest. congruence. }
    split; [exact Hs |]. split; [exact Hall |].
    split; [by apply contains_false | exact Hrep].
  - unfold GuardChargePatch.run, GuardChargePatch.edit.
    by rewrite (read_written crlf out Hplain), Hclear.
Qed.

(** What the gate script makes of a text in which the gate line stands
    twice, and of the text it made. *)
Lemma gate_edit_twice (s out : list ascii) :
  GateChargePatch.edit s = Wrote out →
  ∃ p0 p1 p2,
    s = p0 ++ GateChargePatch.needle ++ p1 ++ GateChargePatch.needle ++ p2
    ∧ out = p0 ++ GateChargePatch.needle ++ GateChargePatch.charge_block
            ++ p1 ++ GateChargePatch.needle ++ GateChargePatch.charge_block ++ p2
    ∧ Py.count out GateChargePatch.needle = 2%nat
    ∧ GateChargePatch.edit out
      = Wrote (p0 ++ GateChargePatch.needle ++ GateChargePatch.charge_block
               ++ GateChargePatch.charge_block
               ++ p1 ++ GateChargePatch.needle ++ GateChargePatch.charge_block
               ++ GateChargePatch.charge_block ++ p2).
Proof.
  unfold GateChargePatch.edit at 1.
  destruct (Py.count s GateChargePatch.needle =? 2)%nat eqn:Hc; cbn [negb];
    [| done].
  apply Nat.eqb_eq in Hc.
  destruct (count_two s GateChargePatch.needle ltac:(done) Hc)
    as (p0 & p1 & p2 & Hs & H0 & H1 & H2). subst s.
  intros Hout. apply Wrote_inj in Hout.
  rewrite (replace_two _ _ p0 p1 p2 H0 H1) in Hout.
  set (cb := GateChargePatch.charge_block) in *.
  set (needle := GateChargePatch.needle) in *.
  assert (clash_free cb needle = true) as Hfree by (vm_compute; reflexivity).
  assert (out = p0 ++ needle ++ (cb ++ p1) ++ needle ++ (cb ++ p2)) as Hshape.
  { rewrite <- Hout. unfold GateChargePatch.insertion. fold needle cb.
    by rewrite <- !app_assoc. }
  assert (Py.find0 (p0 ++ needle ++ (cb ++ p1) ++ needle ++ (cb ++ p2)) needle
          = Some (length p0)) as G0 by (by eapply find0_same_head).
  assert (Py.find0 ((cb ++ p1) ++ needle ++ (cb ++ p2)) needle
          = Some (length (cb ++ p1))) as G1.
  { rewrite <- app_assoc, (find0_past cb _ needle Hfree).
    rewrite (find0_same_head p1 needle p2 (cb ++ p2) H1).
    cbn [fmap option_fmap option_map]. by rewrite length_app. }
  assert (Py.find0 (cb ++ p2) needle = None) as G2.
  { rewrite (find0_past cb _ needle Hfree). by rewrite H2. }
  assert (Py.count out needle = 2%nat) as Hcount.
  { rewrite Hshape. by apply count_is_two. }
  exists p0, p1, p2. split; [done |].
  split; [by rewrite Hshape, <- !app_assoc |]. split; [exact Hcount |].
  unfold GateChargePatch.edit. fold needle. rewrite Hcount. cbn [Nat.eqb negb].
  f_equal. rewrite Hshape. rewrite (replace_two _ _ p0 (cb ++ p1) (cb ++ p2) G0 G1).
  unfold GateChargePatch.insertion. fold needle cb. by rewrite <- !app_assoc.
Qed.

(** X23. The gate script does not refuse a second run.  The charge block it
    puts in holds no gate line, so the text it writes still has exactly two
    gate lines, and a run on the file it wrote writes again: each gate then
    holds the charge block twice. *)
Theorem gate_charge_patch_rerun_doubles (crlf : bool) (file out : list ascii) :
  GateChargePatch.run file = Wrote out →
  ∃ p0 p1 p2,
    Py.read_text file
    = p0 ++ GateChargePatch.needle ++ p1 ++ GateChargePatch.needle ++ p2
    ∧ out = p0 ++ GateChargePatch.needle ++ GateChargePatch.charge_block
            ++ p1 ++ GateChargePatch.needle ++ GateChargePatch.charge_block ++ p2
    ∧ Py.count out GateChargePatch.needle = 2%nat
    ∧ GateChargePatch.run (Py.write_text crlf out)
      = Wrote (p0 ++ GateChargePatch.needle ++ GateChargePatch.charge_block
               ++ GateChargePatch.charge_block
               ++ p1 ++ GateChargePatch.needle ++ GateChargePatch.charge_block
               ++ GateChargePatch.charge_block ++ p2).
Proof.
  unfold GateChargePatch.run at 1. intros Hrun.
  destruct (gate_edit_twice _ out Hrun) as (p0 & p1 & p2 & Hs & Hout & Hc & Hagain).
  exists p0, p1, p2.
  split; [exact Hs |]. split; [exact Hout |]. split; [exact Hc |].
  assert (cr ∉ out) as Hplain.
  { pose proof (read_text_no_cr file) as Hcr. rewrite Hs in Hcr.
    rewrite !not_elem_of_app in Hcr. rewrite Hout, !not_elem_of_app.
    assert (cr ∉ GateChargePatch.charge_block) as Hcb
      by (apply (bool_decide_unpack _); vm_compute; reflexivity).
    tauto. }
  unfold GateChargePatch.run. by rewrite (read_written crlf out Hplain).
Qed.

End Reruns.

(** On the small file, stored with CR LF line ends, the text written still
    has two gate lines. *)
Lemma gate_charge_patch_rerun_doubles_witness :
  Py.count gate_sample_patched GateChargePatch.needle = 2%nat.
Proof.
  destruct (gate_charge_patch_rerun_doubles true
              (Py.write_text true gate_sample) gate_sample_patched)
    as (p0 & p1 & p2 & _ & _ & Hcount & _).
  - vm_compute. reflexivity.
  - exact Hcount.
Defined.

(** ** The hook of [syncA2P.ts] and its removal *)

Section RoundTrip.
Local Open Scope list_scope.

Lemma block_shape :
  RemoveDuplicatePatch.block
  = txt "  " ++ HookSyncA2PPatch.insertion ++ [nl]
  ∧ RemoveDuplicatePatch.header = txt "  " ++ HookSyncA2PPatch.anchor ++ [nl]
  ∧ HookSyncA2PPatch.insertion
    = HookSyncA2PPatch.anchor
      ++ drop (length HookSyncA2PPatch.anchor) HookSyncA2PPatch.insertion.
Proof. repeat split; vm_compute; reflexivity. Qed.

(** A text that holds a block holds the comment line two characters into
    it. *)
Lemma block_holds_anchor (t : list ascii) :
  Py.contains t HookSyncA2PPatch.anchor = false →
  Py.contains t RemoveDuplicatePatch.block = false.
Proof.
  intros Hno. destruct (Py.contains t RemoveDuplicatePatch.block) eqn:Hb; [| done].
  apply contains_true in Hb as (p & q & ->).
  destruct block_shape as (Hblock & _ & Hins).
  assert (Py.contains (p ++ RemoveDuplicatePatch.block ++ q)
            HookSyncA2PPatch.anchor = true) as Hyes.
  { apply contains_true.
    exists (p ++ txt "  "),
      (drop (length HookSyncA2PPatch.anchor) HookSyncA2PPatch.insertion
       ++ [nl] ++ q).
    rewrite Hblock. rewrite Hins at 1. by rewrite <- !app_assoc. }
  congruence.
Qed.

(** A comparison within a common head does not see what follows it. *)
Lemma startswith_common_prefix (P t1 t2 sub : list ascii) (k : nat) :
  (k + length sub <= length P)%nat →
  Py.startswith (drop k (P ++ t1)) sub = Py.startswith (drop k (P ++ t2)) sub.
Proof.
  intros Hk. rewrite !drop_app_le by lia.
  by rewrite !startswith_within by (rewrite length_drop; lia).
Qed.

(** The two scripts on the text: what the first makes of it, and what the
    second makes of that. *)
Lemma hook_edit_then_remove (add_import : list ascii → list ascii)
  (x y : list ascii) :
  let s := x ++ txt "  " ++ HookSyncA2PPatch.anchor ++ [nl; nl] ++ y in
  Py.contains s HookSyncA2PPatch.name = true →
  Py.find0 s HookSyncA2PPatch.anchor = Some (length x + 2)%nat →
  Py.contains ([nl; nl] ++ y) HookSyncA2PPatch.anchor = false →
  HookSyncA2PPatch.edit add_import s
  = Wrote (x ++ RemoveDuplicatePatch.block ++ [nl] ++ y)
  ∧ RemoveDuplicatePatch.edit (x ++ RemoveDuplicatePatch.block ++ [nl] ++ y)
    = Wrote s.
Proof.
  intros s Hname Hfirst Hrest.
  destruct block_shape as (Hblock & Hheader & Hins).
  set (anchor := HookSyncA2PPatch.anchor) in *.
  assert (s = (x ++ txt "  ") ++ anchor ++ [nl; nl] ++ y) as Hs
    by (unfold s; by rewrite <- !app_assoc).
  assert (length (x ++ txt "  ") = (length x + 2)%nat) as Hlx
    by (by rewrite length_app).
  assert (0 < length anchor)%nat as Hanchor by (vm_compute; lia).
  split.
  - unfold HookSyncA2PPatch.edit. rewrite Hname. cbn [negb]. fold anchor.
    assert (Py.contains s anchor = true) as ->
      by (unfold Py.contains; rewrite Hfirst; by apply bool_decide_eq_true).
    cbn [negb]. f_equal.
    destruct (length s) as [|n] eqn:Hlen.
    { rewrite Hs, !length_app in Hlen. lia. }
    rewrite Hs. rewrite replace_first by (by rewrite <- Hs, Hlx).
    rewrite replace_none by (by apply contains_false).
    rewrite Hblock. by rewrite <- !app_assoc.
  - set (out := x ++ RemoveDuplicatePatch.block ++ [nl] ++ y).
    set (B := drop (length anchor) HookSyncA2PPatch.insertion ++ [nl]).
    assert (RemoveDuplicatePatch.block = txt "  " ++ anchor ++ B) as Hblock'.
    { rewrite Hblock. rewrite Hins at 1. unfold B. by rewrite <- !app_assoc. }
    assert (out = (x ++ txt "  " ++ anchor) ++ B ++ [nl] ++ y) as Hout
      by (unfold out; rewrite Hblock'; by rewrite <- !app_assoc).
    assert (s = (x ++ txt "  " ++ anchor) ++ [nl; nl] ++ y) as Hs'
      by (unfold s; by rewrite <- !app_assoc).
    assert (Py.find0 out RemoveDuplicatePatch.block = Some (length x)) as Hb.
    { apply find0_first. intros j Hj.
      destruct (Py.startswith _ RemoveDuplicatePatch.block) eqn:Hst; [| done].
      exfalso. apply startswith_prefix in Hst as [r Hr].
      destruct (find0_Some _ _ _ Hfirst) as (_ & _ & Hno).
      specialize (Hno (j + 2)%nat ltac:(lia)).
      assert (Py.startswith (drop (j + 2) out) anchor = true) as Hyes.
      { apply startswith_prefix. exists (B ++ r).
        rewrite <- drop_drop. fold out in Hr. rewrite Hr, Hblock'.
        by rewrite <- !app_assoc. }
      rewrite Hout in Hyes. rewrite Hs' in Hno.
      rewrite (startswith_common_prefix _ _ ([nl; nl] ++ y)) in Hyes
        by (rewrite !length_app; cbn [length txt list_ascii_of_string]; lia).
      congruence. }
    unfold RemoveDuplicatePatch.edit.
    assert (Py.contains out RemoveDuplicatePatch.block = true) as ->
      by (unfold Py.contains; rewrite Hb; by apply bool_decide_eq_true).
    cbn [negb]. f_equal.
    destruct (length out) as [|n] eqn:Hlen.
    { unfold out in Hlen. rewrite Hblock', !length_app in Hlen. lia. }
    unfold out in *. rewrite replace_first by exact Hb.
    rewrite replace_none.
    + rewrite Hheader. unfold s. fold anchor. by rewrite <- !app_assoc.
    + apply contains_false, block_holds_anchor.
      by apply (contains_tail [nl] ([nl] ++ y)).
Qed.

(** X24. On a [syncA2P.ts] whose text, as read, already names the billing
    function and holds the comment line once, indented by two blanks and
    followed by an empty line, the hook script puts its block under the
    comment line, and the removal script run on the file the hook script
    wrote gives back the text the hook script read. *)
Theorem hook_then_remove_gives_back (add_import : list ascii → list ascii)
  (crlf : bool) (file x y : list ascii) :
  let s := Py.read_text file in
  s = x ++ txt "  " ++ HookSyncA2PPatch.anchor ++ [nl; nl] ++ y →
  Py.contains s HookSyncA2PPatch.name = true →
  Py.find0 s HookSyncA2PPatch.anchor = Some (length x + 2)%nat →
  Py.contains ([nl; nl] ++ y) HookSyncA2PPatch.anchor = false →
  HookSyncA2PPatch.run add_import file
  = Wrote (x ++ RemoveDuplicatePatch.block ++ [nl] ++ y)
  ∧ RemoveDuplicatePatch.run
      (Py.write_text crlf (x ++ RemoveDuplicatePatch.block ++ [nl] ++ y))
    = Wrote s.
Proof.
  intros s Hs Hname Hfirst Hrest.
  pose proof (read_text_no_cr file) as Hcr. fold s in Hcr.
  unfold HookSyncA2PPatch.run, RemoveDuplicatePatch.run. fold s.
  clearbody s. subst s.
  assert (cr ∉ x ++ RemoveDuplicatePatch.block ++ [nl] ++ y) as Hplain.
  { rewrite !not_elem_of_app in Hcr. rewrite !not_elem_of_app.
    assert (cr ∉ RemoveDuplicatePatch.block) as Hb
      by (apply (bool_decide_unpack _); vm_compute; reflexivity).
    assert (cr ∉ [nl]) as Hnl
      by (apply (bool_decide_unpack _); vm_compute; reflexivity).
    tauto. }
  rewrite (read_written crlf _ Hplain).
  exact (hook_edit_then_remove add_import x y Hname Hfirst Hrest).
Qed.

End RoundTrip.

(** On the small file, stored with CR LF line ends and written with them
    between the two runs, the removal gives back the text read. *)
Lemma hook_then_remove_gives_back_witness :
  RemoveDuplicatePatch.run
    (Py.write_text true
       (syncA2P_head ++ RemoveDuplicatePatch.block ++ [nl] ++ syncA2P_tail))%list
  = Wrote syncA2P_sample.
Proof.
  apply (hook_then_remove_gives_back (λ s, s) true
           (Py.write_text true syncA2P_sample) syncA2P_head syncA2P_tail).
  - vm_compute. reflexivity.
  - vm_compute. reflexivity.
  - vm_compute. reflexivity.
  - vm_compute. reflexivity.
Defined.
